(** * Ad-hoc table ingestion (lightdash): a shallow embedding

    The development follows the TypeScript sources of the ad-hoc table
    feature: the warehouse helpers' identifier sanitizers, the file parser's
    type inference, the Explore generator, the permission service, the
    catalog service and the orchestrating [AdhocTableService].

    Conventions of the embedding.
    - A JavaScript string is the list of its UTF-16 code units; the
      embedding covers the strings whose code units are below 256, one
      [ascii] per code unit.
    - Knex query chains are read by their evident meaning on tables held as
      lists of rows, in insertion order.
    - [async] methods are run to completion one after the other: a method is
      a function from the world to an outcome (a value or a thrown error)
      and the next world.  A thrown error keeps the world as it is at the
      throw: JavaScript exceptions undo nothing.
    - The world holds the tables of the metadata store, the tables of the
      warehouse, the clock, the randomness that uuids are drawn from, and
      for every call to the warehouse, to [cached_explore] and to
      [catalog_search] whether that call fails.
    - Papa Parse, SheetJS and the factory of warehouse clients are
      parameters; the loggers and [console.error] append to one log. *)

From Stdlib Require Import String Ascii Bool Arith ZArith NArith Lia QArith List.
From Stdlib Require Import DecimalString.
From Stdlib Require Import Permutation.
Import ListNotations.

Set Implicit Arguments.
Local Close Scope Q_scope.
Local Open Scope list_scope.

(* ================================================================== *)
(** ** JavaScript strings *)
(* ================================================================== *)

Module Js.

Definition jsstring := list ascii.

(** String literals of the sources. *)
Definition js (s : string) : jsstring := list_ascii_of_string s.

Definition code (c : ascii) : N := N_of_ascii c.

Definition between (lo hi : N) (c : ascii) : bool :=
  (lo <=? code c)%N && (code c <=? hi)%N.

(** [\d] and [0-9] *)
Definition isDigit (c : ascii) : bool := between 48 57 c.
(** [a-z] *)
Definition isLower (c : ascii) : bool := between 97 122 c.
(** [A-Z] *)
Definition isUpper (c : ascii) : bool := between 65 90 c.

Definition underscore : ascii := "_"%char.
Definition isUnderscore (c : ascii) : bool := Ascii.eqb c underscore.

(** [[a-zA-Z0-9_]] *)
Definition isWordChar (c : ascii) : bool :=
  isLower c || isUpper c || isDigit c || isUnderscore c.
(** [[a-z0-9_]] *)
Definition isLowerWordChar (c : ascii) : bool :=
  isLower c || isDigit c || isUnderscore c.
(** [[a-zA-Z_]] *)
Definition isLetterOrUnderscore (c : ascii) : bool :=
  isLower c || isUpper c || isUnderscore c.

(** [String.prototype.toLowerCase] on code units below 256: A-Z, and the
    Latin-1 capitals U+00C0..U+00DE except the multiplication sign. *)
Definition lowerChar (c : ascii) : ascii :=
  if isUpper c || (between 192 222 c && negb (code c =? 215)%N)
  then ascii_of_N (code c + 32)
  else c.
Definition toLowerCase (s : jsstring) : jsstring := map lowerChar s.

(** WhiteSpace and LineTerminator code units below 256. *)
Definition isWhiteSpace (c : ascii) : bool :=
  between 9 13 c || (code c =? 32)%N || (code c =? 160)%N.

Fixpoint dropWhile (p : ascii -> bool) (s : jsstring) : jsstring :=
  match s with
  | [] => []
  | c :: r => if p c then dropWhile p r else s
  end.

Fixpoint takeWhile (p : ascii -> bool) (s : jsstring) : jsstring :=
  match s with
  | [] => []
  | c :: r => if p c then c :: takeWhile p r else []
  end.

Definition dropWhileEnd (p : ascii -> bool) (s : jsstring) : jsstring :=
  rev (dropWhile p (rev s)).

(** [String.prototype.trim] *)
Definition trim (s : jsstring) : jsstring :=
  dropWhileEnd isWhiteSpace (dropWhile isWhiteSpace s).

(** [s.replace(/[class]/g, by)] for a one-character class. *)
Definition replaceAllChars (p : ascii -> bool) (by_ : ascii) (s : jsstring)
  : jsstring :=
  map (fun c => if p c then by_ else c) s.

(** [s.replace(/^[class]/, by)]: only a first character in the class is
    replaced. *)
Definition replaceFirstChar (p : ascii -> bool) (by_ : ascii) (s : jsstring)
  : jsstring :=
  match s with
  | [] => []
  | c :: r => if p c then by_ :: r else s
  end.

(** [s.replace(/_+/g, '_')]: every run of underscores becomes one. *)
Fixpoint collapseUnderscores (s : jsstring) : jsstring :=
  match s with
  | [] => []
  | c :: r =>
      if isUnderscore c
      then match r with
           | [] => [c]
           | d :: _ =>
               if isUnderscore d then collapseUnderscores r
               else c :: collapseUnderscores r
           end
      else c :: collapseUnderscores r
  end.

(** [s.replace(/^_+|_+$/g, '')]: the leading run and the trailing run of
    underscores are removed. *)
Definition stripUnderscores (s : jsstring) : jsstring :=
  dropWhileEnd isUnderscore (dropWhile isUnderscore s).

(** [s.substring(0, n)] and [s.slice(0, n)] for [n >= 0]. *)
Definition substring0 (n : nat) (s : jsstring) : jsstring := firstn n s.

(** [!s] for a string: the empty string is the only falsy one. *)
Definition isEmpty (s : jsstring) : bool :=
  match s with [] => true | _ => false end.

Fixpoint eqb (a b : jsstring) : bool :=
  match a, b with
  | [], [] => true
  | x :: a', y :: b' => Ascii.eqb x y && eqb a' b'
  | _, _ => false
  end.

(** [/^\d/.test(s)] *)
Definition startsWithDigit (s : jsstring) : bool :=
  match s with c :: _ => isDigit c | [] => false end.

Definition startsWithUnderscore (s : jsstring) : bool :=
  match s with c :: _ => isUnderscore c | [] => false end.

End Js.

Import Js.

(* ================================================================== *)
(** ** Warehouse helpers: identifier sanitizers *)
(* ================================================================== *)

Module PostgresAdhocTableHelper.

(** [sanitizeColumnName], PostgresAdhocTableHelper.ts *)
Definition sanitizeColumnName (name : jsstring) : jsstring :=
  let sanitized :=
    replaceFirstChar (fun c => negb (isLetterOrUnderscore c)) underscore
      (replaceAllChars (fun c => negb (isWordChar c)) underscore name) in
  let sanitized := stripUnderscores sanitized in
  let sanitized := if isEmpty sanitized then js "column" else sanitized in
  substring0 63 sanitized.

Definition sanitizeTableName (name : jsstring) : jsstring :=
  sanitizeColumnName name.

End PostgresAdhocTableHelper.

Module BigQueryAdhocTableHelper.

(** [sanitizeColumnName] of the BigQuery helper *)
Definition sanitizeColumnName (name : jsstring) : jsstring :=
  let sanitized :=
    replaceFirstChar (fun c => negb (isLetterOrUnderscore c)) underscore
      (replaceAllChars (fun c => negb (isWordChar c)) underscore name) in
  let sanitized := stripUnderscores sanitized in
  let sanitized := if isEmpty sanitized then js "column" else sanitized in
  substring0 128 sanitized.

End BigQueryAdhocTableHelper.

Module RedshiftAdhocTableHelper.

(** [sanitizeColumnName] of the Redshift helper *)
Definition sanitizeColumnName (name : jsstring) : jsstring :=
  let sanitized :=
    replaceFirstChar (fun c => negb (isLetterOrUnderscore c)) underscore
      (replaceAllChars (fun c => negb (isWordChar c)) underscore name) in
  let sanitized := stripUnderscores sanitized in
  let sanitized := if isEmpty sanitized then js "column" else sanitized in
  substring0 127 sanitized.

Definition sanitizeTableName (name : jsstring) : jsstring :=
  sanitizeColumnName name.

End RedshiftAdhocTableHelper.

(** A [Buffer] is held as the text it decodes to; for the ASCII content of
    the examples its length in bytes is the length of that text. *)
Definition Buffer : Type := jsstring.
Definition bufferToString (b : Buffer) : jsstring := b.
Definition bufferLength (b : Buffer) : nat := length b.

(* ================================================================== *)
(** ** Thrown errors *)
(* ================================================================== *)

Inductive JsError : Type :=
| Error (message : jsstring)
| NotFoundError (message : jsstring)
| ForbiddenError (message : jsstring).

Definition errorMessage (e : JsError) : jsstring :=
  match e with
  | Error m | NotFoundError m | ForbiddenError m => m
  end.

Inductive Outcome (A : Type) : Type :=
| Ok (a : A)
| Throw (e : JsError).
Arguments Ok {A} a.
Arguments Throw {A} e.

(* ================================================================== *)
(** ** FileParserService: type inference *)
(* ================================================================== *)

(** Cell values as the parsers deliver them: strings from the CSV parser;
    strings, numbers and booleans from the spreadsheet reader.  Numbers are
    the integral ones, printed by [String] as their decimal digits. *)
Inductive JsValue : Type :=
| JNull
| JUndefined
| JString (s : jsstring)
| JNumber (z : Z)
| JBoolean (b : bool).

(** [Record<string, unknown>]: own properties in insertion order. *)
Definition Row : Type := list (jsstring * JsValue).

(** [row[header]]: a property that is not there reads [undefined]. *)
Fixpoint rowGet (row : Row) (header : jsstring) : JsValue :=
  match row with
  | [] => JUndefined
  | (k, v) :: rest => if Js.eqb k header then v else rowGet rest header
  end.

(** [Object.keys(row)] *)
Definition objectKeys (row : Row) : list jsstring := map fst row.

(** ['string' | 'number' | 'date' | 'boolean'] *)
Inductive ColumnType : Type := TString | TNumber | TDate | TBoolean.

Record ColumnInference : Type := mkColumnInference {
  ci_name : jsstring;
  ci_type : ColumnType;
  ci_displayType : jsstring;
  ci_nullable : bool;
  ci_sampleValues : list JsValue
}.

Module FileParserService.

(** [String(value)] *)
Definition String_ (v : JsValue) : jsstring :=
  match v with
  | JNull => js "null"
  | JUndefined => js "undefined"
  | JString s => s
  | JNumber z => js (NilZero.string_of_int (Z.to_int z))
  | JBoolean true => js "true"
  | JBoolean false => js "false"
  end.

(** *** [Number(str)] is not [NaN]: the StringNumericLiteral grammar *)

Definition dropDigits (s : jsstring) : jsstring := dropWhile isDigit s.

Definition isCharIn (cs : jsstring) (c : ascii) : bool :=
  existsb (Ascii.eqb c) cs.

(** ExponentPart, optional, up to the end of the string *)
Definition exponentToEnd (s : jsstring) : bool :=
  match s with
  | [] => true
  | e :: r =>
      isCharIn (js "eE") e &&
      (let r' := match r with
                 | sg :: r0 => if isCharIn (js "+-") sg then r0 else r
                 | [] => r
                 end in
       startsWithDigit r' && isEmpty (dropDigits r'))
  end.

(** StrUnsignedDecimalLiteral *)
Definition isUnsignedDecimal (s : jsstring) : bool :=
  Js.eqb s (js "Infinity") ||
  match s with
  | [] => false
  | c :: r =>
      if Ascii.eqb c "."%char
      then startsWithDigit r && exponentToEnd (dropDigits r)
      else startsWithDigit s &&
           match dropDigits s with
           | d :: r2 =>
               if Ascii.eqb d "."%char
               then exponentToEnd (dropDigits r2)
               else exponentToEnd (d :: r2)
           | [] => true
           end
  end.

(** StrDecimalLiteral *)
Definition isStrDecimal (s : jsstring) : bool :=
  match s with
  | c :: r => if isCharIn (js "+-") c then isUnsignedDecimal r
              else isUnsignedDecimal s
  | [] => false
  end.

Definition isHexDigit (c : ascii) : bool :=
  isDigit c || between 97 102 c || between 65 70 c.

(** NonDecimalIntegerLiteral: 0b, 0o, 0x and their capitals *)
Definition isNonDecimal (s : jsstring) : bool :=
  match s with
  | z :: p :: d :: rest =>
      Ascii.eqb z "0"%char &&
      ((isCharIn (js "bB") p && forallb (between 48 49) (d :: rest)) ||
       (isCharIn (js "oO") p && forallb (between 48 55) (d :: rest)) ||
       (isCharIn (js "xX") p && forallb isHexDigit (d :: rest)))
  | _ => false
  end.

(** [isNaN(Number(s))]: the empty and the all-blank string convert to 0. *)
Definition Number_isNaN (s : jsstring) : bool :=
  let t := trim s in
  negb (isEmpty t || isNonDecimal t || isStrDecimal t).

(** *** [isValidDate] *)

Definition eatDigit (s : jsstring) : option jsstring :=
  match s with
  | c :: r => if isDigit c then Some r else None
  | [] => None
  end.

Definition eatChar (ch : ascii) (s : jsstring) : option jsstring :=
  match s with
  | c :: r => if Ascii.eqb c ch then Some r else None
  | [] => None
  end.

Definition andThen {A B} (o : option A) (f : A -> option B) : option B :=
  match o with Some a => f a | None => None end.

Fixpoint eatDigits (n : nat) (s : jsstring) : option jsstring :=
  match n with
  | O => Some s
  | S n' => andThen (eatDigit s) (eatDigits n')
  end.

(** [\d{1,2}] followed by the separator [ch] *)
Definition eatDigits12Then (ch : ascii) (s : jsstring) : option jsstring :=
  andThen (eatDigit s) (fun r1 =>
    match eatChar ch r1 with
    | Some r => Some r
    | None => andThen (eatDigit r1) (eatChar ch)
    end).

Definition matches (o : option jsstring) : bool :=
  match o with Some _ => true | None => false end.

(** [/^\d{4}-\d{2}-\d{2}/] *)
Definition isoDate (s : jsstring) : bool :=
  matches (andThen (andThen (andThen (andThen (eatDigits 4 s)
    (eatChar "-")) (eatDigits 2)) (eatChar "-")) (eatDigits 2)).

(** [/^\d{2}\/\d{2}\/\d{4}/] *)
Definition usDate (s : jsstring) : bool :=
  matches (andThen (andThen (andThen (andThen (eatDigits 2 s)
    (eatChar "/")) (eatDigits 2)) (eatChar "/")) (eatDigits 4)).

(** [/^\d{1,2}-\d{1,2}-\d{2,4}/] and [/^\d{1,2}\.\d{1,2}\.\d{2,4}/] *)
Definition dmyDate (sep : ascii) (s : jsstring) : bool :=
  matches (andThen (andThen (eatDigits12Then sep s)
    (eatDigits12Then sep)) (eatDigits 2)).

Definition isValidDate (str : jsstring) : bool :=
  existsb (fun format => format str)
    [isoDate; usDate; dmyDate "-"%char; dmyDate "."%char].

(** *** [detectColumnType] *)

Record TypeScores : Type := mkScores {
  sc_number : nat;
  sc_date : nat;
  sc_boolean : nat;
  sc_string : nat
}.

Definition isBooleanLiteral (strValue : jsstring) : bool :=
  Js.eqb strValue (js "true") || Js.eqb strValue (js "false") ||
  Js.eqb strValue (js "1") || Js.eqb strValue (js "0") ||
  Js.eqb strValue (js "yes") || Js.eqb strValue (js "no").

Definition isNumberLike (strValue : jsstring) : bool :=
  negb (Number_isNaN strValue) && negb (isEmpty strValue).

Definition strValueOf (value : JsValue) : jsstring :=
  toLowerCase (trim (String_ value)).

(** The body of the [for] loop. *)
Definition scoreValue (typeScores : TypeScores) (value : JsValue)
  : TypeScores :=
  let strValue := strValueOf value in
  {| sc_boolean := sc_boolean typeScores +
                   (if isBooleanLiteral strValue then 1 else 0);
     sc_number := sc_number typeScores +
                  (if isNumberLike strValue then 1 else 0);
     sc_date := sc_date typeScores +
                (if isValidDate strValue then 1 else 0);
     sc_string := sc_string typeScores + 1 |}.

Definition scoreValues (values : list JsValue) : TypeScores :=
  fold_left scoreValue values (mkScores 0 0 0 0).

(** [values.length * 0.8], as a rational.  The double product rounds to
    an integer exactly when four fifths of the length is one, so the
    comparison of a count with it is the rational one. *)
Definition threshold (values : list JsValue) : Q :=
  (inject_Z (Z.of_nat (length values)) * (8 # 10))%Q.

Definition meets (score : nat) (values : list JsValue) : bool :=
  Qle_bool (threshold values) (inject_Z (Z.of_nat score)).

Definition detectColumnType (values : list JsValue) : ColumnType :=
  match values with
  | [] => TString
  | _ =>
      let typeScores := scoreValues values in
      if meets (sc_boolean typeScores) values then TBoolean
      else if meets (sc_date typeScores) values then TDate
      else if meets (sc_number typeScores) values then TNumber
      else TString
  end.

Definition mapToWarehouseType (type : ColumnType) : jsstring :=
  match type with
  | TString => js "STRING"
  | TNumber => js "NUMERIC"
  | TDate => js "TIMESTAMP"
  | TBoolean => js "BOOLEAN"
  end.

(** [val !== null && val !== undefined && val !== ''] *)
Definition isPresent (val : JsValue) : bool :=
  match val with
  | JNull | JUndefined => false
  | JString s => negb (isEmpty s)
  | _ => true
  end.

(** The body of the loop over the headers of [inferColumnTypes]. *)
Definition inferColumn (rows : list Row) (header : jsstring)
  : ColumnInference :=
  let sampleValues :=
    filter isPresent (map (fun row => rowGet row header) (firstn 100 rows)) in
  let type := detectColumnType sampleValues in
  {| ci_name := header;
     ci_type := type;
     ci_displayType := mapToWarehouseType type;
     ci_nullable := length sampleValues <? length rows;
     ci_sampleValues := firstn 5 sampleValues |}.

Definition inferColumnTypes (rows : list Row) (headers : list jsstring)
  : list ColumnInference :=
  map (inferColumn rows) headers.

(** *** [parseCSV] and [parseExcel]

    Papa Parse and SheetJS are libraries outside the repository: what
    they make of a file is a parameter. *)

Inductive PapaOutcome : Type :=
| PapaComplete (data : list Row)      (* the [complete] callback *)
| PapaError (message : jsstring).     (* the [error] callback *)

Inductive XlsxOutcome : Type :=
| XlsxThrows (message : jsstring)
  (* [XLSX.read] throws *)
| XlsxWorkbook (firstSheet : option (list Row)).
  (* the first sheet, if any, through [sheet_to_json] *)

Record ParseResult : Type := mkParseResult {
  parsed_headers : list jsstring;
  parsed_rows : list Row;
  parsed_columns : list ColumnInference
}.

Section Parsers.
(** [Papa.parse(text, {header: true, skipEmptyLines: true})] *)
Variable papaParse : jsstring -> PapaOutcome.
(** [XLSX.read(buffer)] and [XLSX.utils.sheet_to_json] *)
Variable xlsxRead : Buffer -> XlsxOutcome.

Definition parseCSV (buffer : Buffer) : Outcome ParseResult :=
  let text := bufferToString buffer in
  match papaParse text with
  | PapaComplete data =>
      if Nat.eqb (length data) 0
      then Throw (Error (js "CSV file is empty"))
      else
        let rows := data in
        let headers := objectKeys (hd [] rows) in
        let columns := inferColumnTypes rows headers in
        Ok (mkParseResult headers rows columns)
  | PapaError message =>
      Throw (Error (js "CSV parsing failed: " ++ message))
  end.

(** The body of the [try] of [parseExcel]. *)
Definition parseExcelBody (buffer : Buffer) : Outcome ParseResult :=
  match xlsxRead buffer with
  | XlsxThrows message => Throw (Error message)
  | XlsxWorkbook None => Throw (Error (js "Excel file has no sheets"))
  | XlsxWorkbook (Some rows) =>
      if Nat.eqb (length rows) 0
      then Throw (Error (js "Excel sheet is empty"))
      else
        let headers := objectKeys (hd [] rows) in
        let columns := inferColumnTypes rows headers in
        Ok (mkParseResult headers rows columns)
  end.

Definition parseExcel (buffer : Buffer) : Outcome ParseResult :=
  match parseExcelBody buffer with
  | Ok r => Ok r
  | Throw error =>
      Throw (Error (js "Excel parsing failed: " ++ errorMessage error))
  end.
End Parsers.

End FileParserService.


(* ================================================================== *)
(** ** Random identifiers *)
(* ================================================================== *)

(** [uuidv4()] and the database's [gen_random_uuid()] draw from a source of
    randomness: the sequence of the values still to be drawn and the number
    of draws made so far. *)
Record UuidSupply : Type := mkSupply {
  us_draw : nat -> jsstring;
  us_next : nat
}.

Definition Gen (A : Type) : Type := UuidSupply -> A * UuidSupply.

Definition gret {A} (a : A) : Gen A := fun s => (a, s).
Definition gbind {A B} (m : Gen A) (f : A -> Gen B) : Gen B :=
  fun s => let (a, s') := m s in f a s'.

Definition uuidv4 : Gen jsstring :=
  fun s => (us_draw s (us_next s), mkSupply (us_draw s) (S (us_next s))).

(* ================================================================== *)
(** ** JavaScript objects used as records keyed by name *)
(* ================================================================== *)

Section Obj.
Variable V : Type.

Definition Obj : Type := list (jsstring * V).

(** [{...o, [k]: v}]: an existing key keeps its place and takes the new
    value, a new key goes last. *)
Fixpoint objSet (o : Obj) (k : jsstring) (v : V) : Obj :=
  match o with
  | [] => [(k, v)]
  | (k', v') :: rest =>
      if Js.eqb k' k then (k', v) :: rest else (k', v') :: objSet rest k v
  end.

Fixpoint objGet (o : Obj) (k : jsstring) : option V :=
  match o with
  | [] => None
  | (k', v') :: rest => if Js.eqb k' k then Some v' else objGet rest k
  end.

(** [Object.values(o)] *)
Definition objValues (o : Obj) : list V := map snd o.

Definition objKeys (o : Obj) : list jsstring := map fst o.
End Obj.

(* ================================================================== *)
(** ** AdhocTableExploreService *)
(* ================================================================== *)

Inductive DimensionType : Type :=
| DimSTRING | DimNUMBER | DimDATE | DimBOOLEAN | DimTIMESTAMP.

Inductive FieldType : Type := DIMENSION | METRIC.

Inductive MetricType : Type :=
| COUNT | COUNT_DISTINCT | SUM | AVERAGE | MIN | MAX.

(** [ColumnDefinition] as [registerExplore] builds it: name, type, nullable *)
Record ColumnDefinition : Type := mkColumnDefinition {
  cd_name : jsstring;
  cd_type : jsstring;
  cd_nullable : bool
}.

Record CompiledDimension : Type := mkDimension {
  dim_name : jsstring;
  dim_label : jsstring;
  dim_table : jsstring;
  dim_tableLabel : jsstring;
  dim_fieldType : FieldType;
  dim_type : DimensionType;
  dim_sql : jsstring;
  dim_compiledSql : jsstring;
  dim_hidden : bool;
  dim_tablesReferences : list jsstring
}.

Record CompiledMetric : Type := mkMetric {
  met_name : jsstring;
  met_label : jsstring;
  met_table : jsstring;
  met_tableLabel : jsstring;
  met_fieldType : FieldType;
  met_type : MetricType;
  met_sql : jsstring;
  met_compiledSql : jsstring;
  met_hidden : bool;
  met_tablesReferences : list jsstring
}.

Record CompiledTable : Type := mkCompiledTable {
  tbl_name : jsstring;
  tbl_label : jsstring;
  tbl_database : jsstring;
  tbl_schema : jsstring;
  tbl_sqlTable : jsstring;
  tbl_dimensions : Obj CompiledDimension;
  tbl_metrics : Obj CompiledMetric;
  tbl_description : jsstring
}.

Record Explore : Type := mkExplore {
  ex_name : jsstring;
  ex_label : jsstring;
  ex_baseTable : jsstring;
  ex_targetDatabase : jsstring;
  ex_tags : list jsstring;
  ex_joinedTables : list jsstring;
  ex_tables : Obj CompiledTable;
  ex_meta_adhocTableUuid : jsstring;
  ex_meta_sourceType : jsstring
}.

Module AdhocTableExploreService.

Definition dq : ascii := ascii_of_nat 34.

(** Every double quote of the identifier is doubled. *)
Definition escapeIdentifier (identifier : jsstring) : jsstring :=
  flat_map (fun c => if Ascii.eqb c dq then [dq; dq] else [c]) identifier.

(** The chain [.toLowerCase().replace(..).replace(..).replace(..)] that
    starts [sanitizeFieldName]. *)
Definition lowerAndReplace (columnName : jsstring) : jsstring :=
  stripUnderscores
    (collapseUnderscores
       (replaceAllChars (fun c => negb (isLowerWordChar c)) underscore
          (toLowerCase columnName))).

(** [sanitizeFieldName]; the placeholder of an empty name draws a uuid. *)
Definition sanitizeFieldName (columnName : jsstring) : Gen jsstring :=
  let sanitized := lowerAndReplace columnName in
  let sanitized :=
    if startsWithDigit sanitized then underscore :: sanitized
    else sanitized in
  if isEmpty sanitized
  then gbind uuidv4 (fun u => gret (js "column_" ++ substring0 8 u))
  else gret sanitized.

Definition mapColumnTypeToDimensionType (columnType : jsstring)
  : DimensionType :=
  let t := toLowerCase columnType in
  if Js.eqb t (js "number") then DimNUMBER
  else if Js.eqb t (js "date") then DimDATE
  else if Js.eqb t (js "boolean") then DimBOOLEAN
  else DimSTRING.

(** The callback of the [reduce] in [generateDimensions]. *)
Definition addDimension (tableName : jsstring)
    (acc : Obj CompiledDimension) (column : ColumnDefinition)
  : Gen (Obj CompiledDimension) :=
  let dimensionType := mapColumnTypeToDimensionType (cd_type column) in
  gbind (sanitizeFieldName (cd_name column)) (fun sanitizedName =>
    let dimension :=
      {| dim_name := sanitizedName;
         dim_label := cd_name column;
         dim_table := tableName;
         dim_tableLabel := tableName;
         dim_fieldType := DIMENSION;
         dim_type := dimensionType;
         dim_sql := js "${TABLE}.`" ++ escapeIdentifier (cd_name column)
                      ++ js "`";
         dim_compiledSql :=
           [dq] ++ tableName ++ [dq] ++ js "." ++ [dq]
             ++ escapeIdentifier (cd_name column) ++ [dq];
         dim_hidden := false;
         dim_tablesReferences := [tableName] |} in
    gret (objSet acc sanitizedName dimension)).

Fixpoint reduceDimensions (tableName : jsstring)
    (columns : list ColumnDefinition) (acc : Obj CompiledDimension)
  : Gen (Obj CompiledDimension) :=
  match columns with
  | [] => gret acc
  | column :: rest =>
      gbind (addDimension tableName acc column)
            (reduceDimensions tableName rest)
  end.

Definition generateDimensions (columns : list ColumnDefinition)
    (tableName : jsstring) : Gen (Obj CompiledDimension) :=
  reduceDimensions tableName columns [].

(** The SQL text of the row count: COUNT, an opening parenthesis, a star
    and a closing parenthesis. *)
Definition countStar : jsstring := js "COUNT(" ++ ["*"%char] ++ js ")".

Definition generateMetrics (tableName : jsstring) : Obj CompiledMetric :=
  let countMetric :=
    {| met_name := js "row_count";
       met_label := js "Row Count";
       met_table := tableName;
       met_tableLabel := tableName;
       met_fieldType := METRIC;
       met_type := COUNT;
       met_sql := countStar;
       met_compiledSql := countStar;
       met_hidden := false;
       met_tablesReferences := [tableName] |} in
  [(js "row_count", countMetric)].

Definition generateExplore (adhocTableUuid tableNameWithSchema : jsstring)
    (columns : list ColumnDefinition) (warehouseType : jsstring)
  : Gen Explore :=
  gbind (generateDimensions columns tableNameWithSchema) (fun dimensions =>
    let metrics := generateMetrics tableNameWithSchema in
    gret
      {| ex_name := adhocTableUuid;
         ex_label := tableNameWithSchema;
         ex_baseTable := adhocTableUuid;
         ex_targetDatabase := warehouseType;
         ex_tags := [js "adhoc"; js "uploaded"];
         ex_joinedTables := [];
         ex_tables :=
           [(adhocTableUuid,
             {| tbl_name := adhocTableUuid;
                tbl_label := tableNameWithSchema;
                tbl_database := js "adhoc";
                tbl_schema := js "adhoc";
                tbl_sqlTable := tableNameWithSchema;
                tbl_dimensions := dimensions;
                tbl_metrics := metrics;
                tbl_description :=
                  js "Adhoc table uploaded from file. UUID: "
                    ++ adhocTableUuid |})];
         ex_meta_adhocTableUuid := adhocTableUuid;
         ex_meta_sourceType := js "ADHOC_UPLOAD" |}).

(** The dimensions and the metrics of the Explore's base table. *)
Definition baseTableOf (explore : Explore) : option CompiledTable :=
  objGet (ex_tables explore) (ex_baseTable explore).

Definition dimensionsOf (explore : Explore) : Obj CompiledDimension :=
  match baseTableOf explore with
  | Some t => tbl_dimensions t
  | None => []
  end.

Definition metricsOf (explore : Explore) : Obj CompiledMetric :=
  match baseTableOf explore with
  | Some t => tbl_metrics t
  | None => []
  end.

End AdhocTableExploreService.

(** A source of randomness for the examples: the n-th draw is a version 4
    uuid whose first group counts up from [a0000000]. *)
Definition demoDraw (n : nat) : jsstring :=
  js "a000000" ++ js (NilZero.string_of_uint (Nat.to_uint (n mod 10)))
     ++ js "-0000-4000-8000-000000000000".
Definition demoSupply : UuidSupply := mkSupply demoDraw 0.


(* ================================================================== *)
(** ** The metadata store, the warehouse and the world *)
(* ================================================================== *)

(** [AdhocTableType]: ['csv'] and ['xlsx'] *)
Inductive AdhocTableType : Type := CSV | EXCEL.

(** [AdhocTableScope]: the enum and the strings it stands for *)
Inductive AdhocTableScope : Type := PERSONAL | SHARED.

Definition scopeValue (s : AdhocTableScope) : jsstring :=
  match s with PERSONAL => js "personal" | SHARED => js "shared" end.

Inductive AdhocTableRetention : Type := TEMPORARY | PERMANENT.

Definition retentionValue (r : AdhocTableRetention) : jsstring :=
  match r with TEMPORARY => js "temporary" | PERMANENT => js "permanent" end.

Record AdhocTableCreateRequest : Type := mkRequest {
  req_file : Buffer;
  req_fileName : jsstring;
  req_fileType : AdhocTableType;
  req_tableName : jsstring;
  req_description : option jsstring;
  req_scope : AdhocTableScope;
  req_retention : AdhocTableRetention;
  req_retentionDays : option Z
}.

(** The [metadata] object; [JSON.stringify] on the way in and [JSON.parse]
    on the way out keep its fields. *)
Record Metadata : Type := mkMetadata {
  md_fileName : jsstring;
  md_fileSize : nat;
  md_fileType : AdhocTableType;
  md_uploadedAt : Z;
  md_columnCount : nat;
  md_rowCount : nat
}.

(** A row of [adhoc_tables] (migration 201125_create_adhoc_tables) *)
Record AdhocTableRow : Type := mkAdhocRow {
  at_uuid : jsstring;
  at_project_uuid : jsstring;
  at_organization_uuid : jsstring;
  at_name : jsstring;
  at_description : option jsstring;
  at_warehouse_table_name : jsstring;
  at_warehouse_type : jsstring;
  at_scope : jsstring;
  at_retention : jsstring;
  at_retention_days : option Z;
  at_created_by : jsstring;
  at_created_at : Z;
  at_updated_at : Z;
  at_deleted_at : option Z;
  at_metadata : Metadata
}.

(** [AdhocTableRecord], what [formatRecord] returns *)
Record AdhocTableRecord : Type := mkRecord {
  rec_uuid : jsstring;
  rec_projectUuid : jsstring;
  rec_organizationUuid : jsstring;
  rec_name : jsstring;
  rec_description : option jsstring;
  rec_warehouseTableName : jsstring;
  rec_warehouseType : jsstring;
  rec_scope : jsstring;
  rec_retention : jsstring;
  rec_retentionDays : option Z;
  rec_createdBy : jsstring;
  rec_createdAt : Z;
  rec_updatedAt : Z;
  rec_deletedAt : option Z;
  rec_metadata : Metadata
}.

Record AdhocTableListResponse : Type := mkListResponse {
  lr_uuid : jsstring;
  lr_name : jsstring;
  lr_description : option jsstring;
  lr_scope : jsstring;
  lr_retention : jsstring;
  lr_createdBy : jsstring;
  lr_createdAt : Z;
  lr_metadata : Metadata
}.

Record Project : Type := mkProject {
  pr_projectUuid : jsstring;
  pr_organizationUuid : jsstring;
  pr_credentialsType : jsstring
}.

Record Membership : Type := mkMembership {
  pm_project_uuid : jsstring;
  pm_user_uuid : jsstring
}.

(** A row of [adhoc_table_access] as [grantTableAccess] writes it *)
Record AccessRow : Type := mkAccessRow {
  ac_adhoc_table_uuid : jsstring;
  ac_user_uuid : jsstring;
  ac_granted_by : jsstring;
  ac_granted_at : Z
}.

Record CachedExploreRow : Type := mkCachedExplore {
  ce_cached_explore_uuid : jsstring;
  ce_project_uuid : jsstring;
  ce_name : jsstring;
  ce_table_names : list jsstring;
  ce_explore : Explore
}.

(** [CatalogType] *)
Inductive CatalogType : Type := CatalogTable | CatalogField.

Record CatalogRow : Type := mkCatalogRow {
  cs_project_uuid : jsstring;
  cs_cached_explore_uuid : jsstring;
  cs_name : jsstring;
  cs_type : CatalogType;
  cs_table_name : jsstring;
  cs_description : jsstring;
  cs_icon : option jsstring
}.

(** A physical table of the warehouse *)
Record WarehouseTable : Type := mkWarehouseTable {
  wt_name : jsstring;
  wt_columns : list ColumnInference;
  wt_rows : list Row
}.

(** The calls that may fail from outside: the warehouse, and the statements
    on [cached_explore] and [catalog_search]. *)
Inductive FaultPoint : Type :=
| WarehouseCreate
| ExploreUpsert
| ExploreSelect
| CatalogUpsert
| CatalogDelete.

Record World : Type := mkWorld {
  projects : list Project;
  project_memberships : list Membership;
  adhoc_tables : list AdhocTableRow;
  adhoc_table_access : list AccessRow;
  cached_explore : list CachedExploreRow;
  catalog_search : list CatalogRow;
  warehouse : list WarehouseTable;
  (** the tables [createTableFromData] was called for, latest first *)
  warehouse_calls : list jsstring;
  (** [now()] and [Date.now()], in milliseconds *)
  clock : Z;
  supply : UuidSupply;
  (** whether the n-th fallible call fails, by the kind of the call *)
  faults : FaultPoint -> nat -> bool;
  ticks : nat;
  (** [console.error] and the loggers, latest first *)
  console : list jsstring
}.

Definition with_adhoc_tables (w : World) (x : list AdhocTableRow) : World :=
  mkWorld (projects w) (project_memberships w) x (adhoc_table_access w)
    (cached_explore w) (catalog_search w) (warehouse w) (warehouse_calls w)
    (clock w) (supply w) (faults w) (ticks w) (console w).

Definition with_adhoc_table_access (w : World) (x : list AccessRow) : World :=
  mkWorld (projects w) (project_memberships w) (adhoc_tables w) x
    (cached_explore w) (catalog_search w) (warehouse w) (warehouse_calls w)
    (clock w) (supply w) (faults w) (ticks w) (console w).

Definition with_cached_explore (w : World) (x : list CachedExploreRow)
  : World :=
  mkWorld (projects w) (project_memberships w) (adhoc_tables w)
    (adhoc_table_access w) x (catalog_search w) (warehouse w)
    (warehouse_calls w) (clock w) (supply w) (faults w) (ticks w) (console w).

Definition with_catalog_search (w : World) (x : list CatalogRow) : World :=
  mkWorld (projects w) (project_memberships w) (adhoc_tables w)
    (adhoc_table_access w) (cached_explore w) x (warehouse w)
    (warehouse_calls w) (clock w) (supply w) (faults w) (ticks w) (console w).

Definition with_warehouse (w : World) (x : list WarehouseTable)
    (calls : list jsstring) : World :=
  mkWorld (projects w) (project_memberships w) (adhoc_tables w)
    (adhoc_table_access w) (cached_explore w) (catalog_search w) x calls
    (clock w) (supply w) (faults w) (ticks w) (console w).

Definition with_supply (w : World) (x : UuidSupply) : World :=
  mkWorld (projects w) (project_memberships w) (adhoc_tables w)
    (adhoc_table_access w) (cached_explore w) (catalog_search w) (warehouse w)
    (warehouse_calls w) (clock w) x (faults w) (ticks w) (console w).

Definition with_ticks (w : World) (x : nat) : World :=
  mkWorld (projects w) (project_memberships w) (adhoc_tables w)
    (adhoc_table_access w) (cached_explore w) (catalog_search w) (warehouse w)
    (warehouse_calls w) (clock w) (supply w) (faults w) x (console w).

Definition with_console (w : World) (x : list jsstring) : World :=
  mkWorld (projects w) (project_memberships w) (adhoc_tables w)
    (adhoc_table_access w) (cached_explore w) (catalog_search w) (warehouse w)
    (warehouse_calls w) (clock w) (supply w) (faults w) (ticks w) x.

(* ================================================================== *)
(** ** Methods: state and exceptions *)
(* ================================================================== *)

Definition M (A : Type) : Type := World -> Outcome A * World.

Definition ret {A} (a : A) : M A := fun w => (Ok a, w).

Definition bind {A B} (m : M A) (f : A -> M B) : M B :=
  fun w =>
    match m w with
    | (Ok a, w') => f a w'
    | (Throw e, w') => (Throw e, w')
    end.

Definition throw {A} (e : JsError) : M A := fun w => (Throw e, w).

(** [try { m } catch (e) { handler e }] *)
Definition tryCatch {A} (m : M A) (handler : JsError -> M A) : M A :=
  fun w =>
    match m w with
    | (Ok a, w') => (Ok a, w')
    | (Throw e, w') => handler e w'
    end.

(** A pure computation that may throw, run as a method. *)
Definition liftOutcome {A} (o : Outcome A) : M A := fun w => (o, w).

Definition liftGen {A} (g : Gen A) : M A :=
  fun w => let (a, s) := g (supply w) in (Ok a, with_supply w s).

Declare Scope method_scope.
Delimit Scope method_scope with method.
Notation "x <- m ;; k" := (bind m (fun x => k))
  (at level 61, m at next level, right associativity) : method_scope.
Notation "m ;;; k" := (bind m (fun _ => k))
  (at level 61, right associativity) : method_scope.
Local Open Scope method_scope.

Definition readWorld {A} (f : World -> A) : M A := fun w => (Ok (f w), w).

(** A call that may fail from outside: it fails when the world says that
    this call, counted among all fallible calls, does. *)
Definition fallible (p : FaultPoint) (what : jsstring) : M unit :=
  fun w =>
    let w' := with_ticks w (S (ticks w)) in
    if faults w p (ticks w) then (Throw (Error what), w') else (Ok tt, w').

Definition logLine (line : jsstring) : M unit :=
  fun w => (Ok tt, with_console w (line :: console w)).

(** [gen_random_uuid()] *)
Definition gen_random_uuid : M jsstring := liftGen uuidv4.

(** [now()] and [Date.now()] *)
Definition now : M Z := readWorld clock.

Definition isNull {A} (o : option A) : bool :=
  match o with None => true | Some _ => false end.

Fixpoint forEach {A} (f : A -> M unit) (l : list A) : M unit :=
  match l with
  | [] => ret tt
  | x :: rest => f x ;;; forEach f rest
  end.

(* ================================================================== *)
(** ** AdhocTablePermissionService *)
(* ================================================================== *)

Module AdhocTablePermissionService.

Definition userCanAccessProject (projectUuid userUuid : jsstring) : M bool :=
  membership <- readWorld (fun w =>
    find (fun m => Js.eqb (pm_project_uuid m) projectUuid
                   && Js.eqb (pm_user_uuid m) userUuid)
         (project_memberships w)) ;;
  ret (negb (isNull membership)).

(** The row of a table that is not deleted:
    [.where('uuid', tableUuid).whereNull('deleted_at').first()] *)
Definition liveTable (tableUuid : jsstring) : M (option AdhocTableRow) :=
  readWorld (fun w =>
    find (fun r => Js.eqb (at_uuid r) tableUuid && isNull (at_deleted_at r))
         (adhoc_tables w)).

Definition userCanAccessTable (tableUuid userUuid : jsstring) : M bool :=
  table <- liveTable tableUuid ;;
  match table with
  | None => ret false
  | Some table =>
      (* Owner always has access *)
      if Js.eqb (at_created_by table) userUuid then ret true
      (* Check if user is project member for shared tables *)
      else if Js.eqb (at_scope table) (js "SHARED")
      then userCanAccessProject (at_project_uuid table) userUuid
      (* Personal table - only owner *)
      else ret false
  end.


Definition userCanDeleteTable (tableUuid userUuid : jsstring) : M bool :=
  table <- liveTable tableUuid ;;
  match table with
  | None => ret false
  | Some table => ret (Js.eqb (at_created_by table) userUuid)
  end.

Definition userCanShareTable (tableUuid userUuid : jsstring) : M bool :=
  userCanDeleteTable tableUuid userUuid.


(** [.insert(row).onConflict(['adhoc_table_uuid', 'user_uuid']).merge()] *)
Fixpoint upsertAccess (rows : list AccessRow) (row : AccessRow)
  : list AccessRow :=
  match rows with
  | [] => [row]
  | r :: rest =>
      if Js.eqb (ac_adhoc_table_uuid r) (ac_adhoc_table_uuid row)
         && Js.eqb (ac_user_uuid r) (ac_user_uuid row)
      then row :: rest
      else r :: upsertAccess rest row
  end.

Definition grantTableAccess (tableUuid userUuid grantedByUserUuid : jsstring)
  : M unit :=
  (* Verify granter has permission to share *)
  canShare <- userCanShareTable tableUuid grantedByUserUuid ;;
  if negb canShare
  then throw (ForbiddenError
                (js "You do not have permission to share this table"))
  else
    (* Insert access record *)
    granted_at <- now ;;
    (fun w => (Ok tt, with_adhoc_table_access w
       (upsertAccess (adhoc_table_access w)
          {| ac_adhoc_table_uuid := tableUuid;
             ac_user_uuid := userUuid;
             ac_granted_by := grantedByUserUuid;
             ac_granted_at := granted_at |}))) ;;;
    logLine (js "Granted access to table " ++ tableUuid ++ js " for user "
               ++ userUuid).

Definition revokeTableAccess (tableUuid userUuid revokedByUserUuid : jsstring)
  : M unit :=
  canShare <- userCanShareTable tableUuid revokedByUserUuid ;;
  if negb canShare
  then throw (ForbiddenError
    (js "You do not have permission to modify sharing for this table"))
  else
    (fun w => (Ok tt, with_adhoc_table_access w
       (filter (fun r => negb (Js.eqb (ac_adhoc_table_uuid r) tableUuid
                               && Js.eqb (ac_user_uuid r) userUuid))
               (adhoc_table_access w)))) ;;;
    logLine (js "Revoked access to table " ++ tableUuid ++ js " for user "
               ++ userUuid).

End AdhocTablePermissionService.

(* ================================================================== *)
(** ** AdhocTableCatalogService *)
(* ================================================================== *)

Module AdhocTableCatalogService.

(** [.where('project_uuid', p).where('name', n).first()] on
    [cached_explore] *)
Definition findCachedExplore (projectUuid name : jsstring)
  : M (option CachedExploreRow) :=
  fallible ExploreSelect (js "select from cached_explore failed") ;;;
  readWorld (fun w =>
    find (fun ce => Js.eqb (ce_project_uuid ce) projectUuid
                    && Js.eqb (ce_name ce) name)
         (cached_explore w)).

Definition catalogTypeEqb (a b : CatalogType) : bool :=
  match a, b with
  | CatalogTable, CatalogTable | CatalogField, CatalogField => true
  | _, _ => false
  end.

Definition sameCatalogKey (a b : CatalogRow) : bool :=
  Js.eqb (cs_project_uuid a) (cs_project_uuid b)
  && Js.eqb (cs_name a) (cs_name b)
  && Js.eqb (cs_cached_explore_uuid a) (cs_cached_explore_uuid b)
  && catalogTypeEqb (cs_type a) (cs_type b).

Fixpoint upsertRow (rows : list CatalogRow) (row : CatalogRow)
  : list CatalogRow :=
  match rows with
  | [] => [row]
  | r :: rest =>
      if sameCatalogKey r row then row :: rest else r :: upsertRow rest row
  end.

(** [.insert(entry).onConflict(['project_uuid', 'name',
    'cached_explore_uuid', 'type']).merge()] on [catalog_search] *)
Definition upsertCatalog (entry : CatalogRow) : M unit :=
  fallible CatalogUpsert (js "insert into catalog_search failed") ;;;
  (fun w => (Ok tt, with_catalog_search w (upsertRow (catalog_search w) entry))).

(** [a || b] on an optional string *)
Definition orElse (a : option jsstring) (b : jsstring) : jsstring :=
  match a with
  | Some s => if isEmpty s then b else s
  | None => b
  end.

Definition registerInCatalog (projectUuid adhocTableUuid tableName : jsstring)
    (explore : Explore) (baseTableName : option jsstring) : M unit :=
  tryCatch
    ((* Find the cached_explore_uuid for this adhoc table *)
     cachedExplore <- findCachedExplore projectUuid adhocTableUuid ;;
     match cachedExplore with
     | None =>
         logLine (js "Cached explore not found for adhoc table "
                    ++ adhocTableUuid)
     | Some cachedExplore =>
         let cachedExploreUuid := ce_cached_explore_uuid cachedExplore in
         match objGet (ex_tables explore) (ex_baseTable explore) with
         | None =>
             logLine (js "Base table not found in explore for "
                        ++ adhocTableUuid)
         | Some baseTable =>
             (* Register the table itself in catalog_search *)
             upsertCatalog
               {| cs_project_uuid := projectUuid;
                  cs_cached_explore_uuid := cachedExploreUuid;
                  cs_name := orElse baseTableName tableName;
                  cs_type := CatalogTable;
                  cs_table_name := orElse baseTableName tableName;
                  cs_description := js "Uploaded table: " ++ tableName;
                  cs_icon := Some (js "upload") |} ;;;
             (* Register dimensions for full-text search *)
             forEach upsertCatalog
               (map (fun dim =>
                  {| cs_project_uuid := projectUuid;
                     cs_cached_explore_uuid := cachedExploreUuid;
                     cs_name := dim_name dim;
                     cs_type := CatalogField;
                     cs_table_name := orElse baseTableName tableName;
                     cs_description :=
                       orElse (Some (dim_label dim)) (dim_name dim);
                     cs_icon := None |})
                  (objValues (tbl_dimensions baseTable))) ;;;
             (* Register metrics *)
             forEach upsertCatalog
               (map (fun metric =>
                  {| cs_project_uuid := projectUuid;
                     cs_cached_explore_uuid := cachedExploreUuid;
                     cs_name := met_name metric;
                     cs_type := CatalogField;
                     cs_table_name := orElse baseTableName tableName;
                     cs_description :=
                       orElse (Some (met_label metric)) (met_name metric);
                     cs_icon := None |})
                  (objValues (tbl_metrics baseTable))) ;;;
             logLine (js "Registered adhoc table " ++ adhocTableUuid
                        ++ js " in catalog")
         end
     end)
    (fun error =>
       logLine (js "Failed to register adhoc table " ++ adhocTableUuid
                  ++ js " in catalog: " ++ errorMessage error) ;;;
       throw error).

Definition removeFromCatalog (projectUuid adhocTableUuid : jsstring)
  : M unit :=
  tryCatch
    ((* Find and delete all catalog entries for this adhoc table *)
     cachedExplore <- findCachedExplore projectUuid adhocTableUuid ;;
     match cachedExplore with
     | Some cachedExplore =>
         fallible CatalogDelete (js "delete from catalog_search failed") ;;;
         (fun w => (Ok tt, with_catalog_search w
            (filter (fun e =>
               negb (Js.eqb (cs_project_uuid e) projectUuid
                     && Js.eqb (cs_cached_explore_uuid e)
                          (ce_cached_explore_uuid cachedExplore)))
               (catalog_search w)))) ;;;
         logLine (js "Removed adhoc table " ++ adhocTableUuid
                    ++ js " from catalog")
     | None => ret tt
     end)
    (fun error =>
       (* Don't throw - removal errors shouldn't break table deletion *)
       logLine (js "Failed to remove adhoc table " ++ adhocTableUuid
                  ++ js " from catalog: " ++ errorMessage error)).

End AdhocTableCatalogService.

(* ================================================================== *)
(** ** Warehouse clients *)
(* ================================================================== *)

(** What [warehouseClientFromCredentials] hands back: a client that carries
    [createTableFromData] of one of the helpers, or one that does not. *)
Inductive WarehouseClient : Type :=
| AdhocCapable (helper : jsstring)
| NotCapable.

(** [createTableFromData] as the helpers share it: empty data is refused
    before the warehouse is touched, a failure of the warehouse is thrown
    again under the helper's name. *)
Definition createTableFromData (helper tableName : jsstring)
    (rows : list Row) (columns : list ColumnInference) : M unit :=
  (fun w => (Ok tt, with_warehouse w (warehouse w)
                      (tableName :: warehouse_calls w))) ;;;
  if Nat.eqb (length rows) 0
  then throw (Error (js "Cannot create table from empty data"))
  else
    tryCatch
      (fallible WarehouseCreate (js "warehouse statement failed") ;;;
       (fun w => (Ok tt, with_warehouse w
                    (mkWarehouseTable tableName columns rows :: warehouse w)
                    (warehouse_calls w))))
      (fun error =>
         throw (Error (js "Failed to create " ++ helper ++ js " table "
                         ++ tableName ++ js ": " ++ errorMessage error))).

(* ================================================================== *)
(** ** AdhocTableService *)
(* ================================================================== *)

(** [n.toString(36)] for an integer *)
Definition digit36 (d : N) : ascii :=
  if (d <? 10)%N then ascii_of_N (48 + d) else ascii_of_N (87 + d).

Fixpoint toString36_digits (fuel : nat) (n : N) (acc : jsstring) : jsstring :=
  match fuel with
  | O => acc
  | S fuel' =>
      let acc' := digit36 (n mod 36) :: acc in
      if (n / 36 =? 0)%N then acc' else toString36_digits fuel' (n / 36) acc'
  end.

Definition toString36 (z : Z) : jsstring :=
  let digits n := toString36_digits (S (N.to_nat (N.log2 n))) n [] in
  if (z <? 0)%Z then "-"%char :: digits (Z.to_N (- z)) else digits (Z.to_N z).

Record ListOptions : Type := mkListOptions {
  opt_scope : option AdhocTableScope;
  opt_includeDeleted : option bool
}.

Module AdhocTableService.

Import FileParserService.

Definition formatRecord (record : AdhocTableRow) : AdhocTableRecord :=
  {| rec_uuid := at_uuid record;
     rec_projectUuid := at_project_uuid record;
     rec_organizationUuid := at_organization_uuid record;
     rec_name := at_name record;
     rec_description := at_description record;
     rec_warehouseTableName := at_warehouse_table_name record;
     rec_warehouseType := at_warehouse_type record;
     rec_scope := at_scope record;
     rec_retention := at_retention record;
     rec_retentionDays := at_retention_days record;
     rec_createdBy := at_created_by record;
     rec_createdAt := at_created_at record;
     rec_updatedAt := at_updated_at record;
     rec_deletedAt := at_deleted_at record;
     rec_metadata := at_metadata record |}.

(** Modelled from the spec: [ProjectModel.getProject] is not among the
    sources.  The project directory is an external collaborator (section 1
    of the specification); it is read here as a lookup by uuid that finds
    nothing for an unknown project. *)
Definition getProject (projectUuid : jsstring) : M (option Project) :=
  readWorld (fun w =>
    find (fun p => Js.eqb (pr_projectUuid p) projectUuid) (projects w)).

(** Modelled from the spec: [ProjectModel.getWarehouseCredentialsForProject]
    is not among the sources.  The credentials are externally supplied
    (section 6 of the specification); the service reads their type only, so
    the credentials are held as that type. *)
Definition getWarehouseCredentialsForProject (projectUuid : jsstring)
  : M jsstring :=
  project <- getProject projectUuid ;;
  match project with
  | Some p => ret (pr_credentialsType p)
  | None => throw (NotFoundError
                     (js "Project " ++ projectUuid ++ js " not found"))
  end.

Definition generateWarehouseTableName (tableName userUuid : jsstring)
  : M jsstring :=
  let sanitized :=
    substring0 50
      (replaceAllChars (fun c => negb (isLowerWordChar c)) underscore
         (toLowerCase tableName)) in
  let userPrefix :=
    substring0 8 (takeWhile (fun c => negb (Ascii.eqb c "-"%char)) userUuid) in
  t <- now ;;
  let timestamp := toString36 t in
  ret (js "adhoc_" ++ sanitized ++ js "_" ++ userPrefix ++ js "_"
         ++ timestamp).

Definition createWarehouseTable (warehouse : WarehouseClient)
    (tableName : jsstring) (rows : list Row)
    (columns : list ColumnInference) : M unit :=
  match warehouse with
  | NotCapable =>
      throw (Error (js "Warehouse type does not support adhoc table creation"))
  | AdhocCapable helper => createTableFromData helper tableName rows columns
  end.

(** ['string' | 'number' | 'date' | 'boolean'] as the strings they are *)
Definition typeName (t : ColumnType) : jsstring :=
  match t with
  | TString => js "string"
  | TNumber => js "number"
  | TDate => js "date"
  | TBoolean => js "boolean"
  end.

(** The insert into [cached_explore] with
    [.onConflict(['project_uuid', 'name']).merge()
     .returning('cached_explore_uuid')]: a row with the key keeps its
    uuid, a new row draws one. *)
Fixpoint mergeExplore (rows : list CachedExploreRow)
    (projectUuid name : jsstring) (explore : Explore)
  : option (list CachedExploreRow * jsstring) :=
  match rows with
  | [] => None
  | r :: rest =>
      if Js.eqb (ce_project_uuid r) projectUuid && Js.eqb (ce_name r) name
      then Some (mkCachedExplore (ce_cached_explore_uuid r) projectUuid name
                   [name] explore :: rest,
                 ce_cached_explore_uuid r)
      else match mergeExplore rest projectUuid name explore with
           | Some (rest', u) => Some (r :: rest', u)
           | None => None
           end
  end.

Definition upsertExplore (projectUuid name : jsstring) (explore : Explore)
  : M jsstring :=
  fallible ExploreUpsert (js "insert into cached_explore failed") ;;;
  merged <- readWorld (fun w =>
    mergeExplore (cached_explore w) projectUuid name explore) ;;
  match merged with
  | Some (rows, u) =>
      (fun w => (Ok u, with_cached_explore w rows))
  | None =>
      u <- gen_random_uuid ;;
      (fun w => (Ok u, with_cached_explore w
         (cached_explore w
            ++ [mkCachedExplore u projectUuid name [name] explore])))
  end.

Definition registerExplore (projectUuid adhocTableUuid
    warehouseTableName : jsstring) (columns : list ColumnInference)
    (warehouseType : jsstring) : M jsstring :=
  (* Map columns to ColumnDefinition format *)
  let columnDefs :=
    map (fun col => {| cd_name := ci_name col;
                       cd_type := typeName (ci_type col);
                       cd_nullable := true |}) columns in
  explore <- liftGen (AdhocTableExploreService.generateExplore
                        adhocTableUuid warehouseTableName columnDefs
                        warehouseType) ;;
  (* Insert into cached_explore table *)
  upsertExplore projectUuid adhocTableUuid explore.

(** The insert into [adhoc_tables]; [uuid] is the primary key. *)
Definition insertAdhocTable (row : AdhocTableRow) : M AdhocTableRow :=
  fun w =>
    if existsb (fun r => Js.eqb (at_uuid r) (at_uuid row)) (adhoc_tables w)
    then (Throw (Error (js "duplicate key value violates unique constraint")),
          w)
    else (Ok row, with_adhoc_tables w (adhoc_tables w ++ [row])).

(** [.select('explore').where('cached_explore_uuid', u).first()] *)
Definition selectExplore (exploreUuid : jsstring)
  : M (option CachedExploreRow) :=
  fallible ExploreSelect (js "select from cached_explore failed") ;;;
  readWorld (fun w =>
    find (fun ce => Js.eqb (ce_cached_explore_uuid ce) exploreUuid)
         (cached_explore w)).

Section Libraries.
Variable papaParse : jsstring -> PapaOutcome.
Variable xlsxRead : Buffer -> XlsxOutcome.
(** [warehouseClientFromCredentials], by the type of the credentials *)
Variable warehouseClientFromCredentials : jsstring -> WarehouseClient.

Definition createFromFile (projectUuid userUuid : jsstring)
    (request : AdhocTableCreateRequest) : M AdhocTableRecord :=
  (* Verify project exists *)
  project <- getProject projectUuid ;;
  match project with
  | None => throw (NotFoundError
                     (js "Project " ++ projectUuid ++ js " not found"))
  | Some project =>
  (* Parse file *)
  parseResult <- liftOutcome
    (match req_fileType request with
     | CSV => parseCSV papaParse (req_file request)
     | EXCEL => parseExcel xlsxRead (req_file request)
     end) ;;
  if Nat.eqb (length (parsed_rows parseResult)) 0
  then throw (Error (js "Uploaded file is empty"))
  else
  (* Generate warehouse table name *)
  warehouseTableName <-
    generateWarehouseTableName (req_tableName request) userUuid ;;
  (* Get warehouse credentials and create client *)
  credentials <- getWarehouseCredentialsForProject projectUuid ;;
  let warehouseClient := warehouseClientFromCredentials credentials in
  (* Create table in warehouse *)
  createWarehouseTable warehouseClient warehouseTableName
    (parsed_rows parseResult) (parsed_columns parseResult) ;;;
  (* Store adhoc table metadata in database *)
  uuid <- gen_random_uuid ;;
  t <- now ;;
  record <- insertAdhocTable
    {| at_uuid := uuid;
       at_project_uuid := projectUuid;
       at_organization_uuid := pr_organizationUuid project;
       at_name := req_tableName request;
       at_description := req_description request;
       at_warehouse_table_name := warehouseTableName;
       at_warehouse_type := credentials;
       at_scope := scopeValue (req_scope request);
       at_retention := retentionValue (req_retention request);
       at_retention_days := req_retentionDays request;
       at_created_by := userUuid;
       at_created_at := t;
       at_updated_at := t;
       at_deleted_at := None;
       at_metadata :=
         {| md_fileName :=
              substring0 255 (bufferToString (req_file request));
            md_fileSize := bufferLength (req_file request);
            md_fileType := req_fileType request;
            md_uploadedAt := t;
            md_columnCount := length (parsed_columns parseResult);
            md_rowCount := length (parsed_rows parseResult) |} |} ;;
  (* Register explore for the uploaded table *)
  tryCatch
    (exploreUuid <- registerExplore projectUuid (at_uuid record)
                      warehouseTableName (parsed_columns parseResult)
                      credentials ;;
     (* Register table in catalog search for discovery *)
     tryCatch
       (explore <- selectExplore exploreUuid ;;
        match explore with
        | Some explore =>
            AdhocTableCatalogService.registerInCatalog projectUuid
              (at_uuid record) (req_tableName request)
              (ce_explore explore) (Some warehouseTableName)
        | None => ret tt
        end)
       (fun catalogError =>
          (* Log but don't fail - catalog registration is non-critical *)
          logLine (js "Failed to register adhoc table in catalog: "
                     ++ errorMessage catalogError)))
    (fun error =>
       (* Log error but don't fail - table is created *)
       logLine (js "Failed to register explore for adhoc table: "
                  ++ errorMessage error)) ;;;
  ret (formatRecord record)
  end.
End Libraries.

(** [.orderBy('created_at', 'desc')] *)
Fixpoint insertByCreatedAt (r : AdhocTableRow) (l : list AdhocTableRow)
  : list AdhocTableRow :=
  match l with
  | [] => [r]
  | x :: rest =>
      if (at_created_at x <=? at_created_at r)%Z then r :: l
      else x :: insertByCreatedAt r rest
  end.

Definition orderByCreatedAtDesc (l : list AdhocTableRow)
  : list AdhocTableRow :=
  fold_right insertByCreatedAt [] l.

Definition scopeIs (options : option ListOptions) (s : AdhocTableScope)
  : bool :=
  match options with
  | Some o => match opt_scope o, s with
              | Some PERSONAL, PERSONAL | Some SHARED, SHARED => true
              | _, _ => false
              end
  | None => false
  end.

(** [!options?.includeDeleted] *)
Definition notIncludeDeleted (options : option ListOptions) : bool :=
  match options with
  | Some o => match opt_includeDeleted o with
              | Some true => false
              | _ => true
              end
  | None => true
  end.

(** The query that [listByProject] builds, as a predicate on the rows. *)
Definition listQuery (projectUuid userUuid : jsstring)
    (options : option ListOptions) (r : AdhocTableRow) : bool :=
  Js.eqb (at_project_uuid r) projectUuid
  && isNull (at_deleted_at r)
  && (if notIncludeDeleted options then isNull (at_deleted_at r) else true)
  && (if scopeIs options PERSONAL
      then Js.eqb (at_created_by r) userUuid
      else if scopeIs options SHARED
      then Js.eqb (at_scope r) (scopeValue SHARED)
      else (* Default: show personal and shared tables *)
        Js.eqb (at_created_by r) userUuid
        || Js.eqb (at_scope r) (scopeValue SHARED)).

Definition listByProject (projectUuid userUuid : jsstring)
    (options : option ListOptions) : M (list AdhocTableListResponse) :=
  (* Verify user is project member *)
  canAccess <- AdhocTablePermissionService.userCanAccessProject
                 projectUuid userUuid ;;
  if negb canAccess
  then throw (ForbiddenError (js "You do not have access to this project"))
  else
    records <- readWorld (fun w =>
      orderByCreatedAtDesc
        (filter (listQuery projectUuid userUuid options) (adhoc_tables w))) ;;
    ret (map (fun record =>
           {| lr_uuid := at_uuid record;
              lr_name := at_name record;
              lr_description := at_description record;
              lr_scope := at_scope record;
              lr_retention := at_retention record;
              lr_createdBy := at_created_by record;
              lr_createdAt := at_created_at record;
              lr_metadata := at_metadata record |}) records).

Definition getTable (tableUuid : jsstring) : M (option AdhocTableRecord) :=
  record <- readWorld (fun w =>
    find (fun r => Js.eqb (at_uuid r) tableUuid && isNull (at_deleted_at r))
         (adhoc_tables w)) ;;
  ret (option_map formatRecord record).

(** [.where('uuid', tableUuid).update({deleted_at: now(),
    updated_at: now()})] on one row *)
Definition softDelete (tableUuid : jsstring) (t : Z) (r : AdhocTableRow)
  : AdhocTableRow :=
  if Js.eqb (at_uuid r) tableUuid
  then mkAdhocRow (at_uuid r) (at_project_uuid r) (at_organization_uuid r)
         (at_name r) (at_description r) (at_warehouse_table_name r)
         (at_warehouse_type r) (at_scope r) (at_retention r)
         (at_retention_days r) (at_created_by r) (at_created_at r)
         t (Some t) (at_metadata r)
  else r.

Definition deleteTable (tableUuid userUuid : jsstring) : M unit :=
  table <- getTable tableUuid ;;
  match table with
  | None => throw (NotFoundError
                     (js "Table " ++ tableUuid ++ js " not found"))
  | Some table =>
      (* Verify permission to delete *)
      canDelete <- AdhocTablePermissionService.userCanDeleteTable
                     tableUuid userUuid ;;
      if negb canDelete
      then throw (ForbiddenError
                    (js "Only table owner can delete this table"))
      else
        (* Soft delete *)
        t <- now ;;
        (fun w => (Ok tt, with_adhoc_tables w
                     (map (softDelete tableUuid t) (adhoc_tables w)))) ;;;
        (* Remove from catalog *)
        tryCatch
          (AdhocTableCatalogService.removeFromCatalog
             (rec_projectUuid table) tableUuid)
          (fun error =>
             (* Log but don't fail - deletion succeeded *)
             logLine (js "Failed to remove adhoc table from catalog: "
                        ++ errorMessage error))
  end.

End AdhocTableService.

(* ================================================================== *)
(** ** AdhocTableService, as index.ts has it *)
(* ================================================================== *)

(** The service before the Explore and the catalog were wired in: it looks
    the user up as well, obtains the client from the project's warehouse
    connection and stops after the insert. *)
Module AdhocTableServiceIndex.

Import FileParserService.

Section Libraries.
Variable papaParse : jsstring -> PapaOutcome.
Variable xlsxRead : Buffer -> XlsxOutcome.
(** [userModel.getUserByUuid] finds the user *)
Variable userExists : jsstring -> bool.
(** [getWarehouseClient], by the type of the warehouse connection *)
Variable getWarehouseClient : jsstring -> WarehouseClient.

Definition createFromFile (projectUuid userUuid : jsstring)
    (request : AdhocTableCreateRequest) : M AdhocTableRecord :=
  (* Verify user has access to project *)
  project <- AdhocTableService.getProject projectUuid ;;
  match project with
  | None => throw (NotFoundError
                     (js "Project " ++ projectUuid ++ js " not found"))
  | Some project =>
  if negb (userExists userUuid)
  then throw (NotFoundError (js "User " ++ userUuid ++ js " not found"))
  else
  (* Parse file *)
  parseResult <- liftOutcome
    (match req_fileType request with
     | CSV => parseCSV papaParse (req_file request)
     | EXCEL => parseExcel xlsxRead (req_file request)
     end) ;;
  if Nat.eqb (length (parsed_rows parseResult)) 0
  then throw (Error (js "Uploaded file is empty"))
  else
  (* Generate warehouse table name *)
  warehouseTableName <-
    AdhocTableService.generateWarehouseTableName (req_tableName request)
      userUuid ;;
  (* Get warehouse client and create table *)
  let warehouse := getWarehouseClient (pr_credentialsType project) in
  AdhocTableService.createWarehouseTable warehouse warehouseTableName
    (parsed_rows parseResult) (parsed_columns parseResult) ;;;
  (* Store adhoc table metadata in database *)
  uuid <- gen_random_uuid ;;
  t <- now ;;
  record <- AdhocTableService.insertAdhocTable
    {| at_uuid := uuid;
       at_project_uuid := projectUuid;
       at_organization_uuid := pr_organizationUuid project;
       at_name := req_tableName request;
       at_description := req_description request;
       at_warehouse_table_name := warehouseTableName;
       at_warehouse_type := pr_credentialsType project;
       at_scope := scopeValue (req_scope request);
       at_retention := retentionValue (req_retention request);
       at_retention_days := req_retentionDays request;
       at_created_by := userUuid;
       at_created_at := t;
       at_updated_at := t;
       at_deleted_at := None;
       at_metadata :=
         {| md_fileName := substring0 255 (bufferToString (req_file request));
            md_fileSize := bufferLength (req_file request);
            md_fileType := req_fileType request;
            md_uploadedAt := t;
            md_columnCount := length (parsed_columns parseResult);
            md_rowCount := length (parsed_rows parseResult) |} |} ;;
  ret (AdhocTableService.formatRecord record)
  end.
End Libraries.

(** The query that [listByProject] of index.ts builds, as a predicate on
    the rows: without a scope option nothing narrows the project's rows. *)
Definition listQuery (projectUuid userUuid : jsstring)
    (options : option ListOptions) (r : AdhocTableRow) : bool :=
  Js.eqb (at_project_uuid r) projectUuid
  && isNull (at_deleted_at r)
  && (if AdhocTableService.notIncludeDeleted options
      then isNull (at_deleted_at r) else true)
  && (if AdhocTableService.scopeIs options PERSONAL
      then Js.eqb (at_created_by r) userUuid
      else if AdhocTableService.scopeIs options SHARED
      then Js.eqb (at_scope r) (scopeValue SHARED)
      else true).

Definition listByProject (projectUuid userUuid : jsstring)
    (options : option ListOptions) : M (list AdhocTableListResponse) :=
  records <- readWorld (fun w =>
    AdhocTableService.orderByCreatedAtDesc
      (filter (listQuery projectUuid userUuid options) (adhoc_tables w))) ;;
  ret (map (fun record =>
         {| lr_uuid := at_uuid record;
            lr_name := at_name record;
            lr_description := at_description record;
            lr_scope := at_scope record;
            lr_retention := at_retention record;
            lr_createdBy := at_created_by record;
            lr_createdAt := at_created_at record;
            lr_metadata := at_metadata record |}) records).

Definition getTable (tableUuid : jsstring) : M (option AdhocTableRecord) :=
  record <- readWorld (fun w =>
    find (fun r => Js.eqb (at_uuid r) tableUuid && isNull (at_deleted_at r))
         (adhoc_tables w)) ;;
  ret (option_map AdhocTableService.formatRecord record).

Definition deleteTable (tableUuid userUuid : jsstring) : M unit :=
  table <- getTable tableUuid ;;
  match table with
  | None => throw (NotFoundError
                     (js "Table " ++ tableUuid ++ js " not found"))
  | Some table =>
      (* Only owner or admin can delete *)
      if negb (Js.eqb (rec_createdBy table) userUuid)
      then throw (ForbiddenError
                    (js "Only table owner can delete this table"))
      else
        (* Soft delete *)
        t <- now ;;
        (fun w => (Ok tt, with_adhoc_tables w
                     (map (AdhocTableService.softDelete tableUuid t)
                          (adhoc_tables w))))
  end.

End AdhocTableServiceIndex.

(* ================================================================== *)
(** ** Vocabulary of the properties *)
(* ================================================================== *)

Module Vocabulary.

Import FileParserService.

(** How many values of a sample read as a boolean literal, as a date, as a
    number. *)
Definition booleanHits (values : list JsValue) : nat :=
  length (filter (fun v => isBooleanLiteral (strValueOf v)) values).
Definition dateHits (values : list JsValue) : nat :=
  length (filter (fun v => isValidDate (strValueOf v)) values).
Definition numberHits (values : list JsValue) : nat :=
  length (filter (fun v => isNumberLike (strValueOf v)) values).

(** [hits] is at least 80% of the sample. *)
Definition atLeast80 (hits : nat) (values : list JsValue) : Prop :=
  4 * length values <= 5 * hits.


(** A string has no two underscores in a row. *)
Fixpoint noRun (s : jsstring) : bool :=
  match s with
  | c :: (d :: _) as rest =>
      negb (isUnderscore c && isUnderscore d) && noRun rest
  | _ => true
  end.

(** A string in the form [lowerAndReplace] leaves: characters of
    [[a-z0-9_]], no two underscores in a row, no underscore at either
    end. *)
Definition canonical (s : jsstring) : Prop :=
  forallb isLowerWordChar s = true /\
  noRun s = true /\
  startsWithUnderscore s = false /\
  startsWithUnderscore (rev s) = false.

(** The first eight characters of a version 4 uuid: hexadecimal digits in
    lower case, and at least one of them. *)
Definition isLowerHex (c : ascii) : bool := isDigit c || between 97 102 c.

Definition uuidLike (u : jsstring) : Prop :=
  substring0 8 u <> [] /\ forallb isLowerHex (substring0 8 u) = true.

(** The names [generateDimensions] gives the columns, in order, with the
    randomness it draws on the way. *)
Fixpoint sanitizedNames (columns : list ColumnDefinition)
  : Gen (list jsstring) :=
  match columns with
  | [] => gret []
  | column :: rest =>
      gbind (AdhocTableExploreService.sanitizeFieldName (cd_name column))
        (fun name => gbind (sanitizedNames rest)
           (fun names => gret (name :: names)))
  end.

(** What an upload parses to, as [createFromFile] chooses the parser. *)
Definition parseRequest (papaParse : jsstring -> PapaOutcome)
    (xlsxRead : Buffer -> XlsxOutcome) (request : AdhocTableCreateRequest)
  : Outcome ParseResult :=
  match req_fileType request with
  | CSV => parseCSV papaParse (req_file request)
  | EXCEL => parseExcel xlsxRead (req_file request)
  end.



(** The project of a world, as [getProject] finds it. *)
Definition projectOf (w : World) (projectUuid : jsstring) : option Project :=
  find (fun p => Js.eqb (pr_projectUuid p) projectUuid) (projects w).

(** The metadata store's tables of record, the directory and the warehouse
    are the same in two worlds: what may differ is the Explore cache, the
    catalog, the randomness drawn, the count of fallible calls and the
    log. *)
Definition sameAssets (w w' : World) : Prop :=
  adhoc_tables w' = adhoc_tables w /\
  adhoc_table_access w' = adhoc_table_access w /\
  warehouse w' = warehouse w /\
  warehouse_calls w' = warehouse_calls w /\
  projects w' = projects w /\
  project_memberships w' = project_memberships w /\
  clock w' = clock w /\
  faults w' = faults w.

(** The Explore cache is the same in two worlds. *)
Definition sameExplores (w w' : World) : Prop :=
  cached_explore w' = cached_explore w.

(** A method keeps a relation between the world it starts in and the world
    it leaves, whatever it returns or throws. *)
Definition keeps (R : World -> World -> Prop) {A} (m : M A) : Prop :=
  forall w, R w (snd (m w)).

(** The live row of a table, as [getTable] finds it. *)
Definition liveRow (w : World) (tableUuid : jsstring) : option AdhocTableRow :=
  find (fun r => Js.eqb (at_uuid r) tableUuid && isNull (at_deleted_at r))
       (adhoc_tables w).

(** A catalog entry belongs to a table: it carries the uuid of a cached
    Explore that is registered under the table's uuid in the project. *)
Definition entryOf (w : World) (projectUuid tableUuid : jsstring)
    (e : CatalogRow) : Prop :=
  cs_project_uuid e = projectUuid /\
  exists ce, In ce (cached_explore w) /\
             ce_project_uuid ce = projectUuid /\
             ce_name ce = tableUuid /\
             cs_cached_explore_uuid e = ce_cached_explore_uuid ce.

(** The unique index of [cached_explore] that the upsert of
    [registerExplore] relies on: one row per project and name. *)
Definition exploreKey (ce : CachedExploreRow) : jsstring * jsstring :=
  (ce_project_uuid ce, ce_name ce).

Definition uniqueRows (rows : list CachedExploreRow) : Prop :=
  NoDup (map exploreKey rows).

Definition uniqueExploreNames (w : World) : Prop :=
  uniqueRows (cached_explore w).

(** The index holds in the second world if it holds in the first. *)
Definition uniqueKept (w w' : World) : Prop :=
  uniqueExploreNames w -> uniqueExploreNames w'.

(** [userUuid] is a member of the project, as [userCanAccessProject] finds
    it. *)
Definition isMember (w : World) (projectUuid userUuid : jsstring) : bool :=
  existsb (fun m => Js.eqb (pm_project_uuid m) projectUuid
                    && Js.eqb (pm_user_uuid m) userUuid)
          (project_memberships w).

(** An access grant for the user on the table is on record. *)
Definition hasGrant (w : World) (tableUuid userUuid : jsstring) : bool :=
  existsb (fun r => Js.eqb (ac_adhoc_table_uuid r) tableUuid
                    && Js.eqb (ac_user_uuid r) userUuid)
          (adhoc_table_access w).

(** A table is tombstoned: it has rows in [adhoc_tables], and each of them
    has [deleted_at] set. *)
Definition tombstoned (w : World) (tableUuid : jsstring) : Prop :=
  (exists r, In r (adhoc_tables w) /\ at_uuid r = tableUuid) /\
  forall r, In r (adhoc_tables w) -> at_uuid r = tableUuid ->
            at_deleted_at r <> None.

(** How a call may change [adhoc_tables]: not at all, by one new row whose
    uuid no row has yet, or by a soft delete. *)
Definition rowsStep (w w' : World) : Prop :=
  adhoc_tables w' = adhoc_tables w \/
  (exists row,
     adhoc_tables w' = adhoc_tables w ++ [row] /\
     existsb (fun r => Js.eqb (at_uuid r) (at_uuid row)) (adhoc_tables w)
       = false) \/
  (exists t c,
     adhoc_tables w' = map (AdhocTableService.softDelete t c) (adhoc_tables w)).

(** A table is in no result of [getTable] and [listByProject]. *)
Definition hidden (w : World) (tableUuid : jsstring) : Prop :=
  fst (AdhocTableService.getTable tableUuid w) = Ok None /\
  forall projectUuid userUuid options,
    match fst (AdhocTableService.listByProject projectUuid userUuid options w)
    with
    | Ok tables => ~ In tableUuid (map lr_uuid tables)
    | Throw _ => True
    end.

End Vocabulary.

(* ================================================================== *)
(** ** The calls of the services *)
(* ================================================================== *)

Module Api.

Inductive Call : Type :=
| CreateFromFile (projectUuid userUuid : jsstring)
    (request : AdhocTableCreateRequest)
| ListByProject (projectUuid userUuid : jsstring)
    (options : option ListOptions)
| GetTable (tableUuid : jsstring)
| DeleteTable (tableUuid userUuid : jsstring)
| UserCanAccessTable (tableUuid userUuid : jsstring)
| GrantTableAccess (tableUuid userUuid grantedByUserUuid : jsstring)
| RevokeTableAccess (tableUuid userUuid revokedByUserUuid : jsstring).

Section Libraries.
Variable papaParse : jsstring -> FileParserService.PapaOutcome.
Variable xlsxRead : Buffer -> FileParserService.XlsxOutcome.
Variable clientOf : jsstring -> WarehouseClient.

(** The world a call leaves, whether it returns or throws. *)
Definition afterCall (w : World) (c : Call) : World :=
  match c with
  | CreateFromFile p u request =>
      snd (AdhocTableService.createFromFile papaParse xlsxRead clientOf
             p u request w)
  | ListByProject p u options =>
      snd (AdhocTableService.listByProject p u options w)
  | GetTable t => snd (AdhocTableService.getTable t w)
  | DeleteTable t u => snd (AdhocTableService.deleteTable t u w)
  | UserCanAccessTable t u =>
      snd (AdhocTablePermissionService.userCanAccessTable t u w)
  | GrantTableAccess t u g =>
      snd (AdhocTablePermissionService.grantTableAccess t u g w)
  | RevokeTableAccess t u r =>
      snd (AdhocTablePermissionService.revokeTableAccess t u r w)
  end.

Definition afterCalls (w : World) (calls : list Call) : World :=
  fold_left afterCall calls w.
End Libraries.

End Api.

(* ================================================================== *)
(** ** Fixtures for the examples *)
(* ================================================================== *)

Module Demo.

Import FileParserService.

Definition nl : ascii := ascii_of_nat 10.

Fixpoint splitOn (sep : ascii) (s cur : jsstring) : list jsstring :=
  match s with
  | [] => [rev cur]
  | c :: r =>
      if Ascii.eqb c sep then rev cur :: splitOn sep r []
      else splitOn sep r (c :: cur)
  end.

(** A stand-in for Papa Parse on plain files: lines end with a newline,
    fields are separated by commas, nothing is quoted; the first line is
    the header and empty lines are skipped. *)
Definition papa (text : jsstring) : PapaOutcome :=
  match filter (fun l => negb (isEmpty l)) (splitOn nl text []) with
  | [] => PapaComplete []
  | header :: lines =>
      let headers := splitOn ","%char header [] in
      PapaComplete
        (map (fun l => combine headers (map JString (splitOn ","%char l [])))
             lines)
  end.

(** A stand-in for SheetJS that finds no readable workbook. *)
Definition xlsx (_ : Buffer) : XlsxOutcome :=
  XlsxThrows (js "File is not a workbook").

Definition clientFor (credentialsType : jsstring) : WarehouseClient :=
  if Js.eqb credentialsType (js "postgres") then AdhocCapable (js "Postgres")
  else if Js.eqb credentialsType (js "bigquery")
  then AdhocCapable (js "BigQuery")
  else if Js.eqb credentialsType (js "redshift")
  then AdhocCapable (js "Redshift")
  else NotCapable.

Definition lines (ls : list string) : jsstring :=
  flat_map (fun l => js l ++ [nl]) ls.

Definition project1 : jsstring := js "p1".
Definition alice : jsstring := js "a11ce000-0000-4000-8000-000000000001".
Definition bob : jsstring := js "b0b00000-0000-4000-8000-000000000002".

Definition noFaults : FaultPoint -> nat -> bool := fun _ _ => false.

Definition world0 (f : FaultPoint -> nat -> bool) : World :=
  {| projects := [mkProject project1 (js "org1") (js "postgres")];
     project_memberships :=
       [mkMembership project1 alice; mkMembership project1 bob];
     adhoc_tables := [];
     adhoc_table_access := [];
     cached_explore := [];
     catalog_search := [];
     warehouse := [];
     warehouse_calls := [];
     clock := 1700000000000;
     supply := demoSupply;
     faults := f;
     ticks := 0;
     console := [] |}.

(** The upload of the end-to-end scenario. *)
Definition signups : AdhocTableCreateRequest :=
  {| req_file := lines ["id,active,signup_date"%string;
                        "1,true,2024-01-01"%string;
                        "2,false,2024-02-15"%string;
                        "3,yes,2024-03-10"%string];
     req_fileName := js "signups.csv";
     req_fileType := CSV;
     req_tableName := js "Signups";
     req_description := None;
     req_scope := PERSONAL;
     req_retention := PERMANENT;
     req_retentionDays := None |}.


Definition createFromFile :=
  AdhocTableService.createFromFile papa xlsx clientFor.


(** Samples, rows and columns for the examples of the type inference and
    of the Explore generation. *)
Definition zeroOnes : list JsValue :=
  [JString (js "0"); JString (js "1"); JString (js "1"); JString (js "0")].


(** [n] rows, each with a value for the column c. *)
Definition fullRows (n : nat) : list Row :=
  repeat [(js "c", JString (js "x"))] n.

Definition threeColumns : list ColumnDefinition :=
  [ mkColumnDefinition (js "id") (js "number") true;
    mkColumnDefinition (js "active") (js "boolean") true;
    mkColumnDefinition (js "signup_date") (js "date") true ].

(** Two columns whose names differ and sanitize to the same field name. *)
Definition collidingColumns : list ColumnDefinition :=
  [ mkColumnDefinition (js "a b") (js "string") true;
    mkColumnDefinition (js "a_b") (js "number") true ].

(** Every statement on [cached_explore] and [catalog_search] fails; the
    warehouse works. *)
Definition registrationFails : FaultPoint -> nat -> bool :=
  fun p _ => match p with WarehouseCreate => false | _ => true end.

(** Only the statements on [catalog_search] fail. *)
Definition indexingFails : FaultPoint -> nat -> bool :=
  fun p _ => match p with CatalogUpsert | CatalogDelete => true | _ => false end.

Definition signupsParsed : ParseResult :=
  match Vocabulary.parseRequest papa xlsx signups with
  | Ok parsed => parsed
  | Throw _ => mkParseResult [] [] []
  end.


(** The same upload, shared with the project. *)
Definition sharedSignups : AdhocTableCreateRequest :=
  mkRequest (req_file signups) (req_fileName signups) CSV (js "Signups")
    None SHARED PERMANENT None.

(** The worlds after alice's upload, and the uuid its table is given. *)
Definition afterUpload (request : AdhocTableCreateRequest) : World :=
  snd (createFromFile project1 alice request (world0 noFaults)).

Definition tableId : jsstring := js "a0000000-0000-4000-8000-000000000000".



(** The statement that removes catalog entries fails. *)
Definition removalFails : FaultPoint -> nat -> bool :=
  fun p _ => match p with CatalogDelete => true | _ => false end.

End Demo.

(* ================================================================== *)
(** ** Warehouse helpers: the connection *)
(* ================================================================== *)

(** [Array.prototype.join] *)
Fixpoint join (sep : jsstring) (parts : list jsstring) : jsstring :=
  match parts with
  | [] => []
  | [p] => p
  | p :: rest => p ++ sep ++ join sep rest
  end.

(** [rows.slice(from, to)] for [from <= to] *)
Definition slice {A} (from to : nat) (l : list A) : list A :=
  firstn (to - from) (skipn from l).

(** The line feed of the template literals and the quote of SQL string
    literals. *)
Definition lf : ascii := ascii_of_nat 10.
Definition apostrophe : ascii := ascii_of_nat 39.

(** [s.replace(/q/g, 'qq')] for a one-character [q]: every occurrence is
    doubled. *)
Definition doubleEvery (q : ascii) (s : jsstring) : jsstring :=
  flat_map (fun c => if Ascii.eqb c q then [q; q] else [c]) s.

(** The columns as the helpers read them: [name], [type] and [nullable] of
    the objects that the parser inferred and [createWarehouseTable] hands
    over. *)
Definition asColumnDefinition (col : ColumnInference) : ColumnDefinition :=
  {| cd_name := ci_name col;
     cd_type := AdhocTableService.typeName (ci_type col);
     cd_nullable := ci_nullable col |}.

Module Connection.

(** A connection of the [pg] pool as the helpers use it: the statements
    sent, earliest first; for the n-th statement sent, whether it fails and
    with what message; whether [pool.connect] refuses; how often the
    connection was handed out and how often [client.release] gave it back;
    the lines of [console.log], latest first. *)
Record Client : Type := mkClient {
  sent : list jsstring;
  failing : nat -> option jsstring;
  refusing : option jsstring;
  connected : nat;
  released : nat;
  logged : list jsstring
}.

Definition Run (A : Type) : Type := Client -> Outcome A * Client.

Definition ret {A} (a : A) : Run A := fun c => (Ok a, c).

Definition bind {A B} (m : Run A) (f : A -> Run B) : Run B :=
  fun c =>
    match m c with
    | (Ok a, c') => f a c'
    | (Throw e, c') => (Throw e, c')
    end.

Definition throw {A} (e : JsError) : Run A := fun c => (Throw e, c).

(** [try { m } catch (e) { handler e }] *)
Definition tryCatch {A} (m : Run A) (handler : JsError -> Run A) : Run A :=
  fun c =>
    match m c with
    | (Ok a, c') => (Ok a, c')
    | (Throw e, c') => handler e c'
    end.

(** [try { m } finally { cleanup }]: the cleanup runs on both ways out, and
    what it throws itself replaces the outcome. *)
Definition finally {A} (m : Run A) (cleanup : Run unit) : Run A :=
  fun c =>
    match m c with
    | (outcome, c') =>
        match cleanup c' with
        | (Ok _, c'') => (outcome, c'')
        | (Throw e, c'') => (Throw e, c'')
        end
    end.

Declare Scope run_scope.
Delimit Scope run_scope with run.
Notation "x <- m ;; k" := (bind m (fun x => k))
  (at level 61, m at next level, right associativity) : run_scope.
Notation "m ;;; k" := (bind m (fun _ => k))
  (at level 61, right associativity) : run_scope.
Local Open Scope run_scope.

(** [await this.pool.connect()] *)
Definition connect : Run unit :=
  fun c =>
    match refusing c with
    | Some message => (Throw (Error message), c)
    | None =>
        (Ok tt, mkClient (sent c) (failing c) (refusing c) (S (connected c))
                  (released c) (logged c))
    end.

(** [client.release()] *)
Definition release : Run unit :=
  fun c =>
    (Ok tt, mkClient (sent c) (failing c) (refusing c) (connected c)
              (S (released c)) (logged c)).

(** [client.query(sql)]: the statement is sent; the connection says whether
    it fails. *)
Definition query (sql : jsstring) : Run unit :=
  fun c =>
    let c' := mkClient (sent c ++ [sql]) (failing c) (refusing c)
                (connected c) (released c) (logged c) in
    match failing c (length (sent c)) with
    | Some message => (Throw (Error message), c')
    | None => (Ok tt, c')
    end.

(** [console.log(line)] *)
Definition log (line : jsstring) : Run unit :=
  fun c =>
    (Ok tt, mkClient (sent c) (failing c) (refusing c) (connected c)
              (released c) (line :: logged c)).

(** A loop that awaits each step: the first failure ends it. *)
Fixpoint forEach {A} (f : A -> Run unit) (l : list A) : Run unit :=
  match l with
  | [] => ret tt
  | x :: rest => f x ;;; forEach f rest
  end.

(** [await Promise.all(queries)] for the promises of statements that the
    loop before it has already sent, all of them: the connection answers in
    the order of sending, so the rejection passed on is that of the first
    statement that fails. *)
Fixpoint promiseAll (queries : list (Run unit)) : Run unit :=
  fun c =>
    match queries with
    | [] => (Ok tt, c)
    | q :: rest =>
        match q c with
        | (outcome, c') =>
            match promiseAll rest c' with
            | (others, c'') =>
                (match outcome with
                 | Throw e => Throw e
                 | Ok _ => others
                 end, c'')
            end
        end
    end.

(** [const batchSize = 1000] *)
Definition batchSize : nat := 1000.

(** [for (let i = 0; i < rows.length; i += batchSize)] with
    [rows.slice(i, i + batchSize)] in its body: the batches from index [i]
    on.  The loop runs at most once per row. *)
Fixpoint batchesFrom {A} (size fuel i : nat) (rows : list A)
  : list (list A) :=
  match fuel with
  | O => []
  | S fuel' =>
      if i <? length rows
      then slice i (i + size) rows :: batchesFrom size fuel' (i + size) rows
      else []
  end.

Definition batches {A} (rows : list A) : list (list A) :=
  batchesFrom batchSize (length rows) 0 rows.

End Connection.

(* ================================================================== *)
(** ** PostgresAdhocTableHelper: [createTableFromData] *)
(* ================================================================== *)

(** The methods of [PostgresAdhocTableHelper] besides the sanitizers. *)
Module PostgresCreateTable.

Import Connection.
Local Open Scope run_scope.

Definition mapColumnType (type : jsstring) : jsstring :=
  if Js.eqb type (js "STRING") then js "TEXT"
  else if Js.eqb type (js "NUMERIC") then js "FLOAT8"
  else if Js.eqb type (js "TIMESTAMP") then js "TIMESTAMP"
  else if Js.eqb type (js "BOOLEAN") then js "BOOLEAN"
  else js "TEXT".

(** One element of [columnDefs] *)
Definition columnDef (col : ColumnDefinition) : jsstring :=
  [AdhocTableExploreService.dq]
    ++ PostgresAdhocTableHelper.sanitizeColumnName (cd_name col)
    ++ [AdhocTableExploreService.dq] ++ js " "
    ++ mapColumnType (cd_type col)
    ++ (if cd_nullable col then [] else js " NOT NULL").

(** A cell in a [VALUES] clause *)
Definition literal (val : JsValue) : jsstring :=
  match val with
  | JNull | JUndefined => js "NULL"
  | _ => [apostrophe]
           ++ doubleEvery apostrophe (FileParserService.String_ val)
           ++ [apostrophe]
  end.

(** One element of [valueClauses] *)
Definition valueClause (columns : list ColumnDefinition) (row : Row)
  : jsstring :=
  js "(" ++ join (js ", ")
              (map (fun col => literal (rowGet row (cd_name col))) columns)
         ++ js ")".

Section Helper.
(** [this.credentials.schema] *)
Variable schema : jsstring.

(** The table as the statements name it: the schema and the sanitized table
    name, each in double quotes. *)
Definition qualifiedTable (tableName : jsstring) : jsstring :=
  [AdhocTableExploreService.dq] ++ schema ++ [AdhocTableExploreService.dq]
    ++ js "." ++ [AdhocTableExploreService.dq]
    ++ PostgresAdhocTableHelper.sanitizeTableName tableName
    ++ [AdhocTableExploreService.dq].

Definition buildCreateTableStatement (tableName : jsstring)
    (columns : list ColumnDefinition) : jsstring :=
  let columnDefs := join (js "," ++ [lf] ++ js "  ") (map columnDef columns) in
  trim ([lf] ++ js "CREATE TABLE " ++ qualifiedTable tableName ++ js " ("
          ++ [lf] ++ js "  " ++ columnDefs ++ [lf] ++ js ")" ++ [lf]
          ++ js "        ").

(** The statement of one batch *)
Definition insertSql (tableName : jsstring) (columns : list ColumnDefinition)
    (batch : list Row) : jsstring :=
  let columnList :=
    join (js ", ")
      (map (fun col =>
              [AdhocTableExploreService.dq]
                ++ PostgresAdhocTableHelper.sanitizeColumnName (cd_name col)
                ++ [AdhocTableExploreService.dq]) columns) in
  let valueClauses :=
    join (js "," ++ [lf] ++ js "  ") (map (valueClause columns) batch) in
  trim ([lf] ++ js "INSERT INTO " ++ qualifiedTable tableName ++ js " ("
          ++ columnList ++ js ")" ++ [lf] ++ js "VALUES" ++ [lf] ++ js "  "
          ++ valueClauses ++ [lf] ++ js "            ").

(** The statements of [insertRows], one per batch *)
Definition insertStatements (tableName : jsstring) (rows : list Row)
    (columns : list ColumnDefinition) : list jsstring :=
  map (insertSql tableName columns) (batches rows).

(** [insertRows]: every batch is sent, then all are awaited. *)
Definition insertRows (tableName : jsstring) (rows : list Row)
    (columns : list ColumnDefinition) : Run unit :=
  promiseAll (map query (insertStatements tableName rows columns)).

Definition createTableFromData (tableName : jsstring) (rows : list Row)
    (columns : list ColumnDefinition) : Run unit :=
  if Nat.eqb (length rows) 0
  then throw (Error (js "Cannot create table from empty data"))
  else
    connect ;;;
    finally
      (tryCatch
         ((* Start transaction *)
          query (js "BEGIN") ;;;
          (* Execute CREATE TABLE *)
          query (buildCreateTableStatement tableName columns) ;;;
          (* Insert rows into table *)
          insertRows tableName rows columns ;;;
          (* Commit transaction *)
          query (js "COMMIT") ;;;
          log (js "Successfully created Postgres table: " ++ tableName))
         (fun error =>
            (* Rollback on error *)
            query (js "ROLLBACK") ;;;
            throw (Error (js "Failed to create Postgres table " ++ tableName
                            ++ js ": " ++ errorMessage error))))
      release.
End Helper.

End PostgresCreateTable.

(* ================================================================== *)
(** ** RedshiftAdhocTableHelper: [createTableFromData] *)
(* ================================================================== *)

(** The methods of [RedshiftAdhocTableHelper] besides the sanitizers. *)
Module RedshiftCreateTable.

Import Connection.
Local Open Scope run_scope.

Definition mapColumnType (type : jsstring) : jsstring :=
  if Js.eqb type (js "STRING") then js "VARCHAR(MAX)"
  else if Js.eqb type (js "NUMERIC") then js "FLOAT8"
  else if Js.eqb type (js "TIMESTAMP") then js "TIMESTAMP"
  else if Js.eqb type (js "BOOLEAN") then js "BOOLEAN"
  else js "VARCHAR(MAX)".

Definition columnDef (col : ColumnDefinition) : jsstring :=
  [AdhocTableExploreService.dq]
    ++ RedshiftAdhocTableHelper.sanitizeColumnName (cd_name col)
    ++ [AdhocTableExploreService.dq] ++ js " "
    ++ mapColumnType (cd_type col)
    ++ (if cd_nullable col then [] else js " NOT NULL").

Definition literal (val : JsValue) : jsstring :=
  match val with
  | JNull | JUndefined => js "NULL"
  | _ => [apostrophe]
           ++ doubleEvery apostrophe (FileParserService.String_ val)
           ++ [apostrophe]
  end.

Definition valueClause (columns : list ColumnDefinition) (row : Row)
  : jsstring :=
  js "(" ++ join (js ", ")
              (map (fun col => literal (rowGet row (cd_name col))) columns)
         ++ js ")".

Definition quotedTable (tableName : jsstring) : jsstring :=
  [AdhocTableExploreService.dq]
    ++ RedshiftAdhocTableHelper.sanitizeTableName tableName
    ++ [AdhocTableExploreService.dq].

Definition buildCreateTableStatement (tableName : jsstring)
    (columns : list ColumnDefinition) : jsstring :=
  let columnDefs := join (js "," ++ [lf] ++ js "  ") (map columnDef columns) in
  trim ([lf] ++ js "CREATE TABLE " ++ quotedTable tableName ++ js " ("
          ++ [lf] ++ js "  " ++ columnDefs ++ [lf] ++ js ")" ++ [lf]
          ++ js "        ").

Definition insertSql (tableName : jsstring) (columns : list ColumnDefinition)
    (batch : list Row) : jsstring :=
  let columnList :=
    join (js ", ")
      (map (fun col =>
              [AdhocTableExploreService.dq]
                ++ RedshiftAdhocTableHelper.sanitizeColumnName (cd_name col)
                ++ [AdhocTableExploreService.dq]) columns) in
  let valueClauses :=
    join (js "," ++ [lf] ++ js "  ") (map (valueClause columns) batch) in
  trim ([lf] ++ js "INSERT INTO " ++ quotedTable tableName ++ js " ("
          ++ columnList ++ js ")" ++ [lf] ++ js "VALUES" ++ [lf] ++ js "  "
          ++ valueClauses ++ [lf] ++ js "            ").

Definition insertStatements (tableName : jsstring) (rows : list Row)
    (columns : list ColumnDefinition) : list jsstring :=
  map (insertSql tableName columns) (batches rows).

(** [insertRows]: each batch is sent and awaited before the next. *)
Definition insertRows (tableName : jsstring) (rows : list Row)
    (columns : list ColumnDefinition) : Run unit :=
  forEach query (insertStatements tableName rows columns).

Definition createTableFromData (tableName : jsstring) (rows : list Row)
    (columns : list ColumnDefinition) : Run unit :=
  if Nat.eqb (length rows) 0
  then throw (Error (js "Cannot create table from empty data"))
  else
    connect ;;;
    finally
      (tryCatch
         ((* Execute CREATE TABLE *)
          query (buildCreateTableStatement tableName columns) ;;;
          (* Insert rows into table *)
          insertRows tableName rows columns ;;;
          log (js "Successfully created Redshift table: " ++ tableName))
         (fun error =>
            throw (Error (js "Failed to create Redshift table " ++ tableName
                            ++ js ": " ++ errorMessage error))))
      release.

End RedshiftCreateTable.

(* ================================================================== *)
(** ** BigQueryAdhocTableHelper: the schema *)
(* ================================================================== *)

(** [buildBigQuerySchema] and [mapColumnType] of [BigQueryAdhocTableHelper];
    the calls of the BigQuery client are outside the sources. *)
Module BigQueryCreateTable.

(** A field of a [TableSchema] *)
Record SchemaField : Type := mkSchemaField {
  sf_name : jsstring;
  sf_type : jsstring;
  sf_mode : jsstring
}.

Definition mapColumnType (type : jsstring) : jsstring :=
  if Js.eqb type (js "STRING") then js "STRING"
  else if Js.eqb type (js "NUMERIC") then js "FLOAT64"
  else if Js.eqb type (js "TIMESTAMP") then js "TIMESTAMP"
  else if Js.eqb type (js "BOOLEAN") then js "BOOLEAN"
  else js "STRING".

Definition buildBigQuerySchema (columns : list ColumnDefinition)
  : list SchemaField :=
  map (fun column =>
         {| sf_name := BigQueryAdhocTableHelper.sanitizeColumnName
                         (cd_name column);
            sf_type := mapColumnType (cd_type column);
            sf_mode := if cd_nullable column then js "NULLABLE"
                       else js "REQUIRED" |})
      columns.

End BigQueryCreateTable.

(* ================================================================== *)
(** ** Further vocabulary of the properties *)
(* ================================================================== *)

Module Terms.

(** How SQL reads the text between the quotes of a quoted literal or
    identifier: a doubled quote stands for one quote, a single one would
    end the text early. *)
Fixpoint readQuoted (q : ascii) (s : jsstring) : option jsstring :=
  match s with
  | [] => Some []
  | c :: r =>
      if Ascii.eqb c q
      then match r with
           | d :: r' =>
               if Ascii.eqb d q
               then option_map (cons q) (readQuoted q r')
               else None
           | [] => None
           end
      else option_map (cons c) (readQuoted q r)
  end.

(** The connection after more statements were sent on it. *)
Definition afterSending (c : Connection.Client) (stmts : list jsstring)
  : Connection.Client :=
  Connection.mkClient (Connection.sent c ++ stmts) (Connection.failing c)
    (Connection.refusing c) (Connection.connected c) (Connection.released c)
    (Connection.logged c).

(** Among [count] statements sent from the n-th on, the number of the first
    that fails and its message. *)
Fixpoint firstFailure (failing : nat -> option jsstring) (n count : nat)
  : option (nat * jsstring) :=
  match count with
  | O => None
  | S count' =>
      match failing n with
      | Some message => Some (n, message)
      | None => firstFailure failing (S n) count'
      end
  end.

(** What a numeral of base 36 stands for, as [parseInt(s, 36)] reads the
    digits 0-9 and a-z. *)
Definition digitValue36 (c : ascii) : N :=
  if isDigit c then (code c - 48)%N else (code c - 87)%N.

Definition valueOf36 (s : jsstring) : N :=
  fold_left (fun v c => (36 * v + digitValue36 c)%N) s 0%N.






(** The primary key of [adhoc_tables]: no two rows share a uuid. *)
Definition uniqueUuids (w : World) : Prop :=
  NoDup (map at_uuid (adhoc_tables w)).

(** A catalog entry carries the project and the uuid of a cached
    Explore. *)
Definition entryOfExplore (projectUuid exploreUuid : jsstring)
    (e : CatalogRow) : bool :=
  Js.eqb (cs_project_uuid e) projectUuid
  && Js.eqb (cs_cached_explore_uuid e) exploreUuid.

(** No statement on [cached_explore] or [catalog_search] and no call of the
    warehouse fails from now on. *)
Definition faultless (w : World) : Prop :=
  forall p n, faults w p n = false.

End Terms.

(* ================================================================== *)
(** ** Further fixtures *)
(* ================================================================== *)

Module Scenes.

(** A connection on which the statement with the given number fails. *)
Definition failingAt (n : nat) : Connection.Client :=
  Connection.mkClient []
    (fun k => if Nat.eqb k n then Some (js "connection reset") else None)
    None 0 0 [].

(** The columns and the rows of the upload of the signups. *)
Definition signupColumns : list ColumnDefinition :=
  map asColumnDefinition (FileParserService.parsed_columns Demo.signupsParsed).

Definition signupRows : list Row :=
  FileParserService.parsed_rows Demo.signupsParsed.

(** The Explore that alice's upload left in the cache. *)
Definition blankExplore : Explore := mkExplore [] [] [] [] [] [] [] [] [].

Definition uploadedExplore : Explore :=
  match cached_explore (Demo.afterUpload Demo.signups) with
  | ce :: _ => ce_explore ce
  | [] => blankExplore
  end.


(** The first world, a millisecond later. *)
Definition aMillisecondLater : World :=
  mkWorld [mkProject Demo.project1 (js "org1") (js "postgres")]
    [mkMembership Demo.project1 Demo.alice;
     mkMembership Demo.project1 Demo.bob] [] [] [] [] [] []
    1700000000001 demoSupply Demo.noFaults 0 [].

End Scenes.

(* ================================================================== *)
(** * Properties *)
(* ================================================================== *)

(** ** Strings *)

Module JsFacts.

Lemma eqb_spec (a b : jsstring) : reflect (a = b) (Js.eqb a b).
Proof.
  revert b; induction a as [|x a IH]; intros [|y b]; simpl;
    try (constructor; congruence).
  destruct (Ascii.eqb_spec x y) as [->|Hxy]; simpl.
  - destruct (IH b) as [->|Hab]; constructor; congruence.
  - constructor; congruence.
Qed.

Lemma eqb_refl (a : jsstring) : Js.eqb a a = true.
Proof. destruct (eqb_spec a a); congruence. Qed.

Lemma eqb_eq (a b : jsstring) : Js.eqb a b = true <-> a = b.
Proof. destruct (eqb_spec a b); split; congruence. Qed.

Lemma eqb_neq (a b : jsstring) : Js.eqb a b = false <-> a <> b.
Proof. destruct (eqb_spec a b); split; congruence. Qed.

End JsFacts.

(** ** Runs of the definitions on small inputs *)

Example detect_01 :
  FileParserService.detectColumnType
    [JString (js "0"); JString (js "1"); JString (js "1")] = TBoolean.
Proof. reflexivity. Qed.
Example detect_dates :
  FileParserService.detectColumnType
    [JString (js "2024-01-01"); JString (js "2024-02-15")] = TDate.
Proof. reflexivity. Qed.
Example detect_nums :
  FileParserService.detectColumnType
    [JString (js "1"); JString (js "2"); JString (js "3")] = TNumber.
Proof. reflexivity. Qed.
Example detect_mixed :
  FileParserService.detectColumnType
    [JString (js "x1"); JString (js "2"); JNumber 3; JString (js " 1e5 ")] = TString.
Proof. reflexivity. Qed.
Example detect_4of5 :
  FileParserService.detectColumnType
    [JString (js "YES"); JString (js "no"); JBoolean true; JString (js "0"); JString (js "maybe")] = TBoolean.
Proof. reflexivity. Qed.
Example number_grammar :
  map (fun t => FileParserService.Number_isNaN (js t))
      ["42"; "-4.5"; ".5"; "5."; "1e5"; "1E-3"; "0x1f"; "0b101"; "  7 ";
       ""; "Infinity"; "infinity"; "12px"; "1.2.3"; "1e"; "0x"; "+-1";
       "1,5"]%string
  = [false; false; false; false; false; false; false; false; false;
     false; false; true; true; true; true; true; true;
     true].
Proof. reflexivity. Qed.
Example date_patterns :
  map (fun t => FileParserService.isValidDate (js t))
      ["2024-01-01"; "2024-01-01T10:00:00Z"; "01/02/2024"; "1-2-24";
       "31.12.2024"; "2024/01/01"; "1/2/2024"; "24-1"; "abc"]%string
  = [true; true; true; true; true; false; false; false; false].
Proof. reflexivity. Qed.
Example strings_of_values :
  map FileParserService.String_ [JNumber 42; JNumber (-7); JNumber 0;
                                 JBoolean true; JNull]
  = [js "42"; js "-7"; js "0"; js "true"; js "null"].
Proof. reflexivity. Qed.
Example base36 :
  (toString36 0, toString36 35, toString36 36, toString36 1700000000000)
  = (js "0", js "z", js "10", js "loyw3v28").
Proof. reflexivity. Qed.
Example warehouse_table_name :
  fst (AdhocTableService.generateWarehouseTableName (js "My Sales 2024!")
         Demo.alice (Demo.world0 Demo.noFaults))
  = Ok (js "adhoc_my_sales_2024__a11ce000_loyw3v28").
Proof. reflexivity. Qed.
Example field_1a :
  fst (AdhocTableExploreService.sanitizeFieldName (js "1st Place") demoSupply)
  = js "_1st_place".
Proof. reflexivity. Qed.
Example field_empty :
  fst (AdhocTableExploreService.sanitizeFieldName (js "!!") demoSupply)
  = js "column_a0000000".
Proof. reflexivity. Qed.

(* ================================================================== *)
(** ** Identifier sanitizers *)
(* ================================================================== *)

Section DropWhile.
Variable p : ascii -> bool.

Lemma dropWhile_head (s : jsstring) :
  match dropWhile p s with
  | [] => True
  | c :: _ => p c = false
  end.
Proof.
  induction s as [|c s IH]; simpl; [exact I|].
  destruct (p c) eqn:E; [exact IH | exact E].
Qed.

Lemma dropWhile_app_keep (s : jsstring) (c : ascii) :
  p c = false -> exists u, dropWhile p (s ++ [c]) = u ++ [c].
Proof.
  intros Hc. induction s as [|d s [u IH]]; simpl.
  - rewrite Hc. now exists [].
  - destruct (p d).
    + now exists u.
    + now exists (d :: s).
Qed.

Lemma dropWhileEnd_cons_keep (c : ascii) (t : jsstring) :
  p c = false -> exists u, dropWhileEnd p (c :: t) = c :: u.
Proof.
  intros Hc. unfold dropWhileEnd. simpl.
  destruct (dropWhile_app_keep (rev t) Hc) as [u ->].
  exists (rev u). now rewrite rev_app_distr.
Qed.

Lemma dropWhile_nop (s : jsstring) :
  match s with [] => True | c :: _ => p c = false end ->
  dropWhile p s = s.
Proof. destruct s as [|c s]; simpl; [easy|]. now intros ->. Qed.
End DropWhile.

Lemma stripUnderscores_no_leading (s : jsstring) :
  startsWithUnderscore (stripUnderscores s) = false.
Proof.
  unfold stripUnderscores.
  pose proof (dropWhile_head isUnderscore s) as H.
  destruct (dropWhile isUnderscore s) as [|c t]; [reflexivity|].
  destruct (@dropWhileEnd_cons_keep isUnderscore c t H) as [u ->]. exact H.
Qed.

Lemma limited_strip_no_leading (n : nat) (s : jsstring) :
  startsWithUnderscore
    (substring0 n (if isEmpty (stripUnderscores s) then js "column"
                   else stripUnderscores s)) = false.
Proof.
  pose proof (stripUnderscores_no_leading s) as H.
  destruct (stripUnderscores s) as [|c t]; simpl.
  - destruct n; reflexivity.
  - destruct n; [reflexivity | exact H].
Qed.

(** No name at all leaves the warehouse helpers' sanitizers with a leading
    underscore: the underscore put in for a leading digit is stripped with
    the others. *)
Lemma warehouse_sanitizers_never_lead_with_underscore (name : jsstring) :
  startsWithUnderscore (PostgresAdhocTableHelper.sanitizeColumnName name)
    = false /\
  startsWithUnderscore (BigQueryAdhocTableHelper.sanitizeColumnName name)
    = false /\
  startsWithUnderscore (RedshiftAdhocTableHelper.sanitizeColumnName name)
    = false.
Proof. repeat split; apply limited_strip_no_leading. Qed.

(** C9, at the failing input: the Postgres, BigQuery and Redshift helpers
    turn the name "1abc", which starts with a digit, into "abc", which does
    not start with an underscore. *)
Theorem C9_warehouse_sanitizer_drops_the_underscore :
  startsWithDigit (js "1abc") = true /\
  PostgresAdhocTableHelper.sanitizeColumnName (js "1abc") = js "abc" /\
  BigQueryAdhocTableHelper.sanitizeColumnName (js "1abc") = js "abc" /\
  RedshiftAdhocTableHelper.sanitizeColumnName (js "1abc") = js "abc" /\
  startsWithUnderscore (PostgresAdhocTableHelper.sanitizeColumnName (js "1abc"))
    = false.
Proof. repeat split; reflexivity. Qed.

Lemma lowerChar_digit (c : ascii) : isDigit c = true -> lowerChar c = c.
Proof.
  unfold lowerChar, isUpper, isDigit, between. intros Hc.
  apply andb_true_iff in Hc. rewrite !N.leb_le in Hc.
  destruct ((65 <=? code c)%N && (code c <=? 90)%N) eqn:E1;
    [apply andb_true_iff in E1; rewrite !N.leb_le in E1; lia|].
  destruct ((192 <=? code c)%N && (code c <=? 222)%N) eqn:E2;
    [apply andb_true_iff in E2; rewrite !N.leb_le in E2; lia|].
  reflexivity.
Qed.

Lemma digit_not_underscore (c : ascii) :
  isDigit c = true -> isUnderscore c = false.
Proof.
  unfold isUnderscore, underscore. intros Hc.
  destruct (Ascii.eqb_spec c "_"%char) as [->|]; [discriminate Hc | reflexivity].
Qed.

Lemma lowerAndReplace_leading_digit (c : ascii) (r : jsstring) :
  isDigit c = true ->
  exists u, AdhocTableExploreService.lowerAndReplace (c :: r) = c :: u.
Proof.
  intros Hc. pose proof (digit_not_underscore c Hc) as Hnu.
  unfold AdhocTableExploreService.lowerAndReplace.
  change (toLowerCase (c :: r)) with (lowerChar c :: toLowerCase r).
  rewrite (lowerChar_digit c Hc).
  unfold replaceAllChars. rewrite map_cons.
  unfold isLowerWordChar at 1. rewrite Hc, orb_true_r. cbn [negb orb].
  set (rest := map _ (toLowerCase r)).
  assert (Hcol : collapseUnderscores (c :: rest)
                 = c :: collapseUnderscores rest)
    by (cbn [collapseUnderscores]; rewrite Hnu; reflexivity).
  rewrite Hcol. unfold stripUnderscores.
  cbn [dropWhile]. rewrite Hnu.
  exact (@dropWhileEnd_cons_keep isUnderscore c (collapseUnderscores rest) Hnu).
Qed.

(** The Explore service's [sanitizeFieldName] does what the helpers miss: it
    strips first and prefixes after, so a name that starts with a digit
    comes out with a leading underscore. *)
Lemma sanitizeFieldName_leading_digit (name : jsstring) (s : UuidSupply) :
  startsWithDigit name = true ->
  startsWithUnderscore (fst (AdhocTableExploreService.sanitizeFieldName name s))
    = true.
Proof.
  destruct name as [|c r]; simpl; [discriminate|]. intros Hc.
  unfold AdhocTableExploreService.sanitizeFieldName.
  destruct (lowerAndReplace_leading_digit c r Hc) as [u ->].
  cbn [startsWithDigit]. rewrite Hc. reflexivity.
Qed.

Lemma sanitizeFieldName_leading_digit_witness :
  startsWithUnderscore
    (fst (AdhocTableExploreService.sanitizeFieldName (js "1abc") demoSupply))
  = true.
Proof. apply sanitizeFieldName_leading_digit. reflexivity. Defined.

(** C8, at the failing input: each helper sends "12" to "2" and "2" to
    "column", so sanitizing twice is not sanitizing once. *)
Theorem C8_warehouse_sanitizer_not_idempotent :
  (PostgresAdhocTableHelper.sanitizeColumnName (js "12") = js "2" /\
   PostgresAdhocTableHelper.sanitizeColumnName (js "2") = js "column") /\
  (BigQueryAdhocTableHelper.sanitizeColumnName (js "12") = js "2" /\
   BigQueryAdhocTableHelper.sanitizeColumnName (js "2") = js "column") /\
  (RedshiftAdhocTableHelper.sanitizeColumnName (js "12") = js "2" /\
   RedshiftAdhocTableHelper.sanitizeColumnName (js "2") = js "column") /\
  PostgresAdhocTableHelper.sanitizeColumnName
    (PostgresAdhocTableHelper.sanitizeColumnName (js "12"))
  <> PostgresAdhocTableHelper.sanitizeColumnName (js "12").
Proof. repeat split; try reflexivity. vm_compute. discriminate. Qed.

(* ================================================================== *)
(** ** Type inference *)
(* ================================================================== *)

Section Scores.
Import FileParserService Vocabulary.

Lemma scoreValues_from (values : list JsValue) (acc : TypeScores) :
  let r := fold_left scoreValue values acc in
  sc_boolean r
    = sc_boolean acc
      + length (filter (fun v => isBooleanLiteral (strValueOf v)) values) /\
  sc_date r
    = sc_date acc
      + length (filter (fun v => isValidDate (strValueOf v)) values) /\
  sc_number r
    = sc_number acc
      + length (filter (fun v => isNumberLike (strValueOf v)) values) /\
  sc_string r = sc_string acc + length values.
Proof.
  revert acc. induction values as [|v values IH]; intros acc; simpl.
  - repeat split; lia.
  - destruct (IH (scoreValue acc v)) as (Hb & Hd & Hn & Hs).
    rewrite Hb, Hd, Hn, Hs. unfold scoreValue; simpl.
    destruct (isBooleanLiteral (strValueOf v)),
             (isValidDate (strValueOf v)),
             (isNumberLike (strValueOf v)); simpl; repeat split; lia.
Qed.

Lemma scoreValues_hits (values : list JsValue) :
  sc_boolean (scoreValues values) = booleanHits values /\
  sc_date (scoreValues values) = dateHits values /\
  sc_number (scoreValues values) = numberHits values.
Proof.
  destruct (scoreValues_from values (mkScores 0 0 0 0)) as (Hb & Hd & Hn & _).
  unfold scoreValues, booleanHits, dateHits, numberHits.
  rewrite Hb, Hd, Hn. repeat split; reflexivity.
Qed.

(** The comparison with [values.length * 0.8] in whole numbers. *)
Lemma meets_spec (score : nat) (values : list JsValue) :
  meets score values = true <-> atLeast80 score values.
Proof.
  unfold meets, threshold, atLeast80, Qle_bool. simpl.
  rewrite Z.leb_le. lia.
Qed.

Lemma meets_false (score : nat) (values : list JsValue) :
  meets score values = false <-> ~ atLeast80 score values.
Proof.
  rewrite <- meets_spec. destruct (meets score values); split; congruence.
Qed.

(** What [detectColumnType] answers, case by case. *)
Lemma detectColumnType_spec (values : list JsValue) :
  values <> [] ->
  (atLeast80 (booleanHits values) values ->
   detectColumnType values = TBoolean) /\
  (~ atLeast80 (booleanHits values) values ->
   atLeast80 (dateHits values) values ->
   detectColumnType values = TDate) /\
  (~ atLeast80 (booleanHits values) values ->
   ~ atLeast80 (dateHits values) values ->
   atLeast80 (numberHits values) values ->
   detectColumnType values = TNumber) /\
  (~ atLeast80 (booleanHits values) values ->
   ~ atLeast80 (dateHits values) values ->
   ~ atLeast80 (numberHits values) values ->
   detectColumnType values = TString).
Proof.
  intros Hne. destruct values as [|v0 rest]; [congruence|].
  set (values := v0 :: rest).
  destruct (scoreValues_hits values) as (Hb & Hd & Hn).
  change (detectColumnType values) with
    (let typeScores := scoreValues values in
     if meets (sc_boolean typeScores) values then TBoolean
     else if meets (sc_date typeScores) values then TDate
     else if meets (sc_number typeScores) values then TNumber
     else TString).
  cbv zeta. rewrite Hb, Hd, Hn.
  repeat split; intros;
    repeat match goal with
    | H : atLeast80 _ _ |- _ => apply meets_spec in H; rewrite H
    | H : ~ atLeast80 _ _ |- _ => apply meets_false in H; rewrite H
    end; reflexivity.
Qed.
End Scores.

(** C6, as the code has it: on a sample that is not empty, boolean literals
    in at least 80% of the values give boolean, whatever the date and
    number counts are, and date goes before number. *)
Theorem C6_boolean_before_date_before_number (values : list JsValue) :
  values <> [] ->
  (Vocabulary.atLeast80 (Vocabulary.booleanHits values) values ->
   FileParserService.detectColumnType values = TBoolean) /\
  (~ Vocabulary.atLeast80 (Vocabulary.booleanHits values) values ->
   Vocabulary.atLeast80 (Vocabulary.dateHits values) values ->
   FileParserService.detectColumnType values = TDate).
Proof.
  intros Hne. destruct (detectColumnType_spec Hne) as (Hb & Hd & _).
  split; assumption.
Qed.


Lemma C6_boolean_before_date_before_number_witness :
  Demo.zeroOnes <> [] /\
  Vocabulary.atLeast80 (Vocabulary.booleanHits Demo.zeroOnes) Demo.zeroOnes /\
  Vocabulary.atLeast80 (Vocabulary.numberHits Demo.zeroOnes) Demo.zeroOnes /\
  FileParserService.detectColumnType Demo.zeroOnes = TBoolean.
Proof.
  assert (Hne : Demo.zeroOnes <> []) by discriminate.
  assert (Hb : Vocabulary.atLeast80 (Vocabulary.booleanHits Demo.zeroOnes) Demo.zeroOnes)
    by (vm_compute; lia).
  split; [exact Hne|]. split; [exact Hb|]. split; [vm_compute; lia|].
  exact (proj1 (C6_boolean_before_date_before_number Hne) Hb).
Defined.

(** The empty sample: every share of nothing is at least 80%, and the guard
    on the empty sample answers string. *)
Lemma C6_counterexample :
  Vocabulary.atLeast80 (Vocabulary.booleanHits []) [] /\
  FileParserService.detectColumnType [] <> TBoolean.
Proof. split; [vm_compute; lia | discriminate]. Qed.

Section Nullable.
Import FileParserService Vocabulary.



End Nullable.






(* ================================================================== *)
(** ** Explore generation *)
(* ================================================================== *)

Section ExploreFacts.
Import AdhocTableExploreService Vocabulary.

Lemma objSet_new {V} (o : Obj V) (k : jsstring) (v : V) :
  ~ In k (objKeys o) -> objKeys (objSet o k v) = objKeys o ++ [k].
Proof.
  induction o as [|[k' v'] o IH]; simpl; [reflexivity|]. intros Hnin.
  destruct (JsFacts.eqb_spec k' k) as [->|Hne]; [tauto|].
  simpl. f_equal. apply IH. tauto.
Qed.

Lemma objSet_known {V} (o : Obj V) (k : jsstring) (v : V) :
  In k (objKeys o) -> objKeys (objSet o k v) = objKeys o.
Proof.
  induction o as [|[k' v'] o IH]; simpl; [tauto|]. intros Hin.
  destruct (JsFacts.eqb_spec k' k) as [->|Hne]; [reflexivity|].
  simpl. f_equal. apply IH. destruct Hin; [congruence | assumption].
Qed.

(** With pairwise distinct names every column adds a key. *)
Lemma reduceDimensions_keys (tableName : jsstring)
    (columns : list ColumnDefinition) :
  forall (acc : Obj CompiledDimension) (s : UuidSupply),
    NoDup (objKeys acc ++ fst (sanitizedNames columns s)) ->
    objKeys (fst (reduceDimensions tableName columns acc s))
      = objKeys acc ++ fst (sanitizedNames columns s).
Proof.
  induction columns as [|column rest IH]; intros acc s Hnd.
  - simpl. unfold gret; simpl. now rewrite app_nil_r.
  - cbn [reduceDimensions sanitizedNames] in *.
    unfold gbind, gret, addDimension in Hnd |- *.
    destruct (sanitizeFieldName (cd_name column) s) as [name s1] eqn:E.
    rewrite ?E in Hnd.
    destruct (sanitizedNames rest s1) as [names s2] eqn:E2.
    rewrite ?E2 in Hnd.
    cbn [fst] in Hnd |- *.
    unfold gbind, gret. rewrite E.
    assert (Hnew : ~ In name (objKeys acc)).
    { intros Hin. apply NoDup_remove_2 in Hnd. apply Hnd.
      apply in_or_app. now left. }
    rewrite IH; rewrite objSet_new by exact Hnew; rewrite E2; cbn [fst];
      rewrite <- app_assoc; [reflexivity | exact Hnd].
Qed.

Lemma generateExplore_tables (uuid tableName : jsstring)
    (columns : list ColumnDefinition) (warehouseType : jsstring)
    (s : UuidSupply) :
  let explore := fst (generateExplore uuid tableName columns warehouseType s) in
  dimensionsOf explore = fst (generateDimensions columns tableName s) /\
  metricsOf explore = generateMetrics tableName.
Proof.
  unfold generateExplore, gbind, gret, dimensionsOf, metricsOf, baseTableOf.
  destruct (generateDimensions columns tableName s) as [dims s'].
  simpl. rewrite JsFacts.eqb_refl. split; reflexivity.
Qed.

(** Columns whose sanitized names are pairwise distinct become one
    dimension each, keyed by the sanitized name, and the only metric is
    the row count, of type COUNT. *)
Lemma generateExplore_distinct_names (uuid tableName : jsstring)
    (columns : list ColumnDefinition) (warehouseType : jsstring)
    (s : UuidSupply) :
  NoDup (fst (sanitizedNames columns s)) ->
  let explore := fst (generateExplore uuid tableName columns warehouseType s) in
  objKeys (dimensionsOf explore) = fst (sanitizedNames columns s) /\
  length (dimensionsOf explore) = length columns /\
  map (fun kv => (fst kv, met_type (snd kv))) (metricsOf explore)
    = [(js "row_count", COUNT)].
Proof.
  intros Hnd explore.
  destruct (generateExplore_tables uuid tableName columns warehouseType s)
    as [Hd Hm].
  fold explore in Hd, Hm. rewrite Hd, Hm.
  pose proof (reduceDimensions_keys tableName columns [] s Hnd) as Hk.
  simpl in Hk. unfold generateDimensions. split; [exact Hk|].
  split; [|reflexivity].
  assert (Hlen : forall cs s0, length (fst (sanitizedNames cs s0)) = length cs).
  { induction cs as [|c cs IHcs]; intros s0; simpl; [reflexivity|].
    unfold gbind, gret.
    destruct (sanitizeFieldName (cd_name c) s0) as [n s1].
    specialize (IHcs s1). destruct (sanitizedNames cs s1) as [ns s2].
    simpl in *. now rewrite IHcs. }
  rewrite <- (Hlen columns s), <- Hk. unfold objKeys. now rewrite length_map.
Qed.
End ExploreFacts.


Lemma generateExplore_three_columns :
  let explore :=
    fst (AdhocTableExploreService.generateExplore (js "t1") (js "adhoc_t1")
           Demo.threeColumns (js "postgres") demoSupply) in
  map (fun kv => (fst kv, dim_type (snd kv)))
      (AdhocTableExploreService.dimensionsOf explore)
    = [(js "id", DimNUMBER); (js "active", DimBOOLEAN);
       (js "signup_date", DimDATE)] /\
  length (AdhocTableExploreService.dimensionsOf explore) = 3 /\
  map (fun kv => (fst kv, met_type (snd kv)))
      (AdhocTableExploreService.metricsOf explore)
    = [(js "row_count", COUNT)].
Proof. repeat split; reflexivity. Qed.

Lemma generateExplore_distinct_names_witness :
  length (AdhocTableExploreService.dimensionsOf
            (fst (AdhocTableExploreService.generateExplore (js "t1")
                    (js "adhoc_t1") Demo.threeColumns (js "postgres") demoSupply)))
    = 3.
Proof.
  refine (proj1 (proj2 (@generateExplore_distinct_names (js "t1")
    (js "adhoc_t1") Demo.threeColumns (js "postgres") demoSupply _))).
  vm_compute. repeat constructor; simpl; intuition discriminate.
Defined.


(** C10, at the failing input: the columns "a b" and "a_b" both become the
    key "a_b"; the Explore has one dimension for the two of them, the one of
    the second column, next to the row count metric. *)
Theorem C10_colliding_columns_share_one_dimension :
  let explore :=
    fst (AdhocTableExploreService.generateExplore (js "t1") (js "adhoc_t1")
           Demo.collidingColumns (js "postgres") demoSupply) in
  length Demo.collidingColumns = 2 /\
  map (fun kv => (fst kv, dim_label (snd kv), dim_type (snd kv)))
      (AdhocTableExploreService.dimensionsOf explore)
    = [(js "a_b", js "a_b", DimNUMBER)] /\
  length (AdhocTableExploreService.dimensionsOf explore) = 1 /\
  map (fun kv => (fst kv, met_type (snd kv)))
      (AdhocTableExploreService.metricsOf explore)
    = [(js "row_count", COUNT)].
Proof. repeat split; reflexivity. Qed.

(* ================================================================== *)
(** ** Methods: sequencing, and what registration and indexing touch *)
(* ================================================================== *)

Section MethodFacts.
Import Vocabulary.

Lemma bind_ok {A B} (m : M A) (f : A -> M B) (w w1 : World) (a : A) :
  m w = (Ok a, w1) -> bind m f w = f a w1.
Proof. unfold bind. now intros ->. Qed.


Lemma sameAssets_refl (w : World) : sameAssets w w.
Proof. unfold sameAssets; repeat split; reflexivity. Qed.

Lemma sameAssets_trans (w1 w2 w3 : World) :
  sameAssets w1 w2 -> sameAssets w2 w3 -> sameAssets w1 w3.
Proof.
  unfold sameAssets.
  intros (a1 & a2 & a3 & a4 & a5 & a6 & a7 & a8)
         (b1 & b2 & b3 & b4 & b5 & b6 & b7 & b8).
  repeat split; congruence.
Qed.

Lemma sameExplores_refl (w : World) : sameExplores w w.
Proof. reflexivity. Qed.

Lemma sameExplores_trans (w1 w2 w3 : World) :
  sameExplores w1 w2 -> sameExplores w2 w3 -> sameExplores w1 w3.
Proof. unfold sameExplores. congruence. Qed.

Lemma uniqueKept_refl (w : World) : uniqueKept w w.
Proof. intros H. exact H. Qed.

Lemma uniqueKept_trans (w1 w2 w3 : World) :
  uniqueKept w1 w2 -> uniqueKept w2 w3 -> uniqueKept w1 w3.
Proof. unfold uniqueKept. auto. Qed.

Lemma sameExplores_unique (w w' : World) :
  cached_explore w' = cached_explore w -> uniqueKept w w'.
Proof. unfold uniqueKept, uniqueExploreNames. now intros ->. Qed.

(** The operations of the monad keep every reflexive and transitive
    relation that their parts keep. *)
Section Frame.
Variable R : World -> World -> Prop.
Hypothesis R_refl : forall w, R w w.
Hypothesis R_trans : forall a b c, R a b -> R b c -> R a c.

Lemma keeps_ret {A} (a : A) : keeps R (ret a).
Proof. intros w. apply R_refl. Qed.

Lemma keeps_throw {A} (e : JsError) : keeps R (@throw A e).
Proof. intros w. apply R_refl. Qed.

Lemma keeps_readWorld {A} (f : World -> A) : keeps R (readWorld f).
Proof. intros w. apply R_refl. Qed.

Lemma keeps_liftOutcome {A} (o : Outcome A) : keeps R (liftOutcome o).
Proof. intros w. apply R_refl. Qed.

Lemma keeps_bind {A B} (m : M A) (f : A -> M B) :
  keeps R m -> (forall a, keeps R (f a)) -> keeps R (bind m f).
Proof.
  intros Hm Hf w. unfold bind. specialize (Hm w).
  destruct (m w) as [[a|e] w1]; simpl in *; [|exact Hm].
  eapply R_trans; [exact Hm | apply Hf].
Qed.

Lemma keeps_tryCatch {A} (m : M A) (h : JsError -> M A) :
  keeps R m -> (forall e, keeps R (h e)) -> keeps R (tryCatch m h).
Proof.
  intros Hm Hh w. unfold tryCatch. specialize (Hm w).
  destruct (m w) as [[a|e] w1]; simpl in *; [exact Hm|].
  eapply R_trans; [exact Hm | apply Hh].
Qed.

Lemma keeps_forEach {A} (f : A -> M unit) (l : list A) :
  (forall x, keeps R (f x)) -> keeps R (forEach f l).
Proof.
  intros Hf. induction l as [|x l IH]; simpl.
  - apply keeps_ret.
  - apply keeps_bind; [apply Hf | intros _; exact IH].
Qed.
End Frame.
End MethodFacts.

Create HintDb keeps.
#[local] Hint Resolve sameAssets_refl sameAssets_trans sameExplores_refl
  sameExplores_trans uniqueKept_refl uniqueKept_trans : keeps.

(** Closes a goal that relates a world to itself or to an update of it. *)
Ltac related :=
  first
    [ solve [eauto with keeps]
    | unfold Vocabulary.sameAssets; cbn; repeat split; reflexivity
    | unfold Vocabulary.sameExplores; reflexivity
    | apply sameExplores_unique; reflexivity ].

(** Walks a method built from the operations of the monad and closes the
    goals of its parts: the operations by the lemmas above, a step on the
    world by running it. *)
Ltac keeps :=
  repeat first
    [ progress intros
    | solve [eauto with keeps]
    | apply keeps_bind; [solve [eauto with keeps] | | ]
    | apply keeps_tryCatch; [solve [eauto with keeps] | | ]
    | apply keeps_forEach;
        [solve [eauto with keeps] | solve [eauto with keeps] | ]
    | apply keeps_ret; solve [eauto with keeps]
    | apply keeps_throw; solve [eauto with keeps]
    | apply keeps_readWorld; solve [eauto with keeps]
    | apply keeps_liftOutcome; solve [eauto with keeps]
    | match goal with
      | |- Vocabulary.keeps _ (fallible _ _) =>
          let w := fresh "w" in
          intro w; unfold fallible; destruct (faults w _ (ticks w)); related
      | |- Vocabulary.keeps _ (liftGen _) =>
          let w := fresh "w" in
          intro w; unfold liftGen;
          match goal with
          | |- context [let (_, _) := ?g in _] => destruct g
          end; related
      | |- Vocabulary.keeps _ gen_random_uuid => unfold gen_random_uuid
      | |- Vocabulary.keeps _ now => unfold now
      | |- Vocabulary.keeps _ (logLine _) => intro; related
      | |- Vocabulary.keeps _ (match ?x with _ => _ end) => destruct x
      | |- Vocabulary.keeps _ (fun _ => (Ok _, _)) => intro; related
      end ].

Section RegistrationKeepsAssets.
Import Vocabulary AdhocTableService AdhocTableCatalogService.

Lemma keeps_logLine (line : jsstring) : keeps sameAssets (logLine line).
Proof. keeps. Qed.

Lemma keeps_upsertCatalog (entry : CatalogRow) :
  keeps sameAssets (upsertCatalog entry).
Proof. unfold upsertCatalog. keeps. Qed.

Lemma keeps_findCachedExplore (p n : jsstring) :
  keeps sameAssets (findCachedExplore p n).
Proof. unfold findCachedExplore. keeps. Qed.

Lemma keeps_registerInCatalog (p t n : jsstring) (explore : Explore)
    (base : option jsstring) :
  keeps sameAssets (registerInCatalog p t n explore base).
Proof.
  unfold registerInCatalog.
  pose proof keeps_upsertCatalog. pose proof keeps_findCachedExplore.
  keeps.
Qed.

Lemma keeps_removeFromCatalog (p t : jsstring) :
  keeps sameAssets (removeFromCatalog p t).
Proof.
  unfold removeFromCatalog. pose proof keeps_findCachedExplore. keeps.
Qed.

Lemma keeps_upsertExplore (p n : jsstring) (explore : Explore) :
  keeps sameAssets (upsertExplore p n explore).
Proof. unfold upsertExplore. keeps. Qed.

Lemma keeps_registerExplore (p t wt : jsstring)
    (columns : list ColumnInference) (wtype : jsstring) :
  keeps sameAssets (registerExplore p t wt columns wtype).
Proof.
  unfold registerExplore. cbv zeta. pose proof keeps_upsertExplore. keeps.
Qed.

Lemma keeps_selectExplore (u : jsstring) : keeps sameAssets (selectExplore u).
Proof. unfold selectExplore. keeps. Qed.
End RegistrationKeepsAssets.

(* ================================================================== *)
(** ** Ingestion *)
(* ================================================================== *)

Section Ingestion.
Import FileParserService Vocabulary AdhocTableService.

Variable papaParse : jsstring -> PapaOutcome.
Variable xlsxRead : Buffer -> XlsxOutcome.
Variable clientOf : jsstring -> WarehouseClient.



Lemma getProject_run (w : World) (projectUuid : jsstring) :
  getProject projectUuid w = (Ok (projectOf w projectUuid), w).
Proof. reflexivity. Qed.

(** An upload to a project that is not there stops at the first step. *)
Lemma createFromFile_unknown_project (projectUuid userUuid : jsstring)
    (request : AdhocTableCreateRequest) (w : World) :
  projectOf w projectUuid = None ->
  createFromFile papaParse xlsxRead clientOf projectUuid userUuid request w
    = (Throw (NotFoundError
                (js "Project " ++ projectUuid ++ js " not found")), w).
Proof.
  intros Hp. unfold createFromFile.
  rewrite (@bind_ok _ _ _ _ _ _ _ (getProject_run w projectUuid)). rewrite Hp.
  reflexivity.
Qed.
End Ingestion.



Section IngestionSteps.
Import FileParserService Vocabulary AdhocTableService.

Lemma generateWarehouseTableName_run (tableName userUuid : jsstring)
    (w : World) :
  exists name,
    generateWarehouseTableName tableName userUuid w = (Ok name, w).
Proof. unfold generateWarehouseTableName. eexists. reflexivity. Qed.



(** A [try] whose [catch] only logs ends normally, whatever the body does;
    what the body keeps, the whole keeps. *)
Lemma tryCatch_logged (m : M unit) (line : JsError -> jsstring) (w : World) :
  exists w',
    tryCatch m (fun e => logLine (line e)) w = (Ok tt, w') /\
    (keeps sameAssets m -> sameAssets w w').
Proof.
  unfold tryCatch. pose proof (fun H : keeps sameAssets m => H w) as Hk.
  destruct (m w) as [[[]|e] w1]; simpl in *.
  - exists w1. split; [reflexivity | exact Hk].
  - eexists. split; [reflexivity|]. intros H.
    eapply sameAssets_trans; [exact (Hk H) | apply keeps_logLine].
Qed.


End IngestionSteps.



(** What the failures leave behind: with every registration statement
    failing there is no cached Explore and no catalog entry, and the failure
    is in the log; with the catalog statements failing the Explore is cached
    and the catalog is empty.  The upload succeeds both times. *)
Lemma createFromFile_degraded_runs :
  (let (outcome, w') :=
     Demo.createFromFile Demo.project1 Demo.alice Demo.signups
       (Demo.world0 Demo.registrationFails) in
   (match outcome with Ok _ => true | Throw _ => false end,
    length (adhoc_tables w'), length (warehouse w'),
    length (cached_explore w'), length (catalog_search w'), console w')
   = (true, 1, 1, 0, 0,
      [js "Failed to register explore for adhoc table: insert into cached_explore failed"])) /\
  (let (outcome, w') :=
     Demo.createFromFile Demo.project1 Demo.alice Demo.signups
       (Demo.world0 Demo.indexingFails) in
   (match outcome with Ok _ => true | Throw _ => false end,
    length (adhoc_tables w'), length (warehouse w'),
    length (cached_explore w'), length (catalog_search w'),
    length (console w'))
   = (true, 1, 1, 1, 0, 2)) /\
  (let (outcome, w') :=
     Demo.createFromFile Demo.project1 Demo.alice Demo.signups
       (Demo.world0 Demo.noFaults) in
   (match outcome with Ok _ => true | Throw _ => false end,
    length (adhoc_tables w'), length (warehouse w'),
    length (cached_explore w'), length (catalog_search w'))
   = (true, 1, 1, 1, 5)).
Proof. split; [|split]; vm_compute; reflexivity. Qed.

Section SuccessfulIngestion.
Import FileParserService Vocabulary AdhocTableService.

Variable papaParse : jsstring -> PapaOutcome.
Variable xlsxRead : Buffer -> XlsxOutcome.
Variable clientOf : jsstring -> WarehouseClient.

(** What the record of a successful ingestion carries as its metadata: the
    first 255 characters of the file's content under [fileName], and the
    counts of the parsed columns and rows. *)
Lemma createFromFile_metadata (projectUuid userUuid : jsstring)
    (request : AdhocTableCreateRequest) (w w' : World)
    (record : AdhocTableRecord) :
  createFromFile papaParse xlsxRead clientOf projectUuid userUuid request w
    = (Ok record, w') ->
  exists parsed,
    parseRequest papaParse xlsxRead request = Ok parsed /\
    md_fileName (rec_metadata record)
      = substring0 255 (bufferToString (req_file request)) /\
    md_columnCount (rec_metadata record) = length (parsed_columns parsed) /\
    md_rowCount (rec_metadata record) = length (parsed_rows parsed).
Proof.
  unfold createFromFile.
  rewrite (@bind_ok _ _ _ _ _ _ _ (getProject_run w projectUuid)).
  destruct (projectOf w projectUuid) as [project|]; [|discriminate].
  change (match req_fileType request with
          | CSV => parseCSV papaParse (req_file request)
          | EXCEL => parseExcel xlsxRead (req_file request)
          end) with (parseRequest papaParse xlsxRead request).
  destruct (parseRequest papaParse xlsxRead request) as [parsed|e] eqn:Hparse;
    [|discriminate].
  rewrite (@bind_ok _ _ _ _ w w parsed eq_refl).
  destruct (Nat.eqb (length (parsed_rows parsed)) 0); [discriminate|].
  destruct (generateWarehouseTableName_run (req_tableName request) userUuid w)
    as [name Hname].
  rewrite (@bind_ok _ _ _ _ _ _ _ Hname).
  unfold bind at 1.
  destruct (getWarehouseCredentialsForProject projectUuid w)
    as [[credentials|e] w0]; [|discriminate].
  unfold bind at 1.
  destruct (createWarehouseTable _ _ _ _ w0) as [[[]|e] w1]; [|discriminate].
  unfold bind at 1.
  destruct (gen_random_uuid w1) as [[u|e] w2]; [|discriminate].
  unfold bind at 1.
  destruct (now w2) as [[t|e] w2']; [|discriminate].
  unfold bind at 1. unfold insertAdhocTable at 1.
  destruct (existsb _ (adhoc_tables w2')); [discriminate|].
  unfold bind at 1.
  match goal with
  | |- context [tryCatch ?m ?h ?w3] => destruct (tryCatch m h w3) as [[[]|e] w4]
  end; [|discriminate].
  unfold ret. intros [= <- <-]. exists parsed. repeat split; reflexivity.
Qed.
End SuccessfulIngestion.

Lemma createFromFile_metadata_witness :
  exists parsed,
    Vocabulary.parseRequest Demo.papa Demo.xlsx Demo.signups = Ok parsed /\
    md_fileName (rec_metadata
      (match fst (Demo.createFromFile Demo.project1 Demo.alice Demo.signups
                    (Demo.world0 Demo.noFaults)) with
       | Ok record => record
       | Throw _ => AdhocTableService.formatRecord
                      (mkAdhocRow [] [] [] [] None [] [] [] [] None [] 0 0 None
                         (mkMetadata [] 0 CSV 0 0 0))
       end))
    = substring0 255 (bufferToString (req_file Demo.signups)) /\
    3 = length (FileParserService.parsed_columns parsed) /\
    3 = length (FileParserService.parsed_rows parsed).
Proof.
  refine (@createFromFile_metadata Demo.papa Demo.xlsx Demo.clientFor
            Demo.project1 Demo.alice Demo.signups (Demo.world0 Demo.noFaults)
            (snd (Demo.createFromFile Demo.project1 Demo.alice Demo.signups
                    (Demo.world0 Demo.noFaults))) _ _).
  vm_compute. reflexivity.
Defined.


(* ================================================================== *)
(** ** Access control *)
(* ================================================================== *)

Section Access.
Import Vocabulary AdhocTablePermissionService.

Lemma find_isSome {A} (p : A -> bool) (l : list A) :
  negb (isNull (find p l)) = existsb p l.
Proof.
  induction l as [|x l IH]; simpl; [reflexivity|].
  destruct (p x); simpl; [reflexivity | exact IH].
Qed.

Lemma userCanAccessProject_run (projectUuid userUuid : jsstring) (w : World) :
  userCanAccessProject projectUuid userUuid w
    = (Ok (isMember w projectUuid userUuid), w).
Proof.
  unfold userCanAccessProject, bind, readWorld, ret, isMember.
  now rewrite find_isSome.
Qed.

(** What [userCanAccessTable] answers: the table is live, and the user is
    its creator or the scope reads SHARED, in capitals, and the user is a
    member of the project.  The world is left as it is. *)
Lemma userCanAccessTable_run (tableUuid userUuid : jsstring) (w : World) :
  userCanAccessTable tableUuid userUuid w
    = (Ok match liveRow w tableUuid with
          | None => false
          | Some table =>
              Js.eqb (at_created_by table) userUuid
              || (Js.eqb (at_scope table) (js "SHARED")
                  && isMember w (at_project_uuid table) userUuid)
          end, w).
Proof.
  unfold userCanAccessTable.
  rewrite (@bind_ok _ _ (liveTable tableUuid) _ w w (liveRow w tableUuid)
             eq_refl).
  destruct (liveRow w tableUuid) as [table|]; [|reflexivity].
  destruct (Js.eqb (at_created_by table) userUuid); [reflexivity|].
  destruct (Js.eqb (at_scope table) (js "SHARED")); [|reflexivity].
  apply userCanAccessProject_run.
Qed.

(** The grants on record are not read: the answer is the same whatever
    [adhoc_table_access] holds. *)
Lemma userCanAccessTable_ignores_grants (tableUuid userUuid : jsstring)
    (w : World) (grants : list AccessRow) :
  fst (userCanAccessTable tableUuid userUuid
         (with_adhoc_table_access w grants))
  = fst (userCanAccessTable tableUuid userUuid w).
Proof. rewrite !userCanAccessTable_run. reflexivity. Qed.

(** On a table whose scope is one of the two values of the enum, in lower
    case as the store has them, only the creator is let in. *)
Lemma userCanAccessTable_enum_scope (tableUuid userUuid : jsstring)
    (w : World) (table : AdhocTableRow) (scope : AdhocTableScope) :
  liveRow w tableUuid = Some table ->
  at_scope table = scopeValue scope ->
  fst (userCanAccessTable tableUuid userUuid w)
    = Ok (Js.eqb (at_created_by table) userUuid).
Proof.
  intros Hlive Hscope. rewrite userCanAccessTable_run, Hlive, Hscope.
  simpl. destruct scope; simpl; now rewrite orb_false_r.
Qed.
End Access.

(** C1, at the failing input: alice uploads a personal table and grants bob,
    a member of the project, access to it.  The grant is on record and
    [userCanAccessTable] still answers false for bob.  A shared table is
    closed to bob as well, though [listByProject] shows it to him. *)
Theorem C1_grant_and_shared_scope_do_not_open_the_table :
  (let w1 := Demo.afterUpload Demo.signups in
   let (granted, w2) :=
     AdhocTablePermissionService.grantTableAccess Demo.tableId Demo.bob
       Demo.alice w1 in
   (granted,
    map at_uuid (adhoc_tables w1), map at_scope (adhoc_tables w1),
    Vocabulary.hasGrant w2 Demo.tableId Demo.bob,
    Vocabulary.isMember w2 Demo.project1 Demo.bob,
    fst (AdhocTablePermissionService.userCanAccessTable Demo.tableId
           Demo.alice w2),
    fst (AdhocTablePermissionService.userCanAccessTable Demo.tableId
           Demo.bob w2))
   = (Ok tt, [Demo.tableId], [js "personal"], true, true, Ok true, Ok false))
  /\
  (let w1 := Demo.afterUpload Demo.sharedSignups in
   (map at_scope (adhoc_tables w1),
    Vocabulary.isMember w1 Demo.project1 Demo.bob,
    match fst (AdhocTableService.listByProject Demo.project1 Demo.bob None w1)
    with
    | Ok tables => map lr_uuid tables
    | Throw _ => []
    end,
    fst (AdhocTablePermissionService.userCanAccessTable Demo.tableId
           Demo.bob w1))
   = ([js "shared"], true, [Demo.tableId], Ok false)).
Proof. split; vm_compute; reflexivity. Qed.

(* ================================================================== *)
(** ** Soft delete *)
(* ================================================================== *)

Section Deletion.
Import Vocabulary AdhocTableService AdhocTableCatalogService.
Import AdhocTablePermissionService.

Lemma softDelete_uuid (t : jsstring) (c : Z) (r : AdhocTableRow) :
  at_uuid (softDelete t c r) = at_uuid r.
Proof. unfold softDelete. destruct (Js.eqb (at_uuid r) t); reflexivity. Qed.

Lemma softDelete_sets (t : jsstring) (c : Z) (r : AdhocTableRow) :
  at_uuid r = t -> at_deleted_at (softDelete t c r) = Some c.
Proof. intros <-. unfold softDelete. now rewrite JsFacts.eqb_refl. Qed.


Lemma find_none_all {A} (p : A -> bool) (l : list A) :
  (forall x, In x l -> p x = false) -> find p l = None.
Proof.
  induction l as [|x l IH]; simpl; intros H; [reflexivity|].
  rewrite (H x (or_introl eq_refl)). apply IH. intros y Hy. apply H. now right.
Qed.

Lemma in_insertByCreatedAt (x r : AdhocTableRow) (l : list AdhocTableRow) :
  In x (insertByCreatedAt r l) -> x = r \/ In x l.
Proof.
  induction l as [|y l IH]; simpl.
  - intros [<-|[]]. now left.
  - destruct (at_created_at y <=? at_created_at r)%Z; simpl.
    + intros [<-|[<-|H]]; auto.
    + intros [<-|H]; auto. destruct (IH H); auto.
Qed.

Lemma in_orderByCreatedAtDesc (x : AdhocTableRow) (l : list AdhocTableRow) :
  In x (orderByCreatedAtDesc l) -> In x l.
Proof.
  unfold orderByCreatedAtDesc. induction l as [|y l IH]; simpl; [trivial|].
  intros H. apply in_insertByCreatedAt in H. destruct H as [<-|H]; auto.
Qed.

Lemma getTable_run (t : jsstring) (w : World) :
  getTable t w = (Ok (option_map formatRecord (liveRow w t)), w).
Proof. reflexivity. Qed.

Lemma userCanDeleteTable_run (t u : jsstring) (w : World) :
  userCanDeleteTable t u w
    = (Ok match liveRow w t with
          | None => false
          | Some table => Js.eqb (at_created_by table) u
          end, w).
Proof.
  unfold userCanDeleteTable.
  rewrite (@bind_ok _ _ (liveTable t) _ w w (liveRow w t) eq_refl).
  destruct (liveRow w t); reflexivity.
Qed.

(** A tombstoned table is in no result of [getTable] and [listByProject],
    whoever asks and with whatever options. *)
Lemma tombstoned_hidden (w : World) (t : jsstring) :
  tombstoned w t -> hidden w t.
Proof.
  intros [_ Hdead]. split.
  - rewrite getTable_run. unfold liveRow. rewrite find_none_all; [reflexivity|].
    intros r Hr. destruct (JsFacts.eqb_spec (at_uuid r) t) as [E|]; [|reflexivity].
    specialize (Hdead r Hr E). destruct (at_deleted_at r); [reflexivity|congruence].
  - intros p u o. unfold listByProject.
    rewrite (@bind_ok _ _ _ _ _ _ _ (userCanAccessProject_run p u w)).
    destruct (isMember w p u); simpl; [|exact I].
    rewrite map_map. simpl. intros Hin. apply in_map_iff in Hin.
    destruct Hin as (r & Hu & Hr). apply in_orderByCreatedAtDesc in Hr.
    apply filter_In in Hr. destruct Hr as [Hr Hq].
    unfold listQuery in Hq. rewrite !andb_true_iff in Hq.
    destruct Hq as [[[_ Hnull] _] _].
    specialize (Hdead r Hr Hu). destruct (at_deleted_at r); [discriminate|congruence].
Qed.

(** What [removeFromCatalog] does when its two statements go through. *)
Lemma removeFromCatalog_run (p t : jsstring) (w : World) :
  faults w ExploreSelect (ticks w) = false ->
  faults w CatalogDelete (S (ticks w)) = false ->
  catalog_search (snd (removeFromCatalog p t w))
    = match find (fun ce => Js.eqb (ce_project_uuid ce) p
                            && Js.eqb (ce_name ce) t) (cached_explore w) with
      | Some ce =>
          filter (fun e => negb (Js.eqb (cs_project_uuid e) p
                                 && Js.eqb (cs_cached_explore_uuid e)
                                      (ce_cached_explore_uuid ce)))
                 (catalog_search w)
      | None => catalog_search w
      end.
Proof.
  intros H1 H2.
  unfold removeFromCatalog, tryCatch, findCachedExplore, bind, fallible,
    readWorld. simpl. rewrite H1. simpl.
  destruct (find _ (cached_explore w)) as [ce|]; simpl; [|reflexivity].
  rewrite H2. reflexivity.
Qed.

Lemma removeFromCatalog_explores (p t : jsstring) (w : World) :
  cached_explore (snd (removeFromCatalog p t w)) = cached_explore w.
Proof.
  unfold removeFromCatalog, tryCatch, findCachedExplore, bind, fallible,
    readWorld, logLine. simpl.
  destruct (faults w ExploreSelect (ticks w)); simpl; [reflexivity|].
  destruct (find _ (cached_explore w)) as [ce|]; simpl; [|reflexivity].
  destruct (faults w CatalogDelete (S (ticks w))); reflexivity.
Qed.

Lemma removeFromCatalog_returns (p t : jsstring) (w : World) :
  fst (removeFromCatalog p t w) = Ok tt.
Proof.
  unfold removeFromCatalog.
  match goal with
  | |- fst (tryCatch ?m (fun error => logLine (@?line error)) w) = _ =>
      destruct (tryCatch_logged m line w) as (w' & -> & _)
  end.
  reflexivity.
Qed.

(** The run of an authorized [deleteTable] on a live table. *)
Lemma deleteTable_run (t u : jsstring) (w : World) (table : AdhocTableRow) :
  liveRow w t = Some table ->
  at_created_by table = u ->
  exists w',
    deleteTable t u w = (Ok tt, w') /\
    adhoc_tables w' = map (softDelete t (clock w)) (adhoc_tables w) /\
    cached_explore w' = cached_explore w /\
    (faults w ExploreSelect (ticks w) = false ->
     faults w CatalogDelete (S (ticks w)) = false ->
     catalog_search w'
       = match find (fun ce => Js.eqb (ce_project_uuid ce)
                                 (at_project_uuid table)
                               && Js.eqb (ce_name ce) t) (cached_explore w)
         with
         | Some ce =>
             filter (fun e => negb (Js.eqb (cs_project_uuid e)
                                      (at_project_uuid table)
                                    && Js.eqb (cs_cached_explore_uuid e)
                                         (ce_cached_explore_uuid ce)))
                    (catalog_search w)
         | None => catalog_search w
         end).
Proof.
  intros Hlive Hown. unfold deleteTable.
  rewrite (@bind_ok _ _ _ _ _ _ _ (getTable_run t w)), Hlive.
  cbn [option_map].
  rewrite (@bind_ok _ _ _ _ _ _ _ (userCanDeleteTable_run t u w)), Hlive.
  rewrite Hown, JsFacts.eqb_refl. cbn [negb].
  rewrite (@bind_ok _ _ now _ w w (clock w) eq_refl).
  set (w1 := with_adhoc_tables w (map (softDelete t (clock w)) (adhoc_tables w))).
  unfold bind at 1. cbv beta iota. fold w1.
  cbn [rec_projectUuid formatRecord].
  pose proof (removeFromCatalog_returns (at_project_uuid table) t w1) as Hret.
  pose proof (keeps_removeFromCatalog (at_project_uuid table) t w1) as Hkeep.
  pose proof (removeFromCatalog_run (at_project_uuid table) t w1) as Hcat.
  pose proof (removeFromCatalog_explores (at_project_uuid table) t w1) as Hex.
  unfold tryCatch.
  destruct (removeFromCatalog (at_project_uuid table) t w1) as [o w2].
  simpl in Hret, Hkeep, Hcat, Hex. subst o.
  destruct Hkeep as (Hrows & _).
  exists w2. split; [reflexivity|]. split; [exact Hrows|].
  split; [exact Hex | exact Hcat].
Qed.

Lemma tombstoned_after_softDelete (w w' : World) (t : jsstring) (c : Z)
    (table : AdhocTableRow) :
  liveRow w t = Some table ->
  adhoc_tables w' = map (softDelete t c) (adhoc_tables w) ->
  tombstoned w' t /\
  In (softDelete t c table) (adhoc_tables w') /\
  at_deleted_at (softDelete t c table) = Some c.
Proof.
  intros Hlive Hrows. apply find_some in Hlive. destruct Hlive as [Hin Hp].
  apply andb_true_iff in Hp. destruct Hp as [Hu _].
  apply JsFacts.eqb_eq in Hu.
  assert (Hin' : In (softDelete t c table) (adhoc_tables w'))
    by (rewrite Hrows; now apply in_map).
  split; [split|split].
  - exists (softDelete t c table). split; [exact Hin'|].
    now rewrite softDelete_uuid.
  - intros r Hr Hru. rewrite Hrows in Hr. apply in_map_iff in Hr.
    destruct Hr as (r0 & <- & _). rewrite softDelete_uuid in Hru.
    rewrite (@softDelete_sets t c r0 Hru). discriminate.
  - exact Hin'.
  - now apply softDelete_sets.
Qed.


End Deletion.

Section Calls.
Import FileParserService Vocabulary AdhocTableService Api.
Import AdhocTablePermissionService.

Variable papaParse : jsstring -> PapaOutcome.
Variable xlsxRead : Buffer -> XlsxOutcome.
Variable clientOf : jsstring -> WarehouseClient.

Lemma getWarehouseCredentials_world (p : jsstring) (w : World) :
  snd (getWarehouseCredentialsForProject p w) = w.
Proof.
  unfold getWarehouseCredentialsForProject.
  rewrite (@bind_ok _ _ _ _ _ _ _ (getProject_run w p)).
  destruct (projectOf w p); reflexivity.
Qed.

Lemma createWarehouseTable_rows (client : WarehouseClient) (name : jsstring)
    (rows : list Row) (columns : list ColumnInference) (w : World) :
  adhoc_tables (snd (createWarehouseTable client name rows columns w))
    = adhoc_tables w.
Proof.
  destruct client as [helper|]; [|reflexivity].
  unfold createWarehouseTable, createTableFromData, bind, tryCatch, fallible,
    throw. simpl.
  destruct (Nat.eqb (length rows) 0); simpl; [reflexivity|].
  destruct (faults w WarehouseCreate (ticks w)); reflexivity.
Qed.

Lemma createFromFile_rows (p u : jsstring) (request : AdhocTableCreateRequest)
    (w : World) :
  rowsStep w (snd (createFromFile papaParse xlsxRead clientOf p u request w)).
Proof.
  remember (snd (createFromFile papaParse xlsxRead clientOf p u request w))
    as w' eqn:Hw'.
  unfold rowsStep. revert Hw'. unfold createFromFile.
  rewrite (@bind_ok _ _ _ _ _ _ _ (getProject_run w p)).
  destruct (projectOf w p) as [project|]; [|intros ->; left; reflexivity].
  change (match req_fileType request with
          | CSV => parseCSV papaParse (req_file request)
          | EXCEL => parseExcel xlsxRead (req_file request)
          end) with (parseRequest papaParse xlsxRead request).
  destruct (parseRequest papaParse xlsxRead request) as [parsed|e];
    [|intros ->; left; reflexivity].
  rewrite (@bind_ok _ _ _ _ w w parsed eq_refl).
  destruct (Nat.eqb (length (parsed_rows parsed)) 0);
    [intros ->; left; reflexivity|].
  destruct (generateWarehouseTableName_run (req_tableName request) u w)
    as [name Hname].
  rewrite (@bind_ok _ _ _ _ _ _ _ Hname).
  unfold bind at 1. pose proof (getWarehouseCredentials_world p w) as H0.
  destruct (getWarehouseCredentialsForProject p w) as [[credentials|e] w0];
    simpl in H0; subst w0; [|intros ->; left; reflexivity].
  unfold bind at 1.
  pose proof (createWarehouseTable_rows (clientOf credentials) name
                (parsed_rows parsed) (parsed_columns parsed) w) as H1.
  destruct (createWarehouseTable _ _ _ _ w) as [[[]|e] w1]; simpl in H1;
    [|intros ->; left; exact H1].
  set (w2 := with_supply w1 (mkSupply (us_draw (supply w1))
                               (S (us_next (supply w1))))).
  rewrite (@bind_ok _ _ gen_random_uuid _ w1 w2
             (us_draw (supply w1) (us_next (supply w1))) eq_refl).
  rewrite (@bind_ok _ _ now _ w2 w2 (clock w2) eq_refl).
  match goal with
  | |- context [insertAdhocTable ?r] => set (row := r)
  end.
  unfold bind at 1. unfold insertAdhocTable at 1.
  change (adhoc_tables w2) with (adhoc_tables w1). rewrite H1.
  destruct (existsb _ (adhoc_tables w)) eqn:Hfresh;
    [intros ->; left; exact H1|].
  match goal with
  | |- context [bind (tryCatch ?m (fun error => logLine (@?line error)))
                  _ ?w3] =>
      destruct (tryCatch_logged m line w3) as (w4 & Hrun & Hkeep);
      rewrite (@bind_ok _ _ _ _ _ _ _ Hrun)
  end.
  assert (Hsame : adhoc_tables w4 = adhoc_tables w ++ [row]).
  { refine (proj1 (Hkeep _)).
    pose proof keeps_registerExplore. pose proof keeps_selectExplore.
    pose proof keeps_registerInCatalog. keeps. }
  intros ->. right. left. exists row. split; [exact Hsame | exact Hfresh].
Qed.

Lemma listByProject_world (p u : jsstring) (o : option ListOptions)
    (w : World) :
  snd (listByProject p u o w) = w.
Proof.
  unfold listByProject.
  rewrite (@bind_ok _ _ _ _ _ _ _ (userCanAccessProject_run p u w)).
  destruct (isMember w p u); reflexivity.
Qed.

Lemma deleteTable_rows (t u : jsstring) (w : World) :
  rowsStep w (snd (deleteTable t u w)).
Proof.
  unfold rowsStep.
  destruct (liveRow w t) as [table|] eqn:Hlive.
  - destruct (JsFacts.eqb_spec (at_created_by table) u) as [Hown|Hother].
    + destruct (deleteTable_run t w Hlive Hown) as (w' & -> & Hrows & _).
      right. right. exists t, (clock w). exact Hrows.
    + left. unfold deleteTable.
      rewrite (@bind_ok _ _ _ _ _ _ _ (getTable_run t w)), Hlive.
      cbn [option_map].
      rewrite (@bind_ok _ _ _ _ _ _ _ (userCanDeleteTable_run t u w)), Hlive.
      apply JsFacts.eqb_neq in Hother. rewrite Hother. reflexivity.
  - left. unfold deleteTable.
    rewrite (@bind_ok _ _ _ _ _ _ _ (getTable_run t w)), Hlive. reflexivity.
Qed.

Lemma grantTableAccess_rows (t u g : jsstring) (w : World) :
  adhoc_tables (snd (grantTableAccess t u g w)) = adhoc_tables w.
Proof.
  unfold grantTableAccess, userCanShareTable.
  rewrite (@bind_ok _ _ _ _ _ _ _ (userCanDeleteTable_run t g w)).
  destruct (negb _); reflexivity.
Qed.

Lemma revokeTableAccess_rows (t u r : jsstring) (w : World) :
  adhoc_tables (snd (revokeTableAccess t u r w)) = adhoc_tables w.
Proof.
  unfold revokeTableAccess, userCanShareTable.
  rewrite (@bind_ok _ _ _ _ _ _ _ (userCanDeleteTable_run t r w)).
  destruct (negb _); reflexivity.
Qed.

(** Every call of the services changes [adhoc_tables] by one of the three
    steps. *)
Lemma afterCall_rowsStep (w : World) (c : Call) :
  rowsStep w (afterCall papaParse xlsxRead clientOf w c).
Proof.
  destruct c as [p u request|p u o|t|t u|t u|t u g|t u r]; simpl.
  - apply createFromFile_rows.
  - left. now rewrite listByProject_world.
  - left. reflexivity.
  - apply deleteTable_rows.
  - left. now rewrite userCanAccessTable_run.
  - left. apply grantTableAccess_rows.
  - left. apply revokeTableAccess_rows.
Qed.


End Calls.




(** The runs behind the theorem.  After the upload the catalog holds five
    entries of the table.  A delete by bob is refused and changes nothing.
    A delete by alice empties the catalog and keeps the row; when the
    statement on [catalog_search] fails, the delete still returns, the row
    is tombstoned, and the five entries stay. *)
Lemma deleteTable_runs :
  (let w := Demo.afterUpload Demo.signups in
   let (outcome, w') :=
     AdhocTableService.deleteTable Demo.tableId Demo.bob w in
   (outcome, map at_deleted_at (adhoc_tables w'), length (catalog_search w'))
   = (Throw (ForbiddenError (js "Only table owner can delete this table")),
      [None], 5)) /\
  (let w := Demo.afterUpload Demo.signups in
   let (outcome, w') :=
     AdhocTableService.deleteTable Demo.tableId Demo.alice w in
   (outcome, map at_deleted_at (adhoc_tables w'), length (catalog_search w'),
    fst (AdhocTableService.getTable Demo.tableId w'),
    match fst (AdhocTableService.listByProject Demo.project1 Demo.alice
                 (Some (mkListOptions None (Some true))) w') with
    | Ok tables => map lr_uuid tables
    | Throw _ => [Demo.tableId]
    end)
   = (Ok tt, [Some 1700000000000%Z], 0, Ok None, [])) /\
  (let w := snd (Demo.createFromFile Demo.project1 Demo.alice Demo.signups
                   (Demo.world0 Demo.removalFails)) in
   let (outcome, w') :=
     AdhocTableService.deleteTable Demo.tableId Demo.alice w in
   (outcome, map at_deleted_at (adhoc_tables w'), length (catalog_search w'),
    fst (AdhocTableService.getTable Demo.tableId w'), hd [] (console w'))
   = (Ok tt, [Some 1700000000000%Z], 5, Ok None,
      js "Failed to remove adhoc table a0000000-0000-4000-8000-000000000000 from catalog: delete from catalog_search failed")).
Proof. split; [|split]; vm_compute; reflexivity. Qed.

(* ================================================================== *)
(** ** The field-name sanitizer is idempotent *)
(* ================================================================== *)

Section FieldNames.
Import Vocabulary AdhocTableExploreService.

Lemma lowerWordChar_lower (c : ascii) :
  isLowerWordChar c = true -> lowerChar c = c.
Proof.
  destruct (isUnderscore c) eqn:Eu.
  - apply Ascii.eqb_eq in Eu. subst c. reflexivity.
  - unfold isLowerWordChar. rewrite Eu, orb_false_r.
    unfold lowerChar, isLower, isDigit, isUpper, between. intros H.
    destruct ((65 <=? code c)%N && (code c <=? 90)%N
              || (192 <=? code c)%N && (code c <=? 222)%N
                 && negb (code c =? 215)%N) eqn:E; [|reflexivity].
    exfalso. apply orb_true_iff in E. apply orb_true_iff in H.
    rewrite !andb_true_iff, !N.leb_le in *.
    destruct H as [H|H]; destruct E as [E|[E _]]; lia.
Qed.

Lemma toLowerCase_fixed (s : jsstring) :
  forallb isLowerWordChar s = true -> toLowerCase s = s.
Proof.
  induction s as [|c s IH]; simpl; [reflexivity|]. intros H.
  apply andb_true_iff in H. destruct H as [Hc Hs].
  now rewrite (lowerWordChar_lower c Hc), (IH Hs).
Qed.

Lemma replace_fixed (s : jsstring) :
  forallb isLowerWordChar s = true ->
  replaceAllChars (fun c => negb (isLowerWordChar c)) underscore s = s.
Proof.
  induction s as [|c s IH]; simpl; [reflexivity|]. intros H.
  apply andb_true_iff in H. destruct H as [Hc Hs].
  now rewrite Hc, (IH Hs).
Qed.

Lemma replace_lowerWord (s : jsstring) :
  forallb isLowerWordChar
    (replaceAllChars (fun c => negb (isLowerWordChar c)) underscore s) = true.
Proof.
  induction s as [|c s IH]; simpl; [reflexivity|].
  rewrite IH, andb_true_r. destruct (isLowerWordChar c) eqn:E; simpl;
    [exact E | reflexivity].
Qed.

Lemma collapse_cons2 (c d : ascii) (s : jsstring) :
  collapseUnderscores (c :: d :: s)
  = if isUnderscore c
    then if isUnderscore d then collapseUnderscores (d :: s)
         else c :: collapseUnderscores (d :: s)
    else c :: collapseUnderscores (d :: s).
Proof. reflexivity. Qed.

Lemma noRun_cons2 (c d : ascii) (s : jsstring) :
  noRun (c :: d :: s)
  = negb (isUnderscore c && isUnderscore d) && noRun (d :: s).
Proof. reflexivity. Qed.

Lemma collapse_fixed (s : jsstring) :
  noRun s = true -> collapseUnderscores s = s.
Proof.
  induction s as [|c [|d s] IH]; [reflexivity| |].
  - intros _. simpl. destruct (isUnderscore c); reflexivity.
  - rewrite noRun_cons2, collapse_cons2. intros H.
    apply andb_true_iff in H. destruct H as [Hcd Hs].
    rewrite (IH Hs).
    destruct (isUnderscore c), (isUnderscore d); try reflexivity.
    discriminate Hcd.
Qed.

Lemma collapse_head (s : jsstring) :
  match s, collapseUnderscores s with
  | c :: _, c' :: _ => c' = c
  | [], [] => True
  | _, _ => False
  end.
Proof.
  induction s as [|c [|d s] IH]; [exact I| |].
  - simpl. destruct (isUnderscore c); reflexivity.
  - rewrite collapse_cons2.
    destruct (isUnderscore c) eqn:Ec; [|reflexivity].
    destruct (isUnderscore d) eqn:Ed; [|reflexivity].
    cbv beta iota in IH.
    destruct (collapseUnderscores (d :: s)) as [|c' r]; [exact IH|].
    subst c'. apply Ascii.eqb_eq in Ec, Ed. congruence.
Qed.

Lemma collapse_noRun (s : jsstring) : noRun (collapseUnderscores s) = true.
Proof.
  induction s as [|c [|d s] IH]; [reflexivity| |].
  - simpl. destruct (isUnderscore c); reflexivity.
  - rewrite collapse_cons2.
    pose proof (collapse_head (d :: s)) as Hhead. cbv beta iota in Hhead.
    destruct (collapseUnderscores (d :: s)) as [|d' r];
      [exfalso; exact Hhead|].
    subst d'.
    destruct (isUnderscore c) eqn:Ec; [destruct (isUnderscore d) eqn:Ed|];
      try exact IH; rewrite noRun_cons2, IH, ?Ec, ?Ed; reflexivity.
Qed.

Lemma collapse_lowerWord (s : jsstring) :
  forallb isLowerWordChar s = true ->
  forallb isLowerWordChar (collapseUnderscores s) = true.
Proof.
  induction s as [|c [|d s] IH]; [reflexivity| |].
  - simpl. destruct (isUnderscore c); trivial.
  - intros H. rewrite collapse_cons2.
    change (forallb isLowerWordChar (c :: d :: s)) with
      (isLowerWordChar c && forallb isLowerWordChar (d :: s)) in H.
    apply andb_true_iff in H. destruct H as [Hc Hs].
    specialize (IH Hs).
    destruct (isUnderscore c); [destruct (isUnderscore d)|];
      try exact IH; cbn [forallb]; now rewrite Hc, IH.
Qed.

(** Suffixes and prefixes keep what holds of every character and of every
    pair of neighbours. *)
Lemma dropWhile_lowerWord (p : ascii -> bool) (s : jsstring) :
  forallb isLowerWordChar s = true ->
  forallb isLowerWordChar (dropWhile p s) = true.
Proof.
  induction s as [|c s IH]; simpl; [trivial|]. intros H.
  destruct (p c); [|exact H].
  apply andb_true_iff in H. now apply IH.
Qed.

Lemma dropWhile_noRun (p : ascii -> bool) (s : jsstring) :
  noRun s = true -> noRun (dropWhile p s) = true.
Proof.
  induction s as [|c s IH]; [trivial|]. intros H.
  cbn [dropWhile]. destruct (p c); [|exact H].
  apply IH. destruct s as [|d s]; [reflexivity|].
  simpl in H. apply andb_true_iff in H. exact (proj2 H).
Qed.

Lemma forallb_rev {A} (f : A -> bool) (l : list A) :
  forallb f (rev l) = forallb f l.
Proof.
  induction l as [|x l IH]; simpl; [reflexivity|].
  rewrite forallb_app, IH. simpl. rewrite andb_true_r. apply andb_comm.
Qed.

Lemma noRun_prefix (a b : jsstring) :
  noRun (a ++ b) = true -> noRun a = true.
Proof.
  induction a as [|x [|y a] IH]; [reflexivity | reflexivity |].
  change ((x :: y :: a) ++ b) with (x :: y :: (a ++ b)).
  rewrite !noRun_cons2. intros H. apply andb_true_iff in H.
  destruct H as [Hxy Hrest]. rewrite Hxy. apply IH. exact Hrest.
Qed.

Lemma dropWhile_suffix (p : ascii -> bool) (s : jsstring) :
  exists v, s = v ++ dropWhile p s.
Proof.
  induction s as [|c s [v IH]]; [now exists []|].
  cbn [dropWhile]. destruct (p c).
  - exists (c :: v). simpl. now rewrite <- IH.
  - now exists [].
Qed.

Lemma dropWhileEnd_prefix (p : ascii -> bool) (s : jsstring) :
  exists u, s = dropWhileEnd p s ++ u.
Proof.
  unfold dropWhileEnd. destruct (dropWhile_suffix p (rev s)) as [v Hv].
  exists (rev v). rewrite <- rev_app_distr, <- Hv. now rewrite rev_involutive.
Qed.

Lemma dropWhileEnd_lowerWord (p : ascii -> bool) (s : jsstring) :
  forallb isLowerWordChar s = true ->
  forallb isLowerWordChar (dropWhileEnd p s) = true.
Proof.
  intros H. unfold dropWhileEnd. rewrite forallb_rev.
  apply dropWhile_lowerWord. now rewrite forallb_rev.
Qed.

Lemma dropWhileEnd_noRun (p : ascii -> bool) (s : jsstring) :
  noRun s = true -> noRun (dropWhileEnd p s) = true.
Proof.
  intros H. destruct (dropWhileEnd_prefix p s) as [u Hu].
  rewrite Hu in H. exact (noRun_prefix _ _ H).
Qed.

Lemma dropWhileEnd_fixed (p : ascii -> bool) (s : jsstring) :
  match rev s with [] => True | c :: _ => p c = false end ->
  dropWhileEnd p s = s.
Proof.
  intros H. unfold dropWhileEnd. rewrite dropWhile_nop by exact H.
  apply rev_involutive.
Qed.

Lemma stripUnderscores_no_trailing (s : jsstring) :
  startsWithUnderscore (rev (stripUnderscores s)) = false.
Proof.
  unfold stripUnderscores, dropWhileEnd. rewrite rev_involutive.
  pose proof (dropWhile_head isUnderscore (rev (dropWhile isUnderscore s))) as H.
  destruct (dropWhile isUnderscore (rev (dropWhile isUnderscore s)));
    [reflexivity | exact H].
Qed.
End FieldNames.

Section FieldNameIdempotence.
Import Vocabulary AdhocTableExploreService.

Lemma lowerAndReplace_canonical (name : jsstring) :
  canonical (lowerAndReplace name).
Proof.
  unfold canonical, lowerAndReplace.
  set (r := replaceAllChars _ underscore (toLowerCase name)).
  assert (Hw : forallb isLowerWordChar (collapseUnderscores r) = true)
    by (apply collapse_lowerWord, replace_lowerWord).
  pose proof (collapse_noRun r) as Hn.
  repeat split.
  - unfold stripUnderscores.
    now apply dropWhileEnd_lowerWord, dropWhile_lowerWord.
  - unfold stripUnderscores.
    now apply dropWhileEnd_noRun, dropWhile_noRun.
  - apply stripUnderscores_no_leading.
  - apply stripUnderscores_no_trailing.
Qed.

Lemma stripUnderscores_fixed (s : jsstring) :
  startsWithUnderscore s = false ->
  startsWithUnderscore (rev s) = false ->
  stripUnderscores s = s.
Proof.
  intros Hl Ht. unfold stripUnderscores.
  rewrite (@dropWhile_nop isUnderscore s).
  - apply dropWhileEnd_fixed. destruct (rev s); [exact I | exact Ht].
  - destruct s; [exact I | exact Hl].
Qed.

Lemma lowerAndReplace_fixed (s : jsstring) :
  canonical s -> lowerAndReplace s = s.
Proof.
  intros (Hw & Hn & Hl & Ht). unfold lowerAndReplace.
  rewrite (@toLowerCase_fixed s Hw), (@replace_fixed s Hw),
    (@collapse_fixed s Hn).
  now apply stripUnderscores_fixed.
Qed.

(** An underscore before a canonical name that starts with a digit is taken
    off again by the chain of replacements. *)
Lemma lowerAndReplace_prefixed (s : jsstring) :
  canonical s -> startsWithDigit s = true ->
  lowerAndReplace (underscore :: s) = s.
Proof.
  intros (Hw & Hn & Hl & Ht) Hd. unfold lowerAndReplace.
  assert (Hw' : forallb isLowerWordChar (underscore :: s) = true)
    by (simpl; now rewrite Hw).
  rewrite (@toLowerCase_fixed _ Hw'), (@replace_fixed _ Hw').
  destruct s as [|c s]; [discriminate|]. simpl in Hd.
  pose proof (@digit_not_underscore c Hd) as Hc.
  rewrite collapse_cons2. change (isUnderscore underscore) with true.
  rewrite Hc, (@collapse_fixed (c :: s) Hn).
  unfold stripUnderscores. cbn [dropWhile].
  change (isUnderscore underscore) with true. cbn iota.
  rewrite Hc. apply dropWhileEnd_fixed.
  destruct (rev (c :: s)); [exact I | exact Ht].
Qed.

Lemma lowerHex_lowerWord (h : jsstring) :
  forallb isLowerHex h = true ->
  forallb isLowerWordChar h = true /\
  forallb (fun c => negb (isUnderscore c)) h = true.
Proof.
  induction h as [|c h IH]; simpl; [auto|]. intros H.
  apply andb_true_iff in H. destruct H as [Hc Hh].
  destruct (IH Hh) as [H1 H2]. rewrite H1, H2, !andb_true_r.
  unfold isLowerHex, isLowerWordChar, isLower, isDigit, isUnderscore,
    underscore, between in *.
  apply orb_true_iff in Hc. rewrite !andb_true_iff, !N.leb_le in Hc.
  split.
  - apply orb_true_iff. left. apply orb_true_iff.
    rewrite !andb_true_iff, !N.leb_le. destruct Hc as [Hc|Hc]; [right|left]; lia.
  - destruct (Ascii.eqb_spec c "_"%char) as [->|]; [|reflexivity].
    vm_compute in Hc. destruct Hc as [[_ Hc]|[Hc _]]; exfalso; apply Hc;
      reflexivity.
Qed.

Lemma noRun_no_underscores (h : jsstring) :
  forallb (fun c => negb (isUnderscore c)) h = true -> noRun h = true.
Proof.
  induction h as [|c [|d h] IH]; [reflexivity | reflexivity |].
  intros H. rewrite noRun_cons2.
  change (negb (isUnderscore c)
          && forallb (fun c => negb (isUnderscore c)) (d :: h) = true) in H.
  apply andb_true_iff in H. destruct H as [Hc Hh].
  apply negb_true_iff in Hc. rewrite Hc. simpl andb. now apply IH.
Qed.

(** The placeholder of an empty name is canonical. *)
Lemma placeholder_canonical (h : jsstring) :
  h <> [] -> forallb isLowerHex h = true -> canonical (js "column_" ++ h).
Proof.
  intros Hne Hhex. destruct (@lowerHex_lowerWord h Hhex) as [Hw Hnu].
  unfold canonical. repeat split.
  - rewrite forallb_app, Hw. reflexivity.
  - destruct h as [|c h]; [congruence|].
    pose proof (@noRun_no_underscores (c :: h) Hnu) as Hn.
    simpl in Hnu. apply andb_true_iff in Hnu. destruct Hnu as [Hc _].
    apply negb_true_iff in Hc.
    change (js "column_" ++ c :: h) with
      ("c"%char :: "o"%char :: "l"%char :: "u"%char :: "m"%char :: "n"%char
        :: "_"%char :: c :: h).
    rewrite !noRun_cons2, Hc, Hn. reflexivity.
  - rewrite rev_app_distr.
    destruct (rev h) as [|c r] eqn:E.
    + apply (f_equal (@rev ascii)) in E. rewrite rev_involutive in E.
      simpl in E. congruence.
    + assert (Hin : In c h) by (apply in_rev; rewrite E; now left).
      rewrite forallb_forall in Hnu. specialize (Hnu c Hin).
      apply negb_true_iff in Hnu. exact Hnu.
Qed.

Lemma sanitizeFieldName_value (name : jsstring) (s : UuidSupply) :
  fst (sanitizeFieldName name s)
  = match lowerAndReplace name with
    | [] => js "column_" ++ substring0 8 (us_draw s (us_next s))
    | c :: t => if isDigit c then underscore :: c :: t else c :: t
    end.
Proof.
  unfold sanitizeFieldName.
  destruct (lowerAndReplace name) as [|c t]; [reflexivity|].
  cbn [startsWithDigit]. destruct (isDigit c); reflexivity.
Qed.

Lemma sanitizeFieldName_made (r : jsstring) (s : UuidSupply) :
  r <> [] ->
  (if startsWithDigit (lowerAndReplace r) then underscore :: lowerAndReplace r
   else lowerAndReplace r) = r ->
  sanitizeFieldName r s = (r, s).
Proof.
  intros Hne Hfix. unfold sanitizeFieldName. rewrite Hfix.
  destruct r; [congruence | reflexivity].
Qed.

(** [sanitizeFieldName] is idempotent: on a name it has made, whether from
    the characters of a column name or from the first characters of a uuid,
    it changes nothing and draws nothing. *)
Lemma sanitizeFieldName_idempotent (name : jsstring) (s1 s2 : UuidSupply) :
  uuidLike (us_draw s1 (us_next s1)) ->
  sanitizeFieldName (fst (sanitizeFieldName name s1)) s2
    = (fst (sanitizeFieldName name s1), s2).
Proof.
  intros [Hne Hhex]. rewrite sanitizeFieldName_value.
  pose proof (lowerAndReplace_canonical name) as Hcan.
  destruct (lowerAndReplace name) as [|c t] eqn:E.
  - (* the placeholder *)
    set (h := substring0 8 (us_draw s1 (us_next s1))) in *.
    pose proof (@placeholder_canonical h Hne Hhex) as Hp.
    apply sanitizeFieldName_made; [discriminate|].
    rewrite (@lowerAndReplace_fixed _ Hp). reflexivity.
  - destruct (isDigit c) eqn:Hd.
    + (* a leading digit: the underscore is taken off and put back *)
      apply sanitizeFieldName_made; [discriminate|].
      rewrite (@lowerAndReplace_prefixed (c :: t) Hcan Hd).
      cbn [startsWithDigit]. now rewrite Hd.
    + apply sanitizeFieldName_made; [discriminate|].
      rewrite (@lowerAndReplace_fixed (c :: t) Hcan).
      cbn [startsWithDigit]. now rewrite Hd.
Qed.

End FieldNameIdempotence.

Lemma sanitizeFieldName_idempotent_witness :
  AdhocTableExploreService.sanitizeFieldName
    (fst (AdhocTableExploreService.sanitizeFieldName (js "12") demoSupply))
    demoSupply
  = (js "_12", demoSupply).
Proof.
  apply (@sanitizeFieldName_idempotent (js "12") demoSupply demoSupply).
  split; [discriminate | reflexivity].
Defined.

(** The helpers' cut to the length limit comes after the stripping, so it
    can leave an underscore at the end, which a second pass strips: a second
    defect against idempotence, apart from the leading digit. *)
Lemma truncation_breaks_idempotence :
  let name := repeat "a"%char 62 ++ js "_b" in
  PostgresAdhocTableHelper.sanitizeColumnName name
    = repeat "a"%char 62 ++ js "_" /\
  PostgresAdhocTableHelper.sanitizeColumnName
    (PostgresAdhocTableHelper.sanitizeColumnName name)
    = repeat "a"%char 62.
Proof. split; vm_compute; reflexivity. Qed.

(* ================================================================== *)
(** ** The unique index of the Explore cache is an invariant *)
(* ================================================================== *)

Section UniqueIndex.
Import FileParserService Vocabulary AdhocTableService Api.
Import AdhocTablePermissionService AdhocTableCatalogService.

Variable papaParse : jsstring -> PapaOutcome.
Variable xlsxRead : Buffer -> XlsxOutcome.
Variable clientOf : jsstring -> WarehouseClient.

Lemma mergeExplore_keys (rows : list CachedExploreRow) (p n : jsstring)
    (explore : Explore) :
  match mergeExplore rows p n explore with
  | Some (rows', _) => map exploreKey rows' = map exploreKey rows
  | None => ~ In (p, n) (map exploreKey rows)
  end.
Proof.
  induction rows as [|r rows IH]; simpl; [tauto|].
  destruct (JsFacts.eqb_spec (ce_project_uuid r) p) as [Hp|Hp]; simpl.
  - destruct (JsFacts.eqb_spec (ce_name r) n) as [Hn|Hn]; simpl.
    + unfold exploreKey at 1 3. simpl. now rewrite Hp, Hn.
    + destruct (mergeExplore rows p n explore) as [[rows' u]|]; simpl.
      * now rewrite IH.
      * unfold exploreKey at 1. intros [[= _ E]|H]; auto.
  - destruct (mergeExplore rows p n explore) as [[rows' u]|]; simpl.
    + now rewrite IH.
    + unfold exploreKey at 1. intros [[= E _]|H]; auto.
Qed.

(** The upsert keeps the index: a row with the key is replaced in place, a
    row with a new key is added. *)
Lemma upsertExplore_unique (p n : jsstring) (explore : Explore) :
  keeps uniqueKept (upsertExplore p n explore).
Proof.
  intros w Hu. unfold upsertExplore, bind, fallible, readWorld, gen_random_uuid,
    liftGen, uuidv4. simpl.
  destruct (faults w ExploreUpsert (ticks w)); simpl; [exact Hu|].
  pose proof (mergeExplore_keys (cached_explore w) p n explore) as Hm.
  destruct (mergeExplore (cached_explore w) p n explore) as [[rows' u]|];
    simpl; unfold uniqueExploreNames, uniqueRows in *; simpl.
  - now rewrite Hm.
  - rewrite map_app. simpl. apply NoDup_app.
    + exact Hu.
    + constructor; [intros [] | constructor].
    + intros k Hk [<-|[]]. exact (Hm Hk).
Qed.

Lemma registerExplore_unique (p t wt : jsstring)
    (columns : list ColumnInference) (wtype : jsstring) :
  keeps uniqueKept (registerExplore p t wt columns wtype).
Proof.
  unfold registerExplore. cbv zeta. pose proof upsertExplore_unique. keeps.
Qed.

Lemma registerInCatalog_unique (p t n : jsstring) (explore : Explore)
    (base : option jsstring) :
  keeps uniqueKept (registerInCatalog p t n explore base).
Proof.
  assert (forall entry, keeps uniqueKept (upsertCatalog entry))
    by (intros; unfold upsertCatalog; keeps).
  assert (forall a b, keeps uniqueKept (findCachedExplore a b))
    by (intros; unfold findCachedExplore; keeps).
  unfold registerInCatalog. keeps.
Qed.

Lemma insertAdhocTable_unique (row : AdhocTableRow) :
  keeps uniqueKept (insertAdhocTable row).
Proof.
  intros w. unfold insertAdhocTable. destruct (existsb _ _); related.
Qed.

Lemma createFromFile_unique (p u : jsstring)
    (request : AdhocTableCreateRequest) :
  keeps uniqueKept (createFromFile papaParse xlsxRead clientOf p u request).
Proof.
  pose proof registerExplore_unique. pose proof registerInCatalog_unique.
  pose proof insertAdhocTable_unique.
  assert (forall a b, keeps uniqueKept (generateWarehouseTableName a b))
    by (intros; unfold generateWarehouseTableName; keeps).
  assert (forall a, keeps uniqueKept (getProject a))
    by (intros; unfold getProject; keeps).
  assert (forall a, keeps uniqueKept (getWarehouseCredentialsForProject a))
    by (intros; unfold getWarehouseCredentialsForProject; keeps).
  assert (forall c a b d, keeps uniqueKept (createWarehouseTable c a b d))
    by (intros [h|] ? ? ?; unfold createWarehouseTable, createTableFromData;
        keeps).
  assert (forall a, keeps uniqueKept (selectExplore a))
    by (intros; unfold selectExplore; keeps).
  unfold createFromFile. keeps.
Qed.

Lemma deleteTable_unique (t u : jsstring) :
  keeps uniqueKept (deleteTable t u).
Proof.
  assert (forall a b, keeps uniqueKept (removeFromCatalog a b)).
  { assert (forall a b, keeps uniqueKept (findCachedExplore a b))
      by (intros; unfold findCachedExplore; keeps).
    intros; unfold removeFromCatalog; keeps. }
  assert (forall a, keeps uniqueKept (getTable a))
    by (intros; unfold getTable; keeps).
  assert (forall a b, keeps uniqueKept (userCanDeleteTable a b))
    by (intros; unfold userCanDeleteTable, liveTable; keeps).
  unfold deleteTable. keeps.
Qed.

(** Every call of the services keeps the index. *)
Lemma afterCall_unique (w : World) (c : Call) :
  uniqueExploreNames w ->
  uniqueExploreNames (afterCall papaParse xlsxRead clientOf w c).
Proof.
  destruct c as [p u request|p u o|t|t u|t u|t u g|t u r]; simpl.
  - apply createFromFile_unique.
  - now rewrite listByProject_world.
  - trivial.
  - apply deleteTable_unique.
  - now rewrite userCanAccessTable_run.
  - assert (H : keeps uniqueKept (grantTableAccess t u g))
      by (unfold grantTableAccess, userCanShareTable, userCanDeleteTable,
            liveTable; keeps).
    apply H.
  - assert (H : keeps uniqueKept (revokeTableAccess t u r))
      by (unfold revokeTableAccess, userCanShareTable, userCanDeleteTable,
            liveTable; keeps).
    apply H.
Qed.

(** From a world with an empty Explore cache, the index holds after any
    calls. *)
Lemma uniqueExploreNames_afterCalls (calls : list Call) (w : World) :
  uniqueExploreNames w ->
  uniqueExploreNames (afterCalls papaParse xlsxRead clientOf w calls).
Proof.
  revert w. induction calls as [|c calls IH]; intros w Hw; simpl; [exact Hw|].
  apply IH. now apply afterCall_unique.
Qed.

Lemma uniqueExploreNames_empty (w : World) :
  cached_explore w = [] -> uniqueExploreNames w.
Proof.
  unfold uniqueExploreNames, uniqueRows. intros ->. constructor.
Qed.
End UniqueIndex.

(* ================================================================== *)
(** ** The warehouse helpers: identifiers, types and statements *)
(* ================================================================== *)

Section Identifiers.

Lemma forallb_dropWhile (p q : ascii -> bool) (s : jsstring) :
  forallb q s = true -> forallb q (dropWhile p s) = true.
Proof.
  induction s as [|c s IH]; simpl; [reflexivity|].
  intros H. destruct (p c); [|exact H].
  apply andb_prop in H. apply IH, H.
Qed.

Lemma forallb_dropWhileEnd (p q : ascii -> bool) (s : jsstring) :
  forallb q s = true -> forallb q (dropWhileEnd p s) = true.
Proof.
  intros H. unfold dropWhileEnd. rewrite forallb_rev.
  apply forallb_dropWhile. rewrite forallb_rev. exact H.
Qed.

Lemma forallb_firstn {A} (q : A -> bool) (n : nat) (l : list A) :
  forallb q l = true -> forallb q (firstn n l) = true.
Proof.
  revert l; induction n as [|n IH]; intros [|x l]; simpl; try reflexivity.
  intros H. apply andb_prop in H. destruct H as [Hx Hl].
  rewrite Hx. simpl. apply IH, Hl.
Qed.

Lemma replaced_wordChars (s : jsstring) :
  forallb isWordChar
    (replaceFirstChar (fun c => negb (isLetterOrUnderscore c)) underscore
       (replaceAllChars (fun c => negb (isWordChar c)) underscore s)) = true.
Proof.
  assert (H : forallb isWordChar
                (replaceAllChars (fun c => negb (isWordChar c)) underscore s)
              = true).
  { unfold replaceAllChars. induction s as [|c s IH]; simpl; [reflexivity|].
    rewrite IH. destruct (isWordChar c) eqn:Hc; simpl; [rewrite Hc|];
      reflexivity. }
  destruct (replaceAllChars _ underscore s) as [|c r]; simpl; [reflexivity|].
  simpl in H. apply andb_prop in H. destruct H as [Hc Hr].
  destruct (negb (isLetterOrUnderscore c)); simpl; [exact Hr|].
  rewrite Hc. exact Hr.
Qed.

(** What the three sanitizers share: the cut to the limit of the stripped
    name, or of the placeholder. *)
Lemma limited_identifier (n : nat) (s : jsstring) :
  0 < n ->
  forallb isWordChar s = true ->
  let out := substring0 n (if isEmpty (stripUnderscores s) then js "column"
                           else stripUnderscores s) in
  forallb isWordChar out = true /\ out <> [] /\ length out <= n.
Proof.
  intros Hn Hs out. subst out. unfold substring0. split; [|split].
  - apply forallb_firstn.
    destruct (isEmpty (stripUnderscores s)); [reflexivity|].
    unfold stripUnderscores. apply forallb_dropWhileEnd, forallb_dropWhile, Hs.
  - destruct n as [|n]; [lia|].
    destruct (stripUnderscores s) as [|c t]; simpl; discriminate.
  - apply firstn_le_length.
Qed.

End Identifiers.

(** X1: whatever the name, the column and table names that the Postgres,
    BigQuery and Redshift helpers put into their statements are identifiers:
    only letters, digits and underscores, at least one character, at most
    63, 128 and 127 of them, and no underscore in front. *)
Theorem warehouse_sanitizers_give_identifiers (name : jsstring) :
  (forallb isWordChar (PostgresAdhocTableHelper.sanitizeColumnName name)
     = true /\
   PostgresAdhocTableHelper.sanitizeColumnName name <> [] /\
   length (PostgresAdhocTableHelper.sanitizeColumnName name) <= 63 /\
   startsWithUnderscore (PostgresAdhocTableHelper.sanitizeTableName name)
     = false) /\
  (forallb isWordChar (BigQueryAdhocTableHelper.sanitizeColumnName name)
     = true /\
   BigQueryAdhocTableHelper.sanitizeColumnName name <> [] /\
   length (BigQueryAdhocTableHelper.sanitizeColumnName name) <= 128 /\
   startsWithUnderscore (BigQueryAdhocTableHelper.sanitizeColumnName name)
     = false) /\
  (forallb isWordChar (RedshiftAdhocTableHelper.sanitizeColumnName name)
     = true /\
   RedshiftAdhocTableHelper.sanitizeColumnName name <> [] /\
   length (RedshiftAdhocTableHelper.sanitizeColumnName name) <= 127 /\
   startsWithUnderscore (RedshiftAdhocTableHelper.sanitizeTableName name)
     = false).
Proof.
  pose proof (replaced_wordChars name) as Hw.
  unfold PostgresAdhocTableHelper.sanitizeTableName,
    RedshiftAdhocTableHelper.sanitizeTableName,
    PostgresAdhocTableHelper.sanitizeColumnName,
    BigQueryAdhocTableHelper.sanitizeColumnName,
    RedshiftAdhocTableHelper.sanitizeColumnName.
  cbv zeta.
  split; [|split].
  - destruct (@limited_identifier 63 _ ltac:(lia) Hw) as (H1 & H2 & H3).
    repeat split; try assumption. apply limited_strip_no_leading.
  - destruct (@limited_identifier 128 _ ltac:(lia) Hw) as (H1 & H2 & H3).
    repeat split; try assumption. apply limited_strip_no_leading.
  - destruct (@limited_identifier 127 _ ltac:(lia) Hw) as (H1 & H2 & H3).
    repeat split; try assumption. apply limited_strip_no_leading.
Qed.

(** X2: the helpers choose a column's type from [type], which for the
    columns the parser infers is one of string, number, date and boolean in
    lower case, while their switch knows the display types in capitals: every
    column of an uploaded table is created with the default type, TEXT in
    Postgres, VARCHAR(MAX) in Redshift and STRING in BigQuery, whatever was
    inferred.  The display types would have selected the typed columns. *)
Theorem uploaded_columns_get_the_default_type (rows : list Row)
    (headers : list jsstring) :
  let columns :=
    map asColumnDefinition (FileParserService.inferColumnTypes rows headers) in
  Forall (fun col =>
            PostgresCreateTable.columnDef col
            = [AdhocTableExploreService.dq]
                ++ PostgresAdhocTableHelper.sanitizeColumnName (cd_name col)
                ++ [AdhocTableExploreService.dq] ++ js " TEXT"
                ++ (if cd_nullable col then [] else js " NOT NULL"))
         columns /\
  Forall (fun col =>
            RedshiftCreateTable.columnDef col
            = [AdhocTableExploreService.dq]
                ++ RedshiftAdhocTableHelper.sanitizeColumnName (cd_name col)
                ++ [AdhocTableExploreService.dq] ++ js " VARCHAR(MAX)"
                ++ (if cd_nullable col then [] else js " NOT NULL"))
         columns /\
  Forall (fun field => BigQueryCreateTable.sf_type field = js "STRING")
         (BigQueryCreateTable.buildBigQuerySchema columns) /\
  map (fun t => (PostgresCreateTable.mapColumnType
                   (FileParserService.mapToWarehouseType t),
                 RedshiftCreateTable.mapColumnType
                   (FileParserService.mapToWarehouseType t),
                 BigQueryCreateTable.mapColumnType
                   (FileParserService.mapToWarehouseType t)))
      [TString; TNumber; TDate; TBoolean]
  = [(js "TEXT", js "VARCHAR(MAX)", js "STRING");
     (js "FLOAT8", js "FLOAT8", js "FLOAT64");
     (js "TIMESTAMP", js "TIMESTAMP", js "TIMESTAMP");
     (js "BOOLEAN", js "BOOLEAN", js "BOOLEAN")].
Proof.
  cbv zeta. unfold BigQueryCreateTable.buildBigQuerySchema.
  rewrite !Forall_map.
  split; [|split; [|split]]; try reflexivity;
    apply Forall_forall; intros col _;
    unfold PostgresCreateTable.columnDef, RedshiftCreateTable.columnDef;
    simpl; destruct (ci_type col); reflexivity.
Qed.

Section Batches.
Import Connection.

Variable A : Type.
Variable size : nat.
Hypothesis size_pos : 0 < size.

Lemma batchesFrom_concat (fuel i : nat) (rows : list A) :
  length rows - i <= fuel ->
  concat (batchesFrom size fuel i rows) = skipn i rows.
Proof.
  revert i; induction fuel as [|fuel IH]; intros i Hfuel; simpl.
  - symmetry. apply skipn_all2. lia.
  - destruct (Nat.ltb_spec i (length rows)) as [Hi|Hi].
    + simpl. rewrite IH by lia. unfold slice.
      replace (i + size - i) with size by lia.
      replace (i + size) with (size + i) by lia.
      rewrite <- skipn_skipn. apply firstn_skipn.
    + symmetry. apply skipn_all2. lia.
Qed.

Lemma batchesFrom_sizes (fuel i : nat) (rows : list A) :
  Forall (fun batch => 0 < length batch <= size)
         (batchesFrom size fuel i rows).
Proof.
  revert i; induction fuel as [|fuel IH]; intros i; simpl; [constructor|].
  destruct (Nat.ltb_spec i (length rows)) as [Hi|Hi]; [|constructor].
  constructor; [|apply IH].
  unfold slice. rewrite length_firstn, length_skipn. lia.
Qed.

Lemma batchesFrom_count (fuel i : nat) (rows : list A) :
  length rows - i <= fuel ->
  length (batchesFrom size fuel i rows)
    = (length rows - i + (size - 1)) / size.
Proof.
  revert i; induction fuel as [|fuel IH]; intros i Hfuel; simpl.
  - replace (length rows - i) with 0 by lia.
    symmetry. apply Nat.div_small. lia.
  - destruct (Nat.ltb_spec i (length rows)) as [Hi|Hi].
    + simpl. rewrite IH by lia.
      destruct (Nat.le_gt_cases size (length rows - i)) as [Hbig|Hsmall].
      * replace (length rows - i + (size - 1))
          with (length rows - (i + size) + (size - 1) + 1 * size) by lia.
        rewrite Nat.div_add by lia. lia.
      * replace (length rows - (i + size)) with 0 by lia.
        rewrite (Nat.div_small (0 + (size - 1))) by lia.
        replace (length rows - i + (size - 1))
          with (length rows - i - 1 + 1 * size) by lia.
        rewrite Nat.div_add by lia.
        rewrite Nat.div_small by lia. reflexivity.
    + replace (length rows - i) with 0 by lia.
      symmetry. apply Nat.div_small. lia.
Qed.

End Batches.

(** X3: [insertRows] cuts the rows into batches of 1000: the batches, one
    after the other, are the rows in their order, no batch is empty or holds
    more than 1000 rows, and there are as many statements as the row count
    divided by 1000, rounded up. *)
Theorem insert_batches_partition_the_rows (schema tableName : jsstring)
    (rows : list Row) (columns : list ColumnDefinition) :
  concat (Connection.batches rows) = rows /\
  Forall (fun batch => 0 < length batch <= 1000) (Connection.batches rows) /\
  length (PostgresCreateTable.insertStatements schema tableName rows columns)
    = (length rows + 999) / 1000 /\
  length (RedshiftCreateTable.insertStatements tableName rows columns)
    = (length rows + 999) / 1000.
Proof.
  assert (Hpos : 0 < Connection.batchSize)
    by (unfold Connection.batchSize; lia).
  unfold PostgresCreateTable.insertStatements,
    RedshiftCreateTable.insertStatements.
  rewrite !length_map. unfold Connection.batches.
  rewrite (@batchesFrom_concat Row _ Hpos) by lia.
  rewrite (@batchesFrom_count Row _ Hpos) by lia.
  rewrite Nat.sub_0_r.
  split; [reflexivity|]. split; [|split; reflexivity].
  apply (@batchesFrom_sizes Row _ Hpos).
Qed.

Lemma readQuoted_doubleEvery (q : ascii) (s : jsstring) :
  Terms.readQuoted q (doubleEvery q s) = Some s.
Proof.
  induction s as [|c s IH]; simpl; [reflexivity|].
  destruct (Ascii.eqb_spec c q) as [->|Hc]; simpl.
  - rewrite Ascii.eqb_refl. rewrite IH. reflexivity.
  - destruct (Ascii.eqb_spec c q) as [Heq|_]; [contradiction|].
    rewrite IH. reflexivity.
Qed.

(** X4: what the code puts between quotes reads back as what was meant.
    [escapeIdentifier] doubles every double quote, so the text between the
    double quotes of a dimension's SQL reads as the column name; the cells of
    the INSERT statements are NULL for null and undefined and otherwise the
    value's string between single quotes with every single quote doubled,
    which reads as that string; no cell can end its literal early. *)
Theorem quoted_text_reads_back (identifier : jsstring) (val : JsValue) :
  Terms.readQuoted AdhocTableExploreService.dq
    (AdhocTableExploreService.escapeIdentifier identifier) = Some identifier /\
  RedshiftCreateTable.literal val = PostgresCreateTable.literal val /\
  match val with
  | JNull | JUndefined => PostgresCreateTable.literal val = js "NULL"
  | _ =>
      exists body,
        PostgresCreateTable.literal val = [apostrophe] ++ body ++ [apostrophe] /\
        Terms.readQuoted apostrophe body = Some (FileParserService.String_ val)
  end.
Proof.
  split; [apply readQuoted_doubleEvery|]. split; [reflexivity|].
  destruct val; try reflexivity;
    (eexists; split; [reflexivity | apply readQuoted_doubleEvery]).
Qed.

Section Statements.
Import Connection Terms.
Local Open Scope run_scope.

Lemma query_run (sql : jsstring) (c : Client) :
  query sql c
  = (match failing c (length (sent c)) with
     | Some message => Throw (Error message)
     | None => Ok tt
     end, afterSending c [sql]).
Proof.
  unfold query, afterSending.
  destruct (failing c (length (sent c))); reflexivity.
Qed.

Lemma afterSending_app (c : Client) (a b : list jsstring) :
  afterSending (afterSending c a) b = afterSending c (a ++ b).
Proof. unfold afterSending. simpl. rewrite app_assoc. reflexivity. Qed.

Lemma firstFailure_found (f : nat -> option jsstring) (count n i : nat)
    (message : jsstring) :
  firstFailure f n count = Some (i, message) ->
  n <= i < n + count /\ f i = Some message.
Proof.
  revert n; induction count as [|count IH]; intros n; simpl; [discriminate|].
  destruct (f n) as [m|] eqn:Hn.
  - intros [= <- <-]. split; [lia | exact Hn].
  - intros H. apply IH in H. split; [lia | apply H].
Qed.

Lemma firstFailure_none (f : nat -> option jsstring) (count n : nat) :
  firstFailure f n count = None ->
  forall j, n <= j < n + count -> f j = None.
Proof.
  revert n; induction count as [|count IH]; intros n; simpl; [lia|].
  destruct (f n) as [m|] eqn:Hn; [discriminate|].
  intros H j Hj. destruct (Nat.eq_dec j n) as [->|Hne]; [exact Hn|].
  apply (IH (S n) H). lia.
Qed.

(** [Promise.all] over statements that were all sent. *)
Lemma promiseAll_run (stmts : list jsstring) (c : Client) :
  promiseAll (map query stmts) c
  = (match firstFailure (failing c) (length (sent c)) (length stmts) with
     | Some (_, message) => Throw (Error message)
     | None => Ok tt
     end, afterSending c stmts).
Proof.
  revert c; induction stmts as [|s stmts IH]; intros c.
  - simpl. unfold afterSending. rewrite app_nil_r. destruct c; reflexivity.
  - cbn [map promiseAll length firstFailure]. rewrite query_run, IH.
    rewrite afterSending_app. cbn [afterSending failing sent].
    rewrite length_app, Nat.add_1_r. cbn [app].
    destruct (failing c (length (sent c))) as [m|]; [reflexivity|].
    destruct (firstFailure _ _ _) as [[i m]|]; reflexivity.
Qed.

(** A loop that awaits each statement. *)
Lemma forEach_run (stmts : list jsstring) (c : Client) :
  forEach query stmts c
  = match firstFailure (failing c) (length (sent c)) (length stmts) with
    | Some (i, message) =>
        (Throw (Error message),
         afterSending c (firstn (S (i - length (sent c))) stmts))
    | None => (Ok tt, afterSending c stmts)
    end.
Proof.
  revert c; induction stmts as [|s stmts IH]; intros c.
  - simpl. unfold ret, afterSending. rewrite app_nil_r.
    destruct c; reflexivity.
  - cbn [forEach length firstFailure]. unfold bind at 1. rewrite query_run.
    destruct (failing c (length (sent c))) as [m|] eqn:Hc.
    + rewrite Nat.sub_diag. reflexivity.
    + rewrite IH. cbn [afterSending failing sent].
      rewrite length_app, Nat.add_1_r.
      destruct (firstFailure _ _ _) as [[i m]|] eqn:Hi.
      * apply firstFailure_found in Hi.
        rewrite afterSending_app.
        replace (i - length (sent c)) with (S (i - S (length (sent c))))
          by lia.
        reflexivity.
      * rewrite afterSending_app. reflexivity.
Qed.

End Statements.

Ltac simpl_run :=
  cbn [fst snd Connection.connected Connection.released Connection.sent
       Connection.failing Terms.afterSending Connection.throw
       Connection.log].

Ltac same_statements :=
  repeat first [rewrite <- app_assoc | progress cbn [app]]; reflexivity.

(** X5: the Postgres helper closes what it opens.  For data that is not
    empty: if the pool refuses the connection nothing is sent; otherwise the
    connection is released exactly once, and the statements sent are BEGIN,
    the CREATE TABLE, one INSERT per batch and COMMIT when the call returns,
    or a first part of these followed by ROLLBACK when it throws; what it
    throws then is the message of a statement that failed, under the helper's
    prefix, unless the ROLLBACK failed itself. *)
Theorem postgres_helper_ends_its_transaction (schema tableName : jsstring)
    (rows : list Row) (columns : list ColumnDefinition)
    (c : Connection.Client) :
  rows <> [] ->
  let run :=
    PostgresCreateTable.createTableFromData schema tableName rows columns c in
  let work :=
    js "BEGIN"
      :: PostgresCreateTable.buildCreateTableStatement schema tableName columns
      :: PostgresCreateTable.insertStatements schema tableName rows columns in
  match Connection.refusing c with
  | Some message => run = (Throw (Error message), c)
  | None =>
      Connection.connected (snd run) = S (Connection.connected c) /\
      Connection.released (snd run) = S (Connection.released c) /\
      match fst run with
      | Ok _ =>
          Connection.sent (snd run)
            = Connection.sent c ++ work ++ [js "COMMIT"] /\
          (forall n, length (Connection.sent c) <= n
                     < length (Connection.sent (snd run)) ->
                     Connection.failing c n = None)
      | Throw e =>
          exists before rest,
            work ++ [js "COMMIT"] = before ++ rest /\
            before <> [] /\
            Connection.sent (snd run)
              = Connection.sent c ++ before ++ [js "ROLLBACK"] /\
            match Connection.failing c (length (Connection.sent c ++ before))
            with
            | Some message => e = Error message
            | None =>
                exists n message,
                  length (Connection.sent c) <= n
                    < length (Connection.sent c ++ before) /\
                  Connection.failing c n = Some message /\
                  e = Error (js "Failed to create Postgres table "
                               ++ tableName ++ js ": " ++ message)
            end
      end
  end.
Proof.
  intros Hrows run work.
  destruct rows as [|row rows']; [contradiction|].
  set (rows := row :: rows') in *.
  destruct (Connection.refusing c) as [refusal|] eqn:Hrefuse.
  { subst run. unfold PostgresCreateTable.createTableFromData.
    change (Nat.eqb (length rows) 0) with false. cbv iota.
    unfold Connection.bind at 1. unfold Connection.connect.
    rewrite Hrefuse. reflexivity. }
  remember run as r eqn:Hrun. subst run. revert Hrun.
  unfold PostgresCreateTable.createTableFromData.
  change (Nat.eqb (length rows) 0) with false. cbv iota.
  unfold Connection.bind at 1. unfold Connection.connect.
  rewrite Hrefuse.
  set (create :=
         PostgresCreateTable.buildCreateTableStatement schema tableName columns)
    in *.
  set (inserts :=
         PostgresCreateTable.insertStatements schema tableName rows columns)
    in *.
  unfold Connection.finally, Connection.tryCatch, Connection.release.
  unfold PostgresCreateTable.insertRows. fold inserts.
  unfold Connection.bind at 1. rewrite query_run.
  cbn [Terms.afterSending Connection.sent Connection.failing].
  destruct (Connection.failing c (length (Connection.sent c))) as [m0|] eqn:H0.
  { (* BEGIN fails *)
    unfold Connection.bind at 1. rewrite query_run.
    cbn [Terms.afterSending Connection.sent Connection.failing].
    destruct (Connection.failing c (length (Connection.sent c ++ [js "BEGIN"])))
      as [mr|] eqn:Hr; intros ->; simpl_run;
      (split; [reflexivity|]; split; [reflexivity|]);
      exists [js "BEGIN"], (create :: inserts ++ [js "COMMIT"]);
      (split; [reflexivity|]); (split; [discriminate|]);
      (split; [same_statements|]); rewrite Hr;
      [reflexivity|].
    exists (length (Connection.sent c)), m0.
    rewrite length_app. cbn. split; [lia|]. split; [exact H0 | reflexivity]. }
  unfold Connection.bind at 1. rewrite query_run.
  cbn [Terms.afterSending Connection.sent Connection.failing].
  destruct (Connection.failing c (length (Connection.sent c ++ [js "BEGIN"])))
    as [m1|] eqn:H1.
  { (* CREATE TABLE fails *)
    unfold Connection.bind at 1. rewrite query_run.
    cbn [Terms.afterSending Connection.sent Connection.failing].
    rewrite <- !app_assoc. cbn [app].
    destruct (Connection.failing c
                (length (Connection.sent c ++ [js "BEGIN"; create])))
      as [mr|] eqn:Hr; intros ->; simpl_run;
      (split; [reflexivity|]; split; [reflexivity|]);
      exists [js "BEGIN"; create], (inserts ++ [js "COMMIT"]);
      (split; [reflexivity|]); (split; [discriminate|]);
      (split; [same_statements|]); rewrite Hr;
      [reflexivity|].
    exists (length (Connection.sent c ++ [js "BEGIN"])), m1.
    split; [rewrite !length_app; cbn [length]; lia|].
    split; [exact H1 | reflexivity]. }
  unfold Connection.bind at 1. rewrite promiseAll_run.
  cbn [Terms.afterSending Connection.sent Connection.failing].
  rewrite <- !app_assoc. cbn [app].
  destruct (Terms.firstFailure (Connection.failing c)
              (length (Connection.sent c ++ [js "BEGIN"; create]))
              (length inserts)) as [[i mi]|] eqn:Hi.
  { (* an INSERT fails *)
    apply firstFailure_found in Hi. destruct Hi as [Hrange Hi].
    unfold Connection.bind at 1. rewrite query_run.
    cbn [Terms.afterSending Connection.sent Connection.failing].
    rewrite <- !app_assoc. cbn [app].
    destruct (Connection.failing c
                (length (Connection.sent c ++ js "BEGIN" :: create :: inserts)))
      as [mr|] eqn:Hr; intros ->; simpl_run;
      (split; [reflexivity|]; split; [reflexivity|]);
      exists (js "BEGIN" :: create :: inserts), [js "COMMIT"];
      (split; [reflexivity|]); (split; [discriminate|]);
      (split; [same_statements|]); rewrite Hr;
      [reflexivity|].
    exists i, mi. rewrite !length_app in *. cbn [length] in *.
    split; [lia|]. split; [exact Hi | reflexivity]. }
  unfold Connection.bind at 1. rewrite query_run.
  cbn [Terms.afterSending Connection.sent Connection.failing].
  rewrite <- !app_assoc. cbn [app].
  destruct (Connection.failing c
              (length (Connection.sent c ++ js "BEGIN" :: create :: inserts)))
    as [m3|] eqn:H3.
  { (* COMMIT fails *)
    unfold Connection.bind at 1. rewrite query_run.
    cbn [Terms.afterSending Connection.sent Connection.failing].
    rewrite <- !app_assoc. cbn [app].
    destruct (Connection.failing c
                (length (Connection.sent c
                           ++ js "BEGIN" :: create :: inserts ++ [js "COMMIT"])))
      as [mr|] eqn:Hr; intros ->; simpl_run;
      (split; [reflexivity|]; split; [reflexivity|]);
      exists (js "BEGIN" :: create :: inserts ++ [js "COMMIT"]), [];
      (split; [rewrite app_nil_r; same_statements|]); (split; [discriminate|]);
      (split; [same_statements|]); rewrite Hr;
      [reflexivity|].
    exists (length (Connection.sent c ++ js "BEGIN" :: create :: inserts)), m3.
    split; [rewrite !length_app; cbn [length]; rewrite length_app;
            cbn [length]; lia|].
    split; [exact H3 | reflexivity]. }
  (* everything goes through *)
  intros ->. simpl_run. split; [reflexivity|]. split; [reflexivity|].
  subst work. split; [same_statements|].
  intros n Hn.
  rewrite !length_app in *. cbn [length] in *.
  destruct (Nat.eq_dec n (length (Connection.sent c))) as [->|Hn0];
    [exact H0|].
  destruct (Nat.eq_dec n (length (Connection.sent c) + 1)) as [->|Hn1];
    [exact H1|].
  destruct (Nat.eq_dec n (length (Connection.sent c)
                            + S (S (length inserts)))) as [->|Hn3];
    [exact H3|].
  apply (@firstFailure_none _ _ _ Hi). lia.
Qed.

Lemma postgres_helper_ends_its_transaction_witness :
  Scenes.signupRows <> [] /\
  Connection.refusing (Scenes.failingAt 2) = None /\
  let run :=
    PostgresCreateTable.createTableFromData (js "public") (js "signups")
      Scenes.signupRows Scenes.signupColumns (Scenes.failingAt 2) in
  Connection.connected (snd run) = 1 /\
  Connection.released (snd run) = 1 /\
  fst run = Throw (Error (js "Failed to create Postgres table signups: connection reset")) /\
  map (firstn 6) (Connection.sent (snd run))
    = [js "BEGIN"; js "CREATE"; js "INSERT"; js "ROLLBA"].
Proof.
  split; [vm_compute; discriminate|]. split; [reflexivity|].
  pose proof (@postgres_helper_ends_its_transaction (js "public")
                (js "signups") Scenes.signupRows Scenes.signupColumns
                (Scenes.failingAt 2) ltac:(vm_compute; discriminate)) as T.
  cbv zeta in T.
  change (Connection.refusing (Scenes.failingAt 2)) with (@None jsstring) in T.
  cbv iota in T. destruct T as (Hc & Hr & _).
  cbv zeta. split; [exact Hc|]. split; [exact Hr|].
  split; vm_compute; reflexivity.
Defined.

(** X6: the Redshift helper has no transaction around its statements.  For
    data that is not empty: if the pool refuses the connection nothing is
    sent; otherwise the connection is released exactly once, and the
    statements sent are the CREATE TABLE and one INSERT per batch when the
    call returns, or a first part of these when it throws: the last one sent
    is the one that failed, its message is thrown under the helper's prefix,
    and nothing is sent after it, so the table and the batches inserted
    before stay as they are. *)
Theorem redshift_helper_stops_at_the_failure (tableName : jsstring)
    (rows : list Row) (columns : list ColumnDefinition)
    (c : Connection.Client) :
  rows <> [] ->
  let run :=
    RedshiftCreateTable.createTableFromData tableName rows columns c in
  let work :=
    RedshiftCreateTable.buildCreateTableStatement tableName columns
      :: RedshiftCreateTable.insertStatements tableName rows columns in
  match Connection.refusing c with
  | Some message => run = (Throw (Error message), c)
  | None =>
      Connection.connected (snd run) = S (Connection.connected c) /\
      Connection.released (snd run) = S (Connection.released c) /\
      match fst run with
      | Ok _ =>
          Connection.sent (snd run) = Connection.sent c ++ work /\
          (forall n, length (Connection.sent c) <= n
                     < length (Connection.sent (snd run)) ->
                     Connection.failing c n = None)
      | Throw e =>
          exists before failed rest message,
            work = before ++ failed :: rest /\
            Connection.sent (snd run)
              = Connection.sent c ++ before ++ [failed] /\
            Connection.failing c (length (Connection.sent c ++ before))
              = Some message /\
            e = Error (js "Failed to create Redshift table " ++ tableName
                         ++ js ": " ++ message)
      end
  end.
Proof.
  intros Hrows run work.
  destruct rows as [|row rows']; [contradiction|].
  set (rows := row :: rows') in *.
  destruct (Connection.refusing c) as [refusal|] eqn:Hrefuse.
  { subst run. unfold RedshiftCreateTable.createTableFromData.
    change (Nat.eqb (length rows) 0) with false. cbv iota.
    unfold Connection.bind at 1. unfold Connection.connect.
    rewrite Hrefuse. reflexivity. }
  remember run as r eqn:Hrun. subst run. revert Hrun.
  unfold RedshiftCreateTable.createTableFromData.
  change (Nat.eqb (length rows) 0) with false. cbv iota.
  unfold Connection.bind at 1. unfold Connection.connect.
  rewrite Hrefuse.
  set (create :=
         RedshiftCreateTable.buildCreateTableStatement tableName columns) in *.
  set (inserts :=
         RedshiftCreateTable.insertStatements tableName rows columns) in *.
  unfold Connection.finally, Connection.tryCatch, Connection.release.
  unfold RedshiftCreateTable.insertRows. fold inserts.
  unfold Connection.bind at 1. rewrite query_run.
  cbn [Terms.afterSending Connection.sent Connection.failing].
  destruct (Connection.failing c (length (Connection.sent c))) as [m0|] eqn:H0.
  { (* CREATE TABLE fails *)
    intros ->. simpl_run. split; [reflexivity|]. split; [reflexivity|].
    exists [], create, inserts, m0.
    split; [reflexivity|]. split; [reflexivity|].
    rewrite app_nil_r. split; [exact H0 | reflexivity]. }
  unfold Connection.bind at 1. rewrite forEach_run.
  cbn [Terms.afterSending Connection.sent Connection.failing].
  destruct (Terms.firstFailure (Connection.failing c)
              (length (Connection.sent c ++ [create])) (length inserts))
    as [[i mi]|] eqn:Hi.
  { (* an INSERT fails *)
    apply firstFailure_found in Hi. destruct Hi as [Hrange Hi].
    rewrite length_app in Hrange. cbn [length] in Hrange.
    intros ->. simpl_run. split; [reflexivity|]. split; [reflexivity|].
    set (k := i - length (Connection.sent c ++ [create])).
    assert (Hk : k < length inserts)
      by (subst k; rewrite length_app; cbn [length]; lia).
    destruct (nth_split inserts [] Hk) as (done & rest & Hsplit & Hdone).
    exists (create :: done), (nth k inserts []), rest, mi.
    split; [subst work; rewrite Hsplit at 1; reflexivity|].
    split.
    - rewrite Hsplit at 1.
      replace (S k) with (length (done ++ [nth k inserts []]))
        by (rewrite length_app; cbn [length]; lia).
      replace (done ++ nth k inserts [] :: rest)
        with ((done ++ [nth k inserts []]) ++ rest)
        by (rewrite <- app_assoc; reflexivity).
      rewrite firstn_app, firstn_all, Nat.sub_diag. cbn [firstn].
      rewrite app_nil_r. same_statements.
    - split; [|reflexivity].
      replace (length (Connection.sent c ++ create :: done)) with i;
        [exact Hi|].
      rewrite length_app. cbn [length]. subst k.
      rewrite length_app in Hdone. cbn [length] in Hdone. lia. }
  (* everything goes through *)
  intros ->. simpl_run. split; [reflexivity|]. split; [reflexivity|].
  subst work. split; [same_statements|].
  intros n Hn. rewrite !length_app in *. cbn [length] in *.
  destruct (Nat.eq_dec n (length (Connection.sent c))) as [->|Hn0];
    [exact H0|].
  apply (@firstFailure_none _ _ _ Hi). lia.
Qed.

Lemma redshift_helper_stops_at_the_failure_witness :
  Scenes.signupRows <> [] /\
  Connection.refusing (Scenes.failingAt 1) = None /\
  let run :=
    RedshiftCreateTable.createTableFromData (js "signups")
      Scenes.signupRows Scenes.signupColumns (Scenes.failingAt 1) in
  Connection.connected (snd run) = 1 /\
  Connection.released (snd run) = 1 /\
  fst run = Throw (Error (js "Failed to create Redshift table signups: connection reset")) /\
  map (firstn 6) (Connection.sent (snd run)) = [js "CREATE"; js "INSERT"].
Proof.
  split; [vm_compute; discriminate|]. split; [reflexivity|].
  pose proof (@redshift_helper_stops_at_the_failure (js "signups")
                Scenes.signupRows Scenes.signupColumns
                (Scenes.failingAt 1) ltac:(vm_compute; discriminate)) as T.
  cbv zeta in T.
  change (Connection.refusing (Scenes.failingAt 1)) with (@None jsstring) in T.
  cbv iota in T. destruct T as (Hc & Hr & _).
  cbv zeta. split; [exact Hc|]. split; [exact Hr|].
  split; vm_compute; reflexivity.
Defined.

(* ================================================================== *)
(** ** The file parser: columns, samples and outcomes *)
(* ================================================================== *)


Section Sampling.
Import FileParserService Vocabulary.

Lemma filter_length_permutation {A} (f : A -> bool) (l l' : list A) :
  Permutation l l' -> length (filter f l) = length (filter f l').
Proof.
  induction 1 as [|x l l' _ IH|x y l|l l' l'' _ IH1 _ IH2]; simpl.
  - reflexivity.
  - destruct (f x); simpl; congruence.
  - destruct (f x), (f y); reflexivity.
  - congruence.
Qed.

Lemma meets_length (score : nat) (values values' : list JsValue) :
  length values = length values' -> meets score values = meets score values'.
Proof. unfold meets, threshold. intros ->. reflexivity. Qed.

End Sampling.

(** X8: the type that [detectColumnType] finds for a column does not depend
    on the order of the values. *)
Theorem detectColumnType_ignores_the_order (values values' : list JsValue) :
  Permutation values values' ->
  FileParserService.detectColumnType values
    = FileParserService.detectColumnType values'.
Proof.
  intros Hperm.
  pose proof (Permutation_length Hperm) as Hlen.
  unfold FileParserService.detectColumnType.
  destruct values as [|v values]; destruct values' as [|v' values'];
    try discriminate; [reflexivity|].
  cbv zeta.
  destruct (scoreValues_hits (v :: values)) as (-> & -> & ->).
  destruct (scoreValues_hits (v' :: values')) as (-> & -> & ->).
  unfold Vocabulary.booleanHits, Vocabulary.dateHits, Vocabulary.numberHits.
  rewrite !(filter_length_permutation _ Hperm).
  rewrite !(@meets_length _ (v :: values) (v' :: values') Hlen).
  reflexivity.
Qed.

Lemma detectColumnType_ignores_the_order_witness :
  Permutation [JString (js "yes"); JString (js "7"); JString (js "no");
               JString (js "true"); JString (js "0")]
              [JString (js "7"); JString (js "yes"); JString (js "no");
               JString (js "true"); JString (js "0")] /\
  FileParserService.detectColumnType
    [JString (js "yes"); JString (js "7"); JString (js "no");
     JString (js "true"); JString (js "0")]
  = FileParserService.detectColumnType
      [JString (js "7"); JString (js "yes"); JString (js "no");
       JString (js "true"); JString (js "0")].
Proof.
  split; [apply perm_swap|].
  apply detectColumnType_ignores_the_order. apply perm_swap.
Defined.

(** X9: only the first hundred rows are sampled: rows after them change no
    column's type, display type or sample values. *)
Theorem rows_after_the_hundredth_do_not_count (rows more : list Row)
    (headers : list jsstring) :
  100 <= length rows ->
  map (fun col => (ci_name col, ci_type col, ci_displayType col,
                   ci_sampleValues col))
      (FileParserService.inferColumnTypes (rows ++ more) headers)
  = map (fun col => (ci_name col, ci_type col, ci_displayType col,
                     ci_sampleValues col))
        (FileParserService.inferColumnTypes rows headers).
Proof.
  intros Hlen. unfold FileParserService.inferColumnTypes.
  rewrite !map_map. apply map_ext. intros header.
  unfold FileParserService.inferColumn. cbv zeta.
  cbn [ci_name ci_type ci_displayType ci_sampleValues].
  rewrite firstn_app.
  replace (100 - length rows) with 0 by lia.
  cbn [firstn]. rewrite app_nil_r. reflexivity.
Qed.

Lemma rows_after_the_hundredth_do_not_count_witness :
  100 <= length (Demo.fullRows 100) /\
  map ci_type
    (FileParserService.inferColumnTypes
       (Demo.fullRows 100 ++ [[(js "c", JString (js "7"))]]) [js "c"])
  = map ci_type
      (FileParserService.inferColumnTypes (Demo.fullRows 100) [js "c"]).
Proof.
  split; [vm_compute; lia|].
  pose proof (@rows_after_the_hundredth_do_not_count (Demo.fullRows 100)
                [[(js "c", JString (js "7"))]] [js "c"]
                ltac:(vm_compute; lia)) as T.
  apply (f_equal (map (fun q => snd (fst (fst q))))) in T.
  rewrite !map_map in T. exact T.
Defined.

(** X10: what the parsers hand back is well formed.  A result of [parseCSV]
    or [parseExcel] has at least one row, its headers are the keys of the
    first row, and its columns are the headers' columns, one for one; every
    error of [parseExcel] carries the prefix of the Excel parser, and every
    error of [parseCSV] is the empty-file error or carries the prefix of the
    CSV parser. *)
Theorem parse_results_are_well_formed
    (papaParse : jsstring -> FileParserService.PapaOutcome)
    (xlsxRead : Buffer -> FileParserService.XlsxOutcome) (buffer : Buffer) :
  let wellFormed (r : FileParserService.ParseResult) :=
    FileParserService.parsed_rows r <> [] /\
    FileParserService.parsed_headers r
      = objectKeys (hd [] (FileParserService.parsed_rows r)) /\
    map ci_name (FileParserService.parsed_columns r)
      = FileParserService.parsed_headers r /\
    FileParserService.parsed_columns r
      = FileParserService.inferColumnTypes (FileParserService.parsed_rows r)
          (FileParserService.parsed_headers r) in
  match FileParserService.parseCSV papaParse buffer with
  | Ok r => wellFormed r
  | Throw e =>
      e = Error (js "CSV file is empty") \/
      exists message, e = Error (js "CSV parsing failed: " ++ message)
  end /\
  match FileParserService.parseExcel xlsxRead buffer with
  | Ok r => wellFormed r
  | Throw e => exists message, e = Error (js "Excel parsing failed: " ++ message)
  end.
Proof.
  cbv zeta. split.
  - unfold FileParserService.parseCSV.
    destruct (papaParse (bufferToString buffer)) as [data|message].
    + destruct data as [|row data]; simpl; [left; reflexivity|].
      split; [discriminate|]. split; [reflexivity|]. split; [|reflexivity].
      unfold FileParserService.inferColumnTypes. rewrite map_map.
      apply map_id.
    + right. exists message. reflexivity.
  - unfold FileParserService.parseExcel, FileParserService.parseExcelBody.
    destruct (xlsxRead buffer) as [message|[rows|]].
    + eexists. reflexivity.
    + destruct rows as [|row rows]; simpl; [eexists; reflexivity|].
      split; [discriminate|]. split; [reflexivity|]. split; [|reflexivity].
      unfold FileParserService.inferColumnTypes. rewrite map_map.
      apply map_id.
    + eexists. reflexivity.
Qed.

(* ================================================================== *)
(** ** The Explore generator: field names and dimensions *)
(* ================================================================== *)

Section FieldNamesAreValid.
Import Vocabulary AdhocTableExploreService.

Lemma startsWithUnderscore_rev_cons (c : ascii) (s : jsstring) :
  s <> [] ->
  startsWithUnderscore (rev (c :: s)) = startsWithUnderscore (rev s).
Proof.
  intros Hs. simpl. destruct (rev s) as [|d r] eqn:Hrev; [|reflexivity].
  apply (f_equal (@rev ascii)) in Hrev. rewrite rev_involutive in Hrev.
  contradiction.
Qed.

End FieldNamesAreValid.

(** X11: with uuids that start with eight hexadecimal digits in lower case,
    as version 4 uuids do, [sanitizeFieldName] gives a field name whatever
    the column is called: not empty, only lower-case letters, digits and
    underscores, no digit in front, no underscore at the end and no two
    underscores in a row. *)
Theorem sanitizeFieldName_gives_field_names (name : jsstring)
    (s : UuidSupply) :
  Vocabulary.uuidLike (us_draw s (us_next s)) ->
  let field := fst (AdhocTableExploreService.sanitizeFieldName name s) in
  field <> [] /\
  forallb isLowerWordChar field = true /\
  startsWithDigit field = false /\
  startsWithUnderscore (rev field) = false /\
  Vocabulary.noRun field = true.
Proof.
  intros [Hne Hhex] field. subst field.
  rewrite sanitizeFieldName_value.
  pose proof (lowerAndReplace_canonical name) as (Hword & Hrun & Hlead & Htrail).
  destruct (AdhocTableExploreService.lowerAndReplace name) as [|c t].
  - destruct (@placeholder_canonical _ Hne Hhex) as (Hw & Hr & _ & Ht).
    repeat split; try assumption. discriminate.
  - destruct (isDigit c) eqn:Hdigit.
    + split; [discriminate|]. split; [exact Hword|]. split; [reflexivity|].
      split.
      * rewrite startsWithUnderscore_rev_cons by discriminate. exact Htrail.
      * rewrite noRun_cons2, Hrun, (digit_not_underscore _ Hdigit).
        reflexivity.
    + split; [discriminate|]. split; [exact Hword|].
      split; [exact Hdigit|]. split; assumption.
Qed.

Lemma sanitizeFieldName_gives_field_names_witness :
  Vocabulary.uuidLike (us_draw demoSupply (us_next demoSupply)) /\
  fst (AdhocTableExploreService.sanitizeFieldName (js "!!") demoSupply)
    = js "column_a0000000" /\
  startsWithDigit
    (fst (AdhocTableExploreService.sanitizeFieldName (js "!!") demoSupply))
    = false.
Proof.
  assert (H : Vocabulary.uuidLike (us_draw demoSupply (us_next demoSupply))).
  { split; [vm_compute; discriminate | vm_compute; reflexivity]. }
  split; [exact H|]. split; [vm_compute; reflexivity|].
  exact (proj1 (proj2 (proj2
    (@sanitizeFieldName_gives_field_names (js "!!") demoSupply H)))).
Defined.

Section Dimensions.
Import Vocabulary AdhocTableExploreService.

Lemma objSet_In {V} (o : Obj V) (k : jsstring) (v : V) (k' : jsstring)
    (v' : V) :
  In (k', v') (objSet o k v) -> (k' = k /\ v' = v) \/ In (k', v') o.
Proof.
  induction o as [|[k0 v0] o IH]; simpl.
  - intros [[= <- <-]|[]]. left. split; reflexivity.
  - destruct (JsFacts.eqb_spec k0 k) as [->|Hne]; simpl.
    + intros [[= <- <-]|Hin]; [left; split; reflexivity | right; right; exact Hin].
    + intros [Heq|Hin]; [right; left; exact Heq|].
      destruct (IH Hin) as [H|H]; [left; exact H | right; right; exact H].
Qed.

Lemma objSet_keys {V} (o : Obj V) (k : jsstring) (v : V) (k' : jsstring) :
  In k' (objKeys (objSet o k v)) <-> k' = k \/ In k' (objKeys o).
Proof.
  destruct (in_dec (list_eq_dec ascii_dec) k (objKeys o)) as [Hin|Hnin].
  - rewrite (@objSet_known V o k v Hin). split; [tauto|].
    intros [->|H]; assumption.
  - rewrite (@objSet_new V o k v Hnin). rewrite in_app_iff. simpl.
    split; [intros [H|[H|[]]]; [right; exact H | left; symmetry; exact H]|].
    intros [->|H]; [right; left; reflexivity | left; exact H].
Qed.

Lemma objSet_NoDup {V} (o : Obj V) (k : jsstring) (v : V) :
  NoDup (objKeys o) -> NoDup (objKeys (objSet o k v)).
Proof.
  intros Hnd.
  destruct (in_dec (list_eq_dec ascii_dec) k (objKeys o)) as [Hin|Hnin].
  - rewrite (@objSet_known V o k v Hin). exact Hnd.
  - rewrite (@objSet_new V o k v Hnin). apply NoDup_app; [exact Hnd | | ].
    + constructor; [intros []|constructor].
    + intros x Hx [<-|[]]. contradiction.
Qed.

Lemma objSet_length {V} (o : Obj V) (k : jsstring) (v : V) :
  length (objSet o k v) <= S (length o).
Proof.
  induction o as [|[k0 v0] o IH]; simpl; [lia|].
  destruct (Js.eqb k0 k); simpl; lia.
Qed.

(** What [generateDimensions] makes of a column. *)
Lemma reduceDimensions_columns (tableName : jsstring)
    (columns : list ColumnDefinition) :
  forall (acc : Obj CompiledDimension) (s : UuidSupply),
    let dims := fst (reduceDimensions tableName columns acc s) in
    (NoDup (objKeys acc) -> NoDup (objKeys dims)) /\
    length dims <= length acc + length columns /\
    (forall k, In k (objKeys dims) <->
               In k (objKeys acc) \/ In k (fst (sanitizedNames columns s))) /\
    (forall k d, In (k, d) dims ->
       In (k, d) acc \/
       (dim_name d = k /\ dim_table d = tableName /\
        exists column,
          In column columns /\
          dim_label d = cd_name column /\
          dim_type d = mapColumnTypeToDimensionType (cd_type column) /\
          dim_compiledSql d
            = [dq] ++ tableName ++ [dq] ++ js "." ++ [dq]
                ++ escapeIdentifier (cd_name column) ++ [dq])).
Proof.
  induction columns as [|column rest IH]; intros acc s dims; subst dims.
  - simpl. unfold gret. simpl. split; [tauto|]. split; [lia|].
    split; [tauto|]. intros k d H. left. exact H.
  - cbn [reduceDimensions sanitizedNames].
    unfold gbind, gret, addDimension. unfold gbind, gret.
    destruct (sanitizeFieldName (cd_name column) s) as [name s1] eqn:E.
    match goal with
    | |- context [objSet acc name ?d] => set (dimension := d)
    end.
    specialize (IH (objSet acc name dimension) s1). cbv zeta in IH.
    destruct IH as (Hnd & Hlen & Hkeys & Hfrom).
    destruct (sanitizedNames rest s1) as [names s2] eqn:E2.
    cbn [fst] in *.
    split; [|split; [|split]].
    + intros H. apply Hnd, objSet_NoDup, H.
    + pose proof (objSet_length acc name dimension). cbn [length]. lia.
    + intros k. rewrite Hkeys, objSet_keys. cbn [In]. split.
      * intros [[->|H]|H]; [right; left; reflexivity | left; exact H
                           | right; right; exact H].
      * intros [H|[<-|H]]; [left; right; exact H | left; left; reflexivity
                           | right; exact H].
    + intros k d Hin. destruct (Hfrom k d Hin) as [Hacc|Hnew].
      * apply objSet_In in Hacc. destruct Hacc as [[-> ->]|Hacc];
          [|left; exact Hacc].
        right. split; [reflexivity|]. split; [reflexivity|].
        exists column. split; [left; reflexivity|].
        repeat split; reflexivity.
      * right. destruct Hnew as (Hn & Ht & col & Hcol & Hrest).
        split; [exact Hn|]. split; [exact Ht|].
        exists col. split; [right; exact Hcol | exact Hrest].
Qed.

End Dimensions.

(** X12: whatever the columns are called, the dimensions of a generated
    Explore come from the columns.  Their keys are exactly the sanitized
    names of the columns, each once, so there are never more dimensions than
    columns; every dimension is named by its key, belongs to the table, and
    has the label, the mapped type and the quoted reference of one of the
    columns; the only metric is the row count. *)
Theorem every_dimension_comes_from_a_column (uuid tableName : jsstring)
    (columns : list ColumnDefinition) (warehouseType : jsstring)
    (s : UuidSupply) :
  let explore :=
    fst (AdhocTableExploreService.generateExplore uuid tableName columns
           warehouseType s) in
  let dims := AdhocTableExploreService.dimensionsOf explore in
  NoDup (objKeys dims) /\
  length dims <= length columns /\
  (forall k, In k (objKeys dims) <->
             In k (fst (Vocabulary.sanitizedNames columns s))) /\
  (forall k d, In (k, d) dims ->
     dim_name d = k /\ dim_table d = tableName /\
     exists column,
       In column columns /\
       dim_label d = cd_name column /\
       dim_type d
         = AdhocTableExploreService.mapColumnTypeToDimensionType
             (cd_type column) /\
       dim_compiledSql d
         = [AdhocTableExploreService.dq] ++ tableName
             ++ [AdhocTableExploreService.dq] ++ js "."
             ++ [AdhocTableExploreService.dq]
             ++ AdhocTableExploreService.escapeIdentifier (cd_name column)
             ++ [AdhocTableExploreService.dq]) /\
  objKeys (AdhocTableExploreService.metricsOf explore) = [js "row_count"].
Proof.
  intros explore dims. subst dims.
  destruct (generateExplore_tables uuid tableName columns warehouseType s)
    as [Hd Hm].
  fold explore in Hd, Hm. rewrite Hd, Hm.
  unfold AdhocTableExploreService.generateDimensions.
  destruct (reduceDimensions_columns tableName columns [] s)
    as (Hnd & Hlen & Hkeys & Hfrom).
  split; [apply Hnd; constructor|]. split; [exact Hlen|].
  split; [|split; [|reflexivity]].
  - intros k. rewrite Hkeys. simpl. tauto.
  - intros k d Hin. destruct (Hfrom k d Hin) as [[]|H]. exact H.
Qed.

(* ================================================================== *)
(** ** Listing and deleting *)
(* ================================================================== *)

Section Listing.
Import Vocabulary Terms AdhocTableService AdhocTablePermissionService.







Lemma tombstoned_not_live (w : World) (t : jsstring) :
  tombstoned w t -> liveRow w t = None.
Proof.
  intros H. apply tombstoned_hidden in H. destruct H as [H _].
  rewrite getTable_run in H. cbn [fst] in H.
  destruct (liveRow w t); [discriminate | reflexivity].
Qed.

End Listing.


(** X14: the three ways [deleteTable] ends.  For a table that does not
    exist or is deleted already it throws NotFoundError; for a live table
    and a user who did not create it, ForbiddenError; in both cases nothing
    changes.  For the creator it returns, every row with the table's uuid
    has [deleted_at] and [updated_at] set to the time of the call, and no
    live row of the table is left. *)
Theorem deleteTable_outcomes (tableUuid userUuid : jsstring) (w : World) :
  match Vocabulary.liveRow w tableUuid with
  | None =>
      AdhocTableService.deleteTable tableUuid userUuid w
      = (Throw (NotFoundError (js "Table " ++ tableUuid ++ js " not found")),
         w)
  | Some table =>
      if Js.eqb (at_created_by table) userUuid
      then
        fst (AdhocTableService.deleteTable tableUuid userUuid w) = Ok tt /\
        adhoc_tables (snd (AdhocTableService.deleteTable tableUuid userUuid w))
          = map (AdhocTableService.softDelete tableUuid (clock w))
                (adhoc_tables w) /\
        Vocabulary.liveRow
          (snd (AdhocTableService.deleteTable tableUuid userUuid w)) tableUuid
          = None
      else
        AdhocTableService.deleteTable tableUuid userUuid w
        = (Throw (ForbiddenError (js "Only table owner can delete this table")),
           w)
  end.
Proof.
  destruct (Vocabulary.liveRow w tableUuid) as [table|] eqn:Hlive.
  - destruct (JsFacts.eqb_spec (at_created_by table) userUuid) as [Hown|Hnot].
    + destruct (@deleteTable_run tableUuid userUuid w table Hlive Hown)
        as (w' & Hrun & Hrows & _).
      rewrite Hrun. cbn [fst snd]. split; [reflexivity|].
      split; [exact Hrows|].
      apply tombstoned_not_live.
      apply (@tombstoned_after_softDelete w w' tableUuid (clock w) table
               Hlive Hrows).
    + unfold AdhocTableService.deleteTable.
      rewrite (@bind_ok _ _ _ _ _ _ _ (getTable_run tableUuid w)), Hlive.
      cbn [option_map].
      rewrite (@bind_ok _ _ _ _ _ _ _
                 (userCanDeleteTable_run tableUuid userUuid w)), Hlive.
      apply JsFacts.eqb_neq in Hnot. rewrite Hnot. reflexivity.
  - unfold AdhocTableService.deleteTable.
    rewrite (@bind_ok _ _ _ _ _ _ _ (getTable_run tableUuid w)), Hlive.
    reflexivity.
Qed.

Section AfterDeletion.
Import Vocabulary Terms AdhocTableService AdhocTablePermissionService.
Import AdhocTableCatalogService.

(** The world that an authorized [deleteTable] leaves. *)
Lemma deleteTable_world (t u : jsstring) (w : World) (table : AdhocTableRow) :
  liveRow w t = Some table ->
  at_created_by table = u ->
  deleteTable t u w
  = (Ok tt,
     snd (removeFromCatalog (at_project_uuid table) t
            (with_adhoc_tables w
               (map (softDelete t (clock w)) (adhoc_tables w))))).
Proof.
  intros Hlive Hown. unfold deleteTable.
  rewrite (@bind_ok _ _ _ _ _ _ _ (getTable_run t w)), Hlive.
  cbn [option_map].
  rewrite (@bind_ok _ _ _ _ _ _ _ (userCanDeleteTable_run t u w)), Hlive.
  rewrite Hown, JsFacts.eqb_refl. cbn [negb].
  rewrite (@bind_ok _ _ now _ w w (clock w) eq_refl).
  set (w1 := with_adhoc_tables w (map (softDelete t (clock w)) (adhoc_tables w))).
  unfold bind at 1. cbv beta iota. fold w1.
  cbn [rec_projectUuid formatRecord].
  pose proof (removeFromCatalog_returns (at_project_uuid table) t w1) as Hret.
  unfold tryCatch.
  destruct (removeFromCatalog (at_project_uuid table) t w1) as [o w2].
  cbn [fst snd] in *. subst o. reflexivity.
Qed.

(** What [removeFromCatalog] leaves of the catalog: all of it, or all but
    the entries of the cached Explore it found. *)
Lemma removeFromCatalog_catalog (p t : jsstring) (w : World) :
  catalog_search (snd (removeFromCatalog p t w)) = catalog_search w \/
  exists ce,
    find (fun ce => Js.eqb (ce_project_uuid ce) p && Js.eqb (ce_name ce) t)
         (cached_explore w) = Some ce /\
    catalog_search (snd (removeFromCatalog p t w))
      = filter (fun e => negb (entryOfExplore p (ce_cached_explore_uuid ce) e))
               (catalog_search w).
Proof.
  unfold removeFromCatalog, tryCatch, findCachedExplore, bind, fallible,
    readWorld, logLine. simpl.
  destruct (faults w ExploreSelect (ticks w)); simpl; [left; reflexivity|].
  destruct (find _ (cached_explore w)) as [ce|] eqn:Hfind; simpl;
    [|left; reflexivity].
  destruct (faults w CatalogDelete (S (ticks w))); simpl;
    [left; reflexivity|].
  right. exists ce. split; reflexivity.
Qed.


End AfterDeletion.



(** X16: [deleteTable] is a soft delete and no more.  However it ends, the
    warehouse and the calls made to it, the access grants, the cached
    Explores, the projects and the memberships are as before: the physical
    table and the table's Explore stay.  No row of [adhoc_tables] is added
    or removed, the rows of other tables are untouched, and the catalog
    gains no entry. *)
Theorem deleteTable_is_soft (tableUuid userUuid : jsstring) (w : World) :
  let w' := snd (AdhocTableService.deleteTable tableUuid userUuid w) in
  warehouse w' = warehouse w /\
  warehouse_calls w' = warehouse_calls w /\
  adhoc_table_access w' = adhoc_table_access w /\
  cached_explore w' = cached_explore w /\
  projects w' = projects w /\
  project_memberships w' = project_memberships w /\
  map at_uuid (adhoc_tables w') = map at_uuid (adhoc_tables w) /\
  (forall r, In r (adhoc_tables w) -> at_uuid r <> tableUuid ->
             In r (adhoc_tables w')) /\
  (forall e, In e (catalog_search w') -> In e (catalog_search w)).
Proof.
  pose proof (deleteTable_outcomes tableUuid userUuid w) as Hout.
  destruct (Vocabulary.liveRow w tableUuid) as [table|] eqn:Hlive;
    [|rewrite Hout; cbn [snd]; repeat split; auto].
  destruct (JsFacts.eqb_spec (at_created_by table) userUuid) as [Hown|Hnot];
    [|rewrite Hout; cbn [snd]; repeat split; auto].
  clear Hout.
  rewrite (@deleteTable_world tableUuid userUuid w table Hlive Hown).
  cbn [snd].
  set (w1 := with_adhoc_tables w
               (map (AdhocTableService.softDelete tableUuid (clock w))
                    (adhoc_tables w))).
  pose proof (keeps_removeFromCatalog (at_project_uuid table) tableUuid w1)
    as (Hrows & Hacc & Hwh & Hcalls & Hproj & Hmem & _).
  pose proof (removeFromCatalog_explores (at_project_uuid table) tableUuid w1)
    as Hex.
  pose proof (removeFromCatalog_catalog (at_project_uuid table) tableUuid w1)
    as Hcat.
  rewrite Hrows, Hacc, Hwh, Hcalls, Hproj, Hmem, Hex.
  subst w1. cbn [with_adhoc_tables adhoc_tables adhoc_table_access warehouse
                 warehouse_calls projects project_memberships cached_explore
                 catalog_search] in *.
  repeat (split; [reflexivity|]).
  split; [|split].
  - rewrite map_map. apply map_ext. intros r. apply softDelete_uuid.
  - intros r Hr Hne. apply in_map_iff. exists r. split; [|exact Hr].
    unfold AdhocTableService.softDelete.
    apply JsFacts.eqb_neq in Hne. rewrite Hne. reflexivity.
  - intros e He. destruct Hcat as [Hsame|(ce & _ & Hfilter)].
    + rewrite Hsame in He. exact He.
    + rewrite Hfilter in He. apply filter_In in He. apply He.
Qed.

(** X17: [removeFromCatalog] never throws and removes only what belongs to
    the table: it adds no entry, it keeps every entry that does not carry
    the project and the uuid of a cached Explore registered under the
    table's uuid, and it leaves the cached Explores, the tables of record and
    the warehouse alone, also when its statements fail. *)
Theorem removeFromCatalog_removes_only_its_own (projectUuid tableUuid : jsstring)
    (w : World) :
  let w' :=
    snd (AdhocTableCatalogService.removeFromCatalog projectUuid tableUuid w) in
  fst (AdhocTableCatalogService.removeFromCatalog projectUuid tableUuid w)
    = Ok tt /\
  (forall e, In e (catalog_search w') -> In e (catalog_search w)) /\
  (forall e, In e (catalog_search w) ->
             ~ Vocabulary.entryOf w projectUuid tableUuid e ->
             In e (catalog_search w')) /\
  cached_explore w' = cached_explore w /\
  Vocabulary.sameAssets w w'.
Proof.
  cbv zeta. split; [apply removeFromCatalog_returns|].
  pose proof (removeFromCatalog_catalog projectUuid tableUuid w) as Hcat.
  split; [|split; [|split]].
  - intros e He. destruct Hcat as [Hsame|(ce & _ & Hfilter)].
    + rewrite Hsame in He. exact He.
    + rewrite Hfilter in He. apply filter_In in He. apply He.
  - intros e He Hnot. destruct Hcat as [Hsame|(ce & Hfind & Hfilter)].
    + rewrite Hsame. exact He.
    + rewrite Hfilter. apply filter_In. split; [exact He|].
      destruct (Terms.entryOfExplore projectUuid (ce_cached_explore_uuid ce) e)
        eqn:Hentry; [|reflexivity].
      exfalso. apply Hnot. unfold Terms.entryOfExplore in Hentry.
      apply andb_true_iff in Hentry. destruct Hentry as [Hp Hu].
      apply JsFacts.eqb_eq in Hp, Hu.
      apply find_some in Hfind. destruct Hfind as [Hin Hkey].
      apply andb_true_iff in Hkey. destruct Hkey as [Hk1 Hk2].
      apply JsFacts.eqb_eq in Hk1, Hk2.
      split; [exact Hp|]. exists ce. repeat split; assumption.
  - apply removeFromCatalog_explores.
  - apply keeps_removeFromCatalog.
Qed.

(* ================================================================== *)
(** ** Sharing *)
(* ================================================================== *)

Section Grants.
Import Vocabulary Terms AdhocTablePermissionService.






End Grants.




Section PrimaryKey.
Import FileParserService Vocabulary Terms AdhocTableService Api.
Import AdhocTablePermissionService.

Variable papaParse : jsstring -> PapaOutcome.
Variable xlsxRead : Buffer -> XlsxOutcome.
Variable clientOf : jsstring -> WarehouseClient.

Lemma uniqueUuids_step (w w' : World) :
  rowsStep w w' -> uniqueUuids w -> uniqueUuids w'.
Proof.
  unfold uniqueUuids.
  intros [Hsame | [(row & Hnew & Hfresh) | (t & c & Hdel)]] Hnd.
  - rewrite Hsame. exact Hnd.
  - rewrite Hnew, map_app. apply NoDup_app; [exact Hnd | | ].
    + constructor; [intros []|constructor].
    + intros x Hx [<-|[]]. apply in_map_iff in Hx.
      destruct Hx as (r & Hu & Hr).
      assert (Hex : existsb (fun r1 => Js.eqb (at_uuid r1) (at_uuid row))
                      (adhoc_tables w) = true).
      { apply existsb_exists. exists r. split; [exact Hr|].
        apply JsFacts.eqb_eq. exact Hu. }
      congruence.
  - rewrite Hdel, map_map.
    rewrite (map_ext _ at_uuid (fun r => softDelete_uuid t c r)). exact Hnd.
Qed.

Lemma uniqueUuids_afterCalls (calls : list Call) (w : World) :
  uniqueUuids w ->
  uniqueUuids (afterCalls papaParse xlsxRead clientOf w calls).
Proof.
  revert w. induction calls as [|c calls IH]; intros w Hw; simpl; [exact Hw|].
  apply IH. eapply uniqueUuids_step; [apply afterCall_rowsStep | exact Hw].
Qed.


End PrimaryKey.

(** X20: the unique indexes that the services rely on are kept by the
    services themselves: if no two rows of [adhoc_tables] share a uuid and
    no two cached Explores share project and name, then the same holds after
    any sequence of uploads, listings, lookups, deletions, access checks,
    grants and revocations, whether they return or throw. *)
Theorem the_unique_indexes_are_kept
    (papaParse : jsstring -> FileParserService.PapaOutcome)
    (xlsxRead : Buffer -> FileParserService.XlsxOutcome)
    (clientOf : jsstring -> WarehouseClient)
    (calls : list Api.Call) (w : World) :
  Terms.uniqueUuids w ->
  Vocabulary.uniqueExploreNames w ->
  Terms.uniqueUuids (Api.afterCalls papaParse xlsxRead clientOf w calls) /\
  Vocabulary.uniqueExploreNames
    (Api.afterCalls papaParse xlsxRead clientOf w calls).
Proof.
  intros Hrows Hexplores. split.
  - apply uniqueUuids_afterCalls. exact Hrows.
  - apply uniqueExploreNames_afterCalls. exact Hexplores.
Qed.

Lemma the_unique_indexes_are_kept_witness :
  Terms.uniqueUuids (Demo.world0 Demo.noFaults) /\
  Vocabulary.uniqueExploreNames (Demo.world0 Demo.noFaults) /\
  Terms.uniqueUuids
    (Api.afterCalls Demo.papa Demo.xlsx Demo.clientFor
       (Demo.world0 Demo.noFaults)
       [Api.CreateFromFile Demo.project1 Demo.alice Demo.signups;
        Api.CreateFromFile Demo.project1 Demo.bob Demo.sharedSignups;
        Api.DeleteTable Demo.tableId Demo.alice]).
Proof.
  assert (H1 : Terms.uniqueUuids (Demo.world0 Demo.noFaults))
    by constructor.
  assert (H2 : Vocabulary.uniqueExploreNames (Demo.world0 Demo.noFaults))
    by constructor.
  split; [exact H1|]. split; [exact H2|].
  exact (proj1 (@the_unique_indexes_are_kept Demo.papa Demo.xlsx
                  Demo.clientFor _ _ H1 H2)).
Defined.



(* ================================================================== *)
(** ** Uploading *)
(* ================================================================== *)

Section Uploads.
Import FileParserService Vocabulary Terms AdhocTableService.

Variable papaParse : jsstring -> PapaOutcome.
Variable xlsxRead : Buffer -> XlsxOutcome.
Variable clientOf : jsstring -> WarehouseClient.



End Uploads.





(* ================================================================== *)
(** ** The catalog *)
(* ================================================================== *)

Section Catalog.
Import Vocabulary Terms AdhocTableCatalogService.

Lemma catalogTypeEqb_eq (a b : CatalogType) :
  catalogTypeEqb a b = true <-> a = b.
Proof. destruct a, b; simpl; split; congruence. Qed.

Lemma sameCatalogKey_eq (a b : CatalogRow) :
  sameCatalogKey a b = true <->
  cs_project_uuid a = cs_project_uuid b /\
  cs_name a = cs_name b /\
  cs_cached_explore_uuid a = cs_cached_explore_uuid b /\
  cs_type a = cs_type b.
Proof.
  unfold sameCatalogKey.
  rewrite !andb_true_iff, !JsFacts.eqb_eq, catalogTypeEqb_eq. tauto.
Qed.

Lemma upsertRow_In (rows : list CatalogRow) (e : CatalogRow) :
  In e (upsertRow rows e).
Proof.
  induction rows as [|r rows IH]; simpl; [left; reflexivity|].
  destruct (sameCatalogKey r e); [left; reflexivity | right; exact IH].
Qed.

(** An upsert keeps a row under every key that had one; if the new entry
    has a property, so has the row under a key whose row had it. *)
Lemma upsertRow_keeps (P : CatalogRow -> Prop) (rows : list CatalogRow)
    (e k : CatalogRow) :
  P e ->
  (exists r, In r rows /\ sameCatalogKey r k = true /\ P r) ->
  exists r, In r (upsertRow rows e) /\ sameCatalogKey r k = true /\ P r.
Proof.
  intros He (r & Hr & Hk & HP).
  induction rows as [|r0 rows IH]; simpl; [destruct Hr|].
  destruct (sameCatalogKey r0 e) eqn:H0.
  - destruct Hr as [->|Hr].
    + exists e. split; [left; reflexivity|]. split; [|exact He].
      apply sameCatalogKey_eq. apply sameCatalogKey_eq in H0, Hk.
      intuition congruence.
    + exists r. split; [right; exact Hr|]. split; assumption.
  - destruct Hr as [->|Hr].
    + exists r. split; [left; reflexivity|]. split; assumption.
    + destruct (IH Hr) as (r' & Hr' & Hk' & HP').
      exists r'. split; [right; exact Hr'|]. split; assumption.
Qed.

Lemma fold_upsertRow_has (P : CatalogRow -> Prop) (entries : list CatalogRow) :
  Forall P entries ->
  forall rows k,
    ((exists r, In r rows /\ sameCatalogKey r k = true /\ P r) \/
     In k entries) ->
    exists r, In r (fold_left upsertRow entries rows) /\
              sameCatalogKey r k = true /\ P r.
Proof.
  induction 1 as [|e entries He Hall IH]; intros rows k; simpl.
  - intros [H|[]]. exact H.
  - intros [H|[->|H]]; apply IH.
    + left. apply upsertRow_keeps; assumption.
    + left. exists k. split; [apply upsertRow_In|].
      split; [|exact He]. apply sameCatalogKey_eq. tauto.
    + right. exact H.
Qed.

(** Upserting an entry of an Explore changes nothing about the entries of
    the others. *)
Lemma upsertRow_others (p u : jsstring) (rows : list CatalogRow)
    (e : CatalogRow) :
  entryOfExplore p u e = true ->
  filter (fun x => negb (entryOfExplore p u x)) (upsertRow rows e)
  = filter (fun x => negb (entryOfExplore p u x)) rows.
Proof.
  intros He. induction rows as [|r rows IH]; simpl.
  - rewrite He. reflexivity.
  - destruct (sameCatalogKey r e) eqn:Hk; simpl.
    + assert (Hr : entryOfExplore p u r = true).
      { apply sameCatalogKey_eq in Hk. destruct Hk as (H1 & _ & H3 & _).
        unfold entryOfExplore in *. rewrite H1, H3. exact He. }
      rewrite He, Hr. reflexivity.
    + rewrite IH. reflexivity.
Qed.

Lemma fold_upsertRow_others (p u : jsstring) (entries : list CatalogRow) :
  Forall (fun e => entryOfExplore p u e = true) entries ->
  forall rows,
    filter (fun x => negb (entryOfExplore p u x))
           (fold_left upsertRow entries rows)
    = filter (fun x => negb (entryOfExplore p u x)) rows.
Proof.
  induction 1 as [|e entries He Hall IH]; intros rows; simpl; [reflexivity|].
  rewrite IH. apply upsertRow_others, He.
Qed.

Lemma faultless_fallible (point : FaultPoint) (what : jsstring) (w : World) :
  faultless w ->
  fallible point what w = (Ok tt, with_ticks w (S (ticks w))).
Proof. intros H. unfold fallible. rewrite H. reflexivity. Qed.

Lemma upsertCatalog_run (w : World) (entry : CatalogRow) :
  faultless w ->
  exists w',
    upsertCatalog entry w = (Ok tt, w') /\
    catalog_search w' = upsertRow (catalog_search w) entry /\
    cached_explore w' = cached_explore w /\
    faultless w'.
Proof.
  intros H. unfold upsertCatalog.
  rewrite (@bind_ok _ _ _ _ _ _ _ (faultless_fallible CatalogUpsert _ H)).
  eexists. split; [reflexivity|]. repeat split. exact H.
Qed.

Lemma forEach_upsertCatalog (entries : list CatalogRow) :
  forall w,
    faultless w ->
    exists w',
      forEach upsertCatalog entries w = (Ok tt, w') /\
      catalog_search w' = fold_left upsertRow entries (catalog_search w) /\
      cached_explore w' = cached_explore w /\
      faultless w'.
Proof.
  induction entries as [|e entries IH]; intros w H; simpl.
  - exists w. repeat split. exact H.
  - destruct (upsertCatalog_run e H) as (w1 & Hrun & Hcat & Hex & H1).
    rewrite (@bind_ok _ _ _ _ _ _ _ Hrun).
    destruct (IH w1 H1) as (w2 & Hrun2 & Hcat2 & Hex2 & H2).
    exists w2. split; [exact Hrun2|]. split; [rewrite Hcat2, Hcat; reflexivity|].
    split; [congruence | exact H2].
Qed.

(** The entries that [registerInCatalog] writes for an Explore. *)
Lemma registerInCatalog_run (p t name : jsstring) (explore : Explore)
    (base : option jsstring) (w : World) :
  faultless w ->
  exists w',
    registerInCatalog p t name explore base w = (Ok tt, w') /\
    cached_explore w' = cached_explore w /\
    faultless w' /\
    match find (fun ce => Js.eqb (ce_project_uuid ce) p
                          && Js.eqb (ce_name ce) t) (cached_explore w),
          AdhocTableExploreService.baseTableOf explore with
    | Some ce, Some baseTable =>
        catalog_search w'
        = fold_left upsertRow
            ({| cs_project_uuid := p;
                cs_cached_explore_uuid := ce_cached_explore_uuid ce;
                cs_name := orElse base name;
                cs_type := CatalogTable;
                cs_table_name := orElse base name;
                cs_description := js "Uploaded table: " ++ name;
                cs_icon := Some (js "upload") |}
             :: map (fun dim =>
                       {| cs_project_uuid := p;
                          cs_cached_explore_uuid := ce_cached_explore_uuid ce;
                          cs_name := dim_name dim;
                          cs_type := CatalogField;
                          cs_table_name := orElse base name;
                          cs_description :=
                            orElse (Some (dim_label dim)) (dim_name dim);
                          cs_icon := None |})
                    (objValues (tbl_dimensions baseTable))
             ++ map (fun metric =>
                       {| cs_project_uuid := p;
                          cs_cached_explore_uuid := ce_cached_explore_uuid ce;
                          cs_name := met_name metric;
                          cs_type := CatalogField;
                          cs_table_name := orElse base name;
                          cs_description :=
                            orElse (Some (met_label metric)) (met_name metric);
                          cs_icon := None |})
                    (objValues (tbl_metrics baseTable)))
            (catalog_search w)
    | _, _ => catalog_search w' = catalog_search w
    end.
Proof.
  intros H. unfold registerInCatalog, tryCatch, findCachedExplore.
  rewrite (@bind_ok _ _ _ _ _ _ _
             (@bind_ok _ _ _ _ _ _ _
                (faultless_fallible ExploreSelect _ H))).
  change (cached_explore (with_ticks w (S (ticks w))))
    with (cached_explore w).
  set (w0 := with_ticks w (S (ticks w))).
  assert (H0 : faultless w0) by exact H.
  destruct (find _ (cached_explore w)) as [ce|].
  2:{ eexists. split; [reflexivity|]. repeat split. exact H. }
  unfold AdhocTableExploreService.baseTableOf.
  destruct (objGet (ex_tables explore) (ex_baseTable explore))
    as [baseTable|].
  2:{ eexists. split; [reflexivity|]. repeat split. exact H. }
  match goal with
  | |- context [upsertCatalog ?e ;;; _] => set (tableEntry := e)
  end.
  destruct (upsertCatalog_run tableEntry H0) as (w1 & Hrun1 & Hcat1 & Hex1 & H1).
  rewrite (@bind_ok _ _ _ _ _ _ _ Hrun1).
  match goal with
  | |- context [forEach upsertCatalog ?l ;;; forEach upsertCatalog ?m ;;; _] =>
      set (dims := l); set (mets := m)
  end.
  destruct (forEach_upsertCatalog dims H1) as (w2 & Hrun2 & Hcat2 & Hex2 & H2).
  rewrite (@bind_ok _ _ _ _ _ _ _ Hrun2).
  destruct (forEach_upsertCatalog mets H2) as (w3 & Hrun3 & Hcat3 & Hex3 & H3).
  rewrite (@bind_ok _ _ _ _ _ _ _ Hrun3).
  eexists. split; [reflexivity|].
  cbn [logLine with_console cached_explore catalog_search faults].
  split; [rewrite Hex3, Hex2, Hex1; reflexivity|]. split; [exact H3|].
  cbn [fold_left]. rewrite fold_left_app.
  rewrite Hcat3, Hcat2, Hcat1. reflexivity.
Qed.

End Catalog.

(** X24: registering a table in the catalog makes it and its fields
    searchable.  When no statement fails, [registerInCatalog] returns and
    leaves the cached Explores alone; if the table's Explore is cached and
    has its base table, the catalog then holds, under the project and the
    uuid of the cached Explore, an entry of type table under the warehouse
    table name (or the table's name, when none is given), and an entry of
    type field for every dimension and every metric of the base table, each
    carrying that table name; without a cached Explore, or without the base
    table, the catalog is what it was. *)
Theorem registerInCatalog_makes_the_table_searchable
    (projectUuid tableUuid tableName : jsstring) (explore : Explore)
    (baseTableName : option jsstring) (w : World) :
  Terms.faultless w ->
  let run :=
    AdhocTableCatalogService.registerInCatalog projectUuid tableUuid tableName
      explore baseTableName w in
  let listedName := AdhocTableCatalogService.orElse baseTableName tableName in
  fst run = Ok tt /\
  cached_explore (snd run) = cached_explore w /\
  match find (fun ce => Js.eqb (ce_project_uuid ce) projectUuid
                        && Js.eqb (ce_name ce) tableUuid) (cached_explore w),
        AdhocTableExploreService.baseTableOf explore with
  | Some ce, Some baseTable =>
      let has (type : CatalogType) (name : jsstring) :=
        exists e,
          In e (catalog_search (snd run)) /\
          cs_project_uuid e = projectUuid /\
          cs_cached_explore_uuid e = ce_cached_explore_uuid ce /\
          cs_type e = type /\
          cs_name e = name /\
          cs_table_name e = listedName in
      has CatalogTable listedName /\
      (forall dim, In dim (objValues (tbl_dimensions baseTable)) ->
                   has CatalogField (dim_name dim)) /\
      (forall metric, In metric (objValues (tbl_metrics baseTable)) ->
                      has CatalogField (met_name metric))
  | _, _ => catalog_search (snd run) = catalog_search w
  end.
Proof.
  intros Hok run listedName. subst run.
  destruct (registerInCatalog_run projectUuid tableUuid tableName explore
              baseTableName Hok) as (w' & Hrun & Hex & _ & Hcat).
  rewrite Hrun. cbn [fst snd]. split; [reflexivity|]. split; [exact Hex|].
  destruct (find _ (cached_explore w)) as [ce|]; [|exact Hcat].
  destruct (AdhocTableExploreService.baseTableOf explore) as [baseTable|];
    [|exact Hcat].
  cbv zeta.
  match type of Hcat with
  | _ = fold_left _ (?e :: ?ds ++ ?ms) _ =>
      set (tableEntry := e) in *; set (dims := ds) in *; set (mets := ms) in *
  end.
  assert (Hall : Forall (fun e => cs_table_name e = listedName)
                        (tableEntry :: dims ++ mets)).
  { constructor; [reflexivity|]. apply Forall_app. split;
      apply Forall_forall; intros e He; apply in_map_iff in He;
      destruct He as (x & <- & _); reflexivity. }
  assert (Hhas : forall k, In k (tableEntry :: dims ++ mets) ->
            exists e, In e (catalog_search w') /\
                      cs_project_uuid e = cs_project_uuid k /\
                      cs_cached_explore_uuid e = cs_cached_explore_uuid k /\
                      cs_type e = cs_type k /\
                      cs_name e = cs_name k /\
                      cs_table_name e = listedName).
  { intros k Hk.
    destruct (@fold_upsertRow_has _ _ Hall (catalog_search w) k
                (or_intror Hk)) as (e & He & Hkey & HP).
    rewrite <- Hcat in He. apply sameCatalogKey_eq in Hkey.
    exists e. intuition. }
  split; [|split].
  - apply (Hhas tableEntry). left. reflexivity.
  - intros dim Hdim.
    apply (Hhas {| cs_project_uuid := projectUuid;
                   cs_cached_explore_uuid := ce_cached_explore_uuid ce;
                   cs_name := dim_name dim;
                   cs_type := CatalogField;
                   cs_table_name := listedName;
                   cs_description :=
                     AdhocTableCatalogService.orElse (Some (dim_label dim))
                       (dim_name dim);
                   cs_icon := None |}).
    right. apply in_or_app. left. subst dims.
    apply in_map_iff. exists dim. split; [reflexivity | exact Hdim].
  - intros metric Hmetric.
    apply (Hhas {| cs_project_uuid := projectUuid;
                   cs_cached_explore_uuid := ce_cached_explore_uuid ce;
                   cs_name := met_name metric;
                   cs_type := CatalogField;
                   cs_table_name := listedName;
                   cs_description :=
                     AdhocTableCatalogService.orElse (Some (met_label metric))
                       (met_name metric);
                   cs_icon := None |}).
    right. apply in_or_app. right. subst mets.
    apply in_map_iff. exists metric. split; [reflexivity | exact Hmetric].
Qed.

Lemma registerInCatalog_makes_the_table_searchable_witness :
  Terms.faultless (Demo.afterUpload Demo.signups) /\
  fst (AdhocTableCatalogService.registerInCatalog Demo.project1 Demo.tableId
         (js "Signups") Scenes.uploadedExplore None
         (Demo.afterUpload Demo.signups)) = Ok tt /\
  length (catalog_search
            (snd (AdhocTableCatalogService.registerInCatalog Demo.project1
                    Demo.tableId (js "Signups") Scenes.uploadedExplore None
                    (Demo.afterUpload Demo.signups)))) = 6.
Proof.
  assert (H : Terms.faultless (Demo.afterUpload Demo.signups))
    by (intros p n; vm_compute; reflexivity).
  split; [exact H|].
  pose proof (@registerInCatalog_makes_the_table_searchable Demo.project1
                Demo.tableId (js "Signups") Scenes.uploadedExplore None
                (Demo.afterUpload Demo.signups) H) as T.
  cbv zeta in T. destruct T as (T & _).
  split; [exact T | vm_compute; reflexivity].
Defined.

(** X25: removing a table from the catalog undoes its registration and
    touches nothing else.  When no statement fails, [registerInCatalog]
    followed by [removeFromCatalog] leaves the catalog without any entry
    that carries the project and the uuid of the table's cached Explore, and
    with every other entry as it was and where it was; with no cached
    Explore for the table the catalog is unchanged. *)
Theorem register_then_remove_restores_the_catalog
    (projectUuid tableUuid tableName : jsstring) (explore : Explore)
    (baseTableName : option jsstring) (w : World) :
  Terms.faultless w ->
  let w1 :=
    snd (AdhocTableCatalogService.registerInCatalog projectUuid tableUuid
           tableName explore baseTableName w) in
  let w2 :=
    snd (AdhocTableCatalogService.removeFromCatalog projectUuid tableUuid w1) in
  match find (fun ce => Js.eqb (ce_project_uuid ce) projectUuid
                        && Js.eqb (ce_name ce) tableUuid) (cached_explore w)
  with
  | Some ce =>
      catalog_search w2
      = filter (fun e => negb (Terms.entryOfExplore projectUuid
                                 (ce_cached_explore_uuid ce) e))
               (catalog_search w)
  | None => catalog_search w2 = catalog_search w
  end.
Proof.
  intros Hok w1 w2. subst w2 w1.
  destruct (registerInCatalog_run projectUuid tableUuid tableName explore
              baseTableName Hok) as (w1 & Hrun & Hex & Hok1 & Hcat).
  rewrite Hrun. cbn [snd].
  rewrite (@removeFromCatalog_run projectUuid tableUuid w1 (Hok1 _ _)
             (Hok1 _ _)).
  rewrite Hex.
  destruct (find _ (cached_explore w)) as [ce|]; [|exact Hcat].
  destruct (AdhocTableExploreService.baseTableOf explore) as [baseTable|];
    [|rewrite Hcat; reflexivity].
  rewrite Hcat.
  apply (@fold_upsertRow_others projectUuid (ce_cached_explore_uuid ce)).
  constructor;
    [unfold Terms.entryOfExplore; cbn; rewrite !JsFacts.eqb_refl; reflexivity|].
  apply Forall_app. split; apply Forall_forall; intros e He;
    apply in_map_iff in He; destruct He as (x & <- & _);
    unfold Terms.entryOfExplore; cbn; rewrite !JsFacts.eqb_refl; reflexivity.
Qed.

Lemma register_then_remove_restores_the_catalog_witness :
  Terms.faultless (Demo.afterUpload Demo.signups) /\
  length (catalog_search (Demo.afterUpload Demo.signups)) = 5 /\
  match find (fun ce => Js.eqb (ce_project_uuid ce) Demo.project1
                        && Js.eqb (ce_name ce) Demo.tableId)
             (cached_explore (Demo.afterUpload Demo.signups))
  with
  | Some ce =>
      catalog_search
        (snd (AdhocTableCatalogService.removeFromCatalog Demo.project1
                Demo.tableId
                (snd (AdhocTableCatalogService.registerInCatalog Demo.project1
                        Demo.tableId (js "Signups")
                        (ce_explore ce) None (Demo.afterUpload Demo.signups)))))
      = []
  | None => False
  end.
Proof.
  assert (H : Terms.faultless (Demo.afterUpload Demo.signups))
    by (intros p n; vm_compute; reflexivity).
  split; [exact H|]. split; [vm_compute; reflexivity|].
  destruct (find (fun ce => Js.eqb (ce_project_uuid ce) Demo.project1
                            && Js.eqb (ce_name ce) Demo.tableId)
                 (cached_explore (Demo.afterUpload Demo.signups)))
    as [ce|] eqn:Hfind; [|vm_compute in Hfind; discriminate].
  pose proof (@register_then_remove_restores_the_catalog Demo.project1
                Demo.tableId (js "Signups") (ce_explore ce) None
                (Demo.afterUpload Demo.signups) H) as T.
  cbv zeta in T. rewrite Hfind in T. rewrite T.
  assert (Hce : ce_cached_explore_uuid ce = js "a0000001-0000-4000-8000-000000000000")
    by (vm_compute in Hfind; injection Hfind as <-; reflexivity).
  rewrite Hce. vm_compute. reflexivity.
Defined.

(* ================================================================== *)
(** ** The Explore cache *)
(* ================================================================== *)

Section ExploreCache.
Import Vocabulary Terms AdhocTableService.





End ExploreCache.



(* ================================================================== *)
(** ** The service as index.ts has it *)
(* ================================================================== *)

Section IndexVersion.
Import Vocabulary Terms.

Lemma index_getTable_run (t : jsstring) (w : World) :
  AdhocTableServiceIndex.getTable t w
  = (Ok (option_map AdhocTableService.formatRecord (liveRow w t)), w).
Proof. reflexivity. Qed.

End IndexVersion.


(** X28: [deleteTable] as index.ts has it decides and deletes like the one
    of the newer service: the two return or throw the same and leave the same
    rows in [adhoc_tables].  What the older one never does is clean up: it
    leaves the catalog, and everything but [adhoc_tables], exactly as it
    was. *)
Theorem deleteTable_versions_agree (tableUuid userUuid : jsstring)
    (w : World) :
  fst (AdhocTableServiceIndex.deleteTable tableUuid userUuid w)
    = fst (AdhocTableService.deleteTable tableUuid userUuid w) /\
  adhoc_tables (snd (AdhocTableServiceIndex.deleteTable tableUuid userUuid w))
    = adhoc_tables (snd (AdhocTableService.deleteTable tableUuid userUuid w)) /\
  snd (AdhocTableServiceIndex.deleteTable tableUuid userUuid w)
    = with_adhoc_tables w
        (adhoc_tables
           (snd (AdhocTableServiceIndex.deleteTable tableUuid userUuid w))).
Proof.
  pose proof (deleteTable_outcomes tableUuid userUuid w) as Hnew.
  unfold AdhocTableServiceIndex.deleteTable.
  rewrite (@bind_ok _ _ _ _ _ _ _ (index_getTable_run tableUuid w)).
  destruct (Vocabulary.liveRow w tableUuid) as [table|] eqn:Hlive;
    cbn [option_map].
  - cbn [AdhocTableService.formatRecord rec_createdBy].
    destruct (Js.eqb (at_created_by table) userUuid); cbn [negb].
    + destruct Hnew as (Hfst & Hrows & _).
      rewrite (@bind_ok _ _ now _ w w (clock w) eq_refl).
      cbn [fst snd with_adhoc_tables adhoc_tables].
      split; [symmetry; exact Hfst|]. split; [symmetry; exact Hrows|].
      reflexivity.
    + rewrite Hnew. cbn [fst snd throw]. split; [reflexivity|].
      split; [reflexivity|]. destruct w; reflexivity.
  - rewrite Hnew. cbn [fst snd throw]. split; [reflexivity|].
    split; [reflexivity|]. destruct w; reflexivity.
Qed.

(* ================================================================== *)
(** ** Warehouse table names *)
(* ================================================================== *)

Section Base36.
Import Terms.
Local Open Scope N_scope.

Lemma digitValue36_digit36 (d : N) : d < 36 -> digitValue36 (digit36 d) = d.
Proof.
  intros Hd. destruct d as [|p]; [reflexivity|].
  do 6 (try destruct p as [p|p|]); try reflexivity; lia.
Qed.

Lemma toString36_digits_app (fuel : nat) :
  forall n acc,
    toString36_digits fuel n acc = toString36_digits fuel n [] ++ acc.
Proof.
  induction fuel as [|fuel IH]; intros n acc; simpl; [reflexivity|].
  destruct (n / 36 =? 0); [reflexivity|].
  rewrite (IH _ (_ :: acc)), (IH _ [_]). rewrite <- app_assoc. reflexivity.
Qed.

Lemma valueOf36_snoc (l : jsstring) (c : ascii) :
  valueOf36 (l ++ [c]) = 36 * valueOf36 l + digitValue36 c.
Proof. unfold valueOf36. rewrite fold_left_app. reflexivity. Qed.

Lemma valueOf36_digits (fuel : nat) :
  forall n, n < 36 ^ N.of_nat fuel ->
            valueOf36 (toString36_digits fuel n []) = n.
Proof.
  induction fuel as [|fuel IH]; intros n Hn.
  - simpl in Hn. assert (n = 0) by lia. subst. reflexivity.
  - cbn [toString36_digits].
    assert (Hmod : n mod 36 < 36) by (apply N.mod_lt; lia).
    destruct (N.eqb_spec (n / 36) 0) as [Hq|Hq].
    + unfold valueOf36. cbn [fold_left].
      rewrite digitValue36_digit36 by exact Hmod.
      apply N.div_small_iff in Hq; [|lia].
      rewrite N.mod_small by exact Hq. lia.
    + rewrite toString36_digits_app, valueOf36_snoc.
      rewrite digitValue36_digit36 by exact Hmod.
      rewrite IH.
      * symmetry. apply N.div_mod. lia.
      * apply N.Div0.div_lt_upper_bound.
        rewrite Nat2N.inj_succ, N.pow_succ_r' in Hn. exact Hn.
Qed.

Lemma enough_digits (n : N) : n < 36 ^ N.of_nat (S (N.to_nat (N.log2 n))).
Proof.
  rewrite Nat2N.inj_succ, N2Nat.id.
  destruct n as [|p]; [reflexivity|].
  destruct (N.log2_spec (N.pos p)) as [_ Hlt]; [lia|].
  eapply N.lt_le_trans; [exact Hlt|].
  apply N.pow_le_mono_l. lia.
Qed.

Lemma valueOf36_toString36 (z : Z) :
  (0 <= z)%Z -> valueOf36 (toString36 z) = Z.to_N z.
Proof.
  intros Hz. unfold toString36.
  destruct (Z.ltb_spec z 0) as [Hneg|_]; [lia|].
  apply valueOf36_digits, enough_digits.
Qed.

End Base36.

(** X29: warehouse table names tell uploads apart by their time only.  The
    name that [generateWarehouseTableName] gives starts with adhoc_ and ends
    with the clock in base 36, and the generation changes nothing; for the
    same table name and user two names are the same exactly when the two
    clocks show the same millisecond. *)
Theorem warehouse_table_names_differ_by_time (tableName userUuid : jsstring)
    (w1 w2 : World) :
  (0 <= clock w1)%Z ->
  (0 <= clock w2)%Z ->
  exists stem,
    AdhocTableService.generateWarehouseTableName tableName userUuid w1
      = (Ok (js "adhoc_" ++ stem ++ toString36 (clock w1)), w1) /\
    AdhocTableService.generateWarehouseTableName tableName userUuid w2
      = (Ok (js "adhoc_" ++ stem ++ toString36 (clock w2)), w2) /\
    (js "adhoc_" ++ stem ++ toString36 (clock w1)
       = js "adhoc_" ++ stem ++ toString36 (clock w2)
     <-> clock w1 = clock w2).
Proof.
  intros H1 H2.
  exists (substring0 50
            (replaceAllChars (fun c => negb (isLowerWordChar c)) underscore
               (toLowerCase tableName))
          ++ js "_"
          ++ substring0 8
               (takeWhile (fun c => negb (Ascii.eqb c "-"%char)) userUuid)
          ++ js "_").
  unfold AdhocTableService.generateWarehouseTableName.
  rewrite !(@bind_ok _ _ now _ _ _ _ eq_refl). unfold ret.
  split; [rewrite <- !app_assoc; reflexivity|].
  split; [rewrite <- !app_assoc; reflexivity|].
  split.
  - intros Heq. apply app_inv_head in Heq. apply app_inv_head in Heq.
    apply (f_equal Terms.valueOf36) in Heq.
    rewrite !valueOf36_toString36 in Heq by assumption.
    apply Z2N.inj; assumption.
  - intros ->. reflexivity.
Qed.

Lemma warehouse_table_names_differ_by_time_witness :
  (0 <= clock (Demo.world0 Demo.noFaults))%Z /\
  (0 <= clock Scenes.aMillisecondLater)%Z /\
  exists stem,
    AdhocTableService.generateWarehouseTableName (js "My Sales 2024!")
      Demo.alice (Demo.world0 Demo.noFaults)
      = (Ok (js "adhoc_" ++ stem
               ++ toString36 (clock (Demo.world0 Demo.noFaults))),
         Demo.world0 Demo.noFaults) /\
    AdhocTableService.generateWarehouseTableName (js "My Sales 2024!")
      Demo.alice Scenes.aMillisecondLater
      = (Ok (js "adhoc_" ++ stem ++ toString36 (clock Scenes.aMillisecondLater)),
         Scenes.aMillisecondLater) /\
    (js "adhoc_" ++ stem ++ toString36 (clock (Demo.world0 Demo.noFaults))
       = js "adhoc_" ++ stem ++ toString36 (clock Scenes.aMillisecondLater)
     <-> clock (Demo.world0 Demo.noFaults) = clock Scenes.aMillisecondLater).
Proof.
  assert (H1 : (0 <= clock (Demo.world0 Demo.noFaults))%Z)
    by (vm_compute; discriminate).
  assert (H2 : (0 <= clock Scenes.aMillisecondLater)%Z)
    by (vm_compute; discriminate).
  split; [exact H1|]. split; [exact H2|].
  exact (@warehouse_table_names_differ_by_time (js "My Sales 2024!")
           Demo.alice (Demo.world0 Demo.noFaults) Scenes.aMillisecondLater
           H1 H2).
Defined.

Section UploadOutcomes.
Import FileParserService Vocabulary Terms AdhocTableService.

Variable papaParse : jsstring -> PapaOutcome.
Variable xlsxRead : Buffer -> XlsxOutcome.
Variable clientOf : jsstring -> WarehouseClient.


End UploadOutcomes.

